(** * Account selection, window analytics and the tick stream

    A shallow embedding of the TypeScript services of the repository
    (the Bluesky and Twitter account selectors, the analytics functions,
    the SSE tick generator and the summaries route) together with the
    properties stated about them.

    Conventions of the embedding:
    - a JS [number] that holds a count, an id or a millisecond timestamp
      is a [Z], which is what the double holds while it is an integer of
      magnitude below 2^53; [None] stands for [undefined]/[null] in an
      optional field and for [NaN] in the result of a parse; a limit
      that may be any number is a [JSNum.t];
    - a JS string is a [string], read as its sequence of code units, all
      below 256: lengths and cuts count code units; [toLowerCase] folds
      the letters A to Z only, which is [String.prototype.toLowerCase]
      on ASCII text; the empty string is the falsy one;
    - a JS [Map] that is only read by key is a [gmap], a [Set] a [gset];
      the [Map] whose iteration order matters is an association list;
    - mutable locals ([ok], [reasons], [tick], the timer handles) are
      threaded explicitly;
    - what the services obtain from outside (profile lookups, override
      rules, feeds, the clock, [Date.parse], the sentiment scorer, the
      configuration constants) is a parameter. *)

From Stdlib Require Import ZArith List String Ascii Bool Lia.
From Stdlib Require Import Permutation Sorted QArith Qround Floats Uint63 DecimalString.
From stdpp Require Import gmap strings list.
Import ListNotations.

Local Open Scope Z_scope.

(** ** A small model of the JavaScript host *)

Module JS.

(** Truthiness of a string and of an optional string. *)
Definition truthy (s : string) : bool :=
  match s with EmptyString => false | String _ _ => true end.

Definition truthy_opt (o : option string) : bool :=
  match o with Some s => truthy s | None => false end.

(** [a ?? b] and [a || b] on optional strings. *)
Definition nullish {A : Type} (a : option A) (b : A) : A :=
  match a with Some x => x | None => b end.

Definition or_else (a : option string) (b : option string) : option string :=
  if truthy_opt a then a else b.

(** Template-literal rendering of an integral number. *)
Definition Z_to_string (z : Z) : string := NilZero.string_of_int (Z.to_int z).

(** [Number(s)] on the fragment of the grammar the services meet: the
    empty string is [0], an optionally signed run of decimal digits is
    its value (exactly so below 2^53). [None] stands for [NaN]; the
    literals outside the fragment (fractions, exponents, hexadecimal,
    surrounding blanks) are not modelled, so a statement that is to
    cover them takes the number itself, not the string. *)
Fixpoint digits (s : string) (acc : Z) : option Z :=
  match s with
  | EmptyString => Some acc
  | String c s' =>
      let n := Z.of_nat (nat_of_ascii c) in
      if (48 <=? n) && (n <=? 57) then digits s' (10 * acc + (n - 48)) else None
  end.

Definition Number (s : string) : option Z :=
  match s with
  | EmptyString => Some 0
  | String "-"%char (String c r) => option_map Z.opp (digits (String c r) 0)
  | String "+"%char (String c r) => digits (String c r) 0
  | _ => digits s 0
  end.

(** [Number(x)] where [x] may be [null] ([Number(null)] is [0]). *)
Definition Number_opt (o : option string) : option Z :=
  match o with Some s => Number s | None => Some 0 end.

(** ASCII [toLowerCase]. *)
Definition lower_ascii (c : ascii) : ascii :=
  let n := nat_of_ascii c in
  if (65 <=? n)%nat && (n <=? 90)%nat then ascii_of_nat (n + 32) else c.

Fixpoint toLowerCase (s : string) : string :=
  match s with
  | EmptyString => EmptyString
  | String c s' => String (lower_ascii c) (toLowerCase s')
  end.

(** [s.includes(sub)]. *)
Fixpoint includes (s sub : string) : bool :=
  String.prefix sub s
  || match s with
     | EmptyString => false
     | String _ s' => includes s' sub
     end.

(** [xs.slice(0, k)] for an integral [k] (a negative [k] counts from the
    end) and the same on strings. *)
Definition slice0 {A : Type} (xs : list A) (k : Z) : list A :=
  if k <? 0 then firstn (Z.to_nat (Z.of_nat (length xs) + k)) xs
  else firstn (Z.to_nat k) xs.

Definition str_slice0 (s : string) (k : Z) : string :=
  if k <? 0 then String.substring 0 (Z.to_nat (Z.of_nat (String.length s) + k)) s
  else String.substring 0 (Z.to_nat k) s.

(** [xs.join(sep)]. *)
Definition join (sep : string) (xs : list string) : string := String.concat sep xs.

(** [Array.prototype.sort] with a comparator: a stable sort, so for a
    comparator that is a total preorder the result is the one of this
    insertion sort ([x] stays in front of [y] unless [cmp x y > 0]). *)
Section Sort.
Context {A : Type} (cmp : A -> A -> Z).

Fixpoint insert_sorted (x : A) (l : list A) : list A :=
  match l with
  | [] => [x]
  | y :: l' => if cmp x y <=? 0 then x :: y :: l' else y :: insert_sorted x l'
  end.

Definition sort (l : list A) : list A := fold_right insert_sorted [] l.
End Sort.

(** [x.toFixed(1)] of a non-negative quantity, computed on the exact
    quotient. *)
Definition toFixed1 (q : Q) : string :=
  let n := Qfloor (q * inject_Z 10 + (1 # 2))%Q in
  (Z_to_string (n / 10) ++ "." ++ Z_to_string (n mod 10))%string.

(** [a < b] on exact quotients. *)
Definition Qltb (a b : Q) : bool := negb (Qle_bool b a).

(** A [Map] iterated in insertion order: [set] on a present key keeps
    the key's position and replaces its value. *)
Fixpoint Map_set {V : Type} (k : string) (v : V) (m : list (string * V))
  : list (string * V) :=
  match m with
  | [] => [(k, v)]
  | (k', v') :: m' =>
      if String.eqb k' k then (k, v) :: m' else (k', v') :: Map_set k v m'
  end.

Fixpoint Map_get {V : Type} (k : string) (m : list (string * V)) : option V :=
  match m with
  | [] => None
  | (k', v') :: m' => if String.eqb k' k then Some v' else Map_get k m'
  end.

(** A count (below 2^63) as a double. *)
Definition to_float (z : Z) : float := PrimFloat.of_uint63 (Uint63.of_Z z).

End JS.

(** ** Data shared by the two platforms *)

Record Eligibility := mkEligibility {
  eligible : bool;
  reasons : list string
}.

(** The thresholds of [lib/config/bsky] and [lib/config/twitter]. *)
Record Config := mkConfig {
  MIN_FOLLOWERS : Z;
  MIN_ACCOUNT_MONTHS : Z;
  MAX_ACCOUNTS : Z
}.

(** An override rule as returned by [getOverrides]; [rule_handle] is the
    optional [handle] both services read as [o.handle]. *)
Module Override.
Inductive IdType := did | handle | user_id.
Inductive Scope := global | match_scope.

Record Rule := mkRule {
  identifier : string;
  identifier_type : IdType;
  rule_handle : option string;
  scope : Scope;
  match_id : option string;
  bypass_eligibility : bool;
  expires_at : option string
}.

End Override.

(** [monthsBetween]: the absolute difference of two instants in months
    of thirty days; [None] when one of the dates is invalid. *)
Definition monthsBetween (a b : option Z) : option Q :=
  match a, b with
  | Some ta, Some tb =>
      let diffMs := Z.abs (ta - tb) in
      Some (inject_Z diffMs / inject_Z (1000 * 60 * 60 * 24 * 30))%Q
  | _, _ => None
  end.

(** The body shared, up to the configuration constants and the wording of
    the unknown-age disclosure, by the two [computeEligibility]. *)
Section Eligibility.
Variable cfg : Config.
Variable Date_parse : string -> option Z.
Variable now : Z.
Variable unknownAge : string.

Definition computeEligibilityOf (followersCount : option Z) (createdAt : option string)
  : Eligibility :=
  let reasons : list string := [] in
  let ok := true in
  let followers := JS.nullish followersCount 0 in
  let '(ok, reasons) :=
    if followers <? MIN_FOLLOWERS cfg
    then (false,
          reasons ++ [("followers=" ++ JS.Z_to_string followers
                       ++ " < min=" ++ JS.Z_to_string (MIN_FOLLOWERS cfg))%string])
    else (ok,
          reasons ++ [("followers=" ++ JS.Z_to_string followers
                       ++ " ≥ min=" ++ JS.Z_to_string (MIN_FOLLOWERS cfg))%string]) in
  let '(ok, reasons) :=
    match createdAt with
    | Some (String c s) =>
        let months := monthsBetween (Date_parse (String c s)) (Some now) in
        let shown := match months with Some q => JS.toFixed1 q | None => "NaN"%string end in
        if match months with
           | Some q => JS.Qltb q (inject_Z (MIN_ACCOUNT_MONTHS cfg))
           | None => false
           end
        then (false,
              reasons ++ [("age=" ++ shown ++ "mo < min="
                           ++ JS.Z_to_string (MIN_ACCOUNT_MONTHS cfg) ++ "mo")%string])
        else (ok,
              reasons ++ [("age=" ++ shown ++ "mo ≥ min="
                           ++ JS.Z_to_string (MIN_ACCOUNT_MONTHS cfg) ++ "mo")%string])
    | _ => (ok, reasons ++ [unknownAge])
    end in
  {| eligible := ok; reasons := reasons |}.

(** The three conditions the specification names. *)
Definition followerCheckPassed (followersCount : option Z) : bool :=
  negb (JS.nullish followersCount 0 <? MIN_FOLLOWERS cfg).

Definition ageUnknown (createdAt : option string) : bool :=
  negb (JS.truthy_opt createdAt).

Definition ageCheckPassed (createdAt : option string) : bool :=
  match createdAt with
  | Some (String c s) =>
      match monthsBetween (Date_parse (String c s)) (Some now) with
      | Some q => Qle_bool (inject_Z (MIN_ACCOUNT_MONTHS cfg)) q
      | None => true
      end
  | _ => false
  end.
End Eligibility.

(** Step 5 of both selectors: merge with the includes in front, sort by
    descending follower count, cap to the platform maximum. *)
Section MergeAndCap.
Context {Acc : Type}.
Variable followersOf : Acc -> option Z.
Variable maxAccounts : Z.

Definition byFollowersDesc (a b : Acc) : Z :=
  JS.nullish (followersOf b) 0 - JS.nullish (followersOf a) 0.

Definition mergeAndCap (selectedInclude selectedBase : list Acc) : list Acc :=
  let merged := JS.sort byFollowersDesc (selectedInclude ++ selectedBase) in
  if Z.of_nat (length merged) >? maxAccounts then
    let includesCount := Z.of_nat (length selectedInclude) in
    let remaining := Z.max (maxAccounts - includesCount) 0 in
    selectedInclude ++ JS.slice0 selectedBase remaining
  else merged.
End MergeAndCap.

Definition adminBypass : Eligibility :=
  {| eligible := true; reasons := ["admin:include override (bypass=true)"%string] |}.

(** ** The Bluesky service *)

Module Bsky.

Record BskyProfileBasic := mkProfile {
  did : string;
  handle : string;
  displayName : option string;
  followersCount : option Z;
  postsCount : option Z;
  createdAt : option string
}.

Record SelectedAccount := mkSelected {
  profile : BskyProfileBasic;
  eligibility : Eligibility
}.

Definition unknownAge : string :=
  "age=unknown (AppView); allowed based on followers/activity".

(** [keyOf] of [selectEligibleAccounts]. *)
Definition keyOf (p : BskyProfileBasic) : string :=
  if JS.truthy (did p) then ("did:" ++ did p)%string else ("handle:" ++ handle p)%string.

(** The key of a rule, written three times in the source
    ([fallbackKey], and [key] in the exclude and include loops). *)
Definition ruleKey (o : Override.Rule) : string :=
  match Override.identifier_type o with
  | Override.did => ("did:" ++ Override.identifier o)%string
  | _ => ("handle:" ++ Override.identifier o)%string
  end.

(** The fallback profile of an include rule that did not resolve. *)
Definition minimalProfile (h : string) : BskyProfileBasic :=
  {| did := ""; handle := h; displayName := Some h;
     followersCount := Some 0; postsCount := Some 0; createdAt := None |}.

Definition fallbackHandle (o : Override.Rule) : string :=
  JS.nullish (Override.rule_handle o)
    (match Override.identifier_type o with
     | Override.handle => Override.identifier o
     | _ => ""%string
     end).

Definition resolvedByKey (includeProfiles : list BskyProfileBasic)
  : gmap string BskyProfileBasic :=
  fold_left (fun m p => <[keyOf p := p]> m) includeProfiles ∅.

Definition withFallbacks (inc : list Override.Rule) (m : gmap string BskyProfileBasic)
  : gmap string BskyProfileBasic :=
  fold_left
    (fun m o =>
       let fallbackKey := ruleKey o in
       match m !! fallbackKey with
       | Some _ => m
       | None =>
           let h := fallbackHandle o in
           if JS.truthy h then <[fallbackKey := minimalProfile h]> m else m
       end)
    inc m.

Definition buildExcludeKeys (exc : list Override.Rule) : gset string :=
  fold_left (fun s o => {[ ruleKey o ]} ∪ s) exc ∅.

Definition isExcluded (excludeKeys : gset string) (p : BskyProfileBasic) : bool :=
  let didKey := if JS.truthy (did p) then Some ("did:" ++ did p)%string else None in
  let handleKey := if JS.truthy (handle p) then Some ("handle:" ++ handle p)%string else None in
  match didKey with Some k => bool_decide (k ∈ excludeKeys) | None => false end
  || match handleKey with Some k => bool_decide (k ∈ excludeKeys) | None => false end.

Section Selector.
Variable cfg : Config.
Variable Date_parse : string -> option Z.
Variable now : Z.
(** [fetchProfilesByActors]: the profiles the AppView returns for the
    include identifiers (none when the lookup fails). *)
Variable fetchProfilesByActors : list string -> list BskyProfileBasic.

Definition computeEligibility (p : BskyProfileBasic) : Eligibility :=
  computeEligibilityOf cfg Date_parse now unknownAge (followersCount p) (createdAt p).

(** One turn of the loop that builds [selectedInclude]. *)
Definition includeStep (excludeKeys : gset string)
    (includeByKey : gmap string BskyProfileBasic)
    (selectedInclude : list SelectedAccount) (o : Override.Rule)
  : list SelectedAccount :=
  match includeByKey !! ruleKey o with
  | None => selectedInclude
  | Some p =>
      if isExcluded excludeKeys p then selectedInclude
      else
        let elig :=
          if Override.bypass_eligibility o then adminBypass else computeEligibility p in
        if negb (Override.bypass_eligibility o) && negb (eligible elig)
        then selectedInclude
        else selectedInclude ++ [{| profile := p; eligibility := elig |}]
  end.

(** One turn of the loop that builds [selectedBase]. *)
Definition baseStep (excludeKeys : gset string)
    (selectedInclude selectedBase : list SelectedAccount) (p : BskyProfileBasic)
  : list SelectedAccount :=
  if isExcluded excludeKeys p then selectedBase
  else
    match List.find (fun si => String.eqb (keyOf (profile si)) (keyOf p)) selectedInclude with
    | Some _ => selectedBase
    | None =>
        let elig := computeEligibility p in
        if negb (eligible elig) then selectedBase
        else selectedBase ++ [{| profile := p; eligibility := elig |}]
    end.

Definition includeByKeyOf (inc : list Override.Rule) : gmap string BskyProfileBasic :=
  let includeActors := List.filter JS.truthy (map Override.identifier inc) in
  let includeProfiles := fetchProfilesByActors includeActors in
  withFallbacks inc (resolvedByKey includeProfiles).

Definition selectedIncludeOf (inc exc : list Override.Rule) : list SelectedAccount :=
  fold_left (includeStep (buildExcludeKeys exc) (includeByKeyOf inc)) inc [].

Definition selectedBaseOf (baseProfiles : list BskyProfileBasic)
    (inc exc : list Override.Rule) : list SelectedAccount :=
  fold_left (baseStep (buildExcludeKeys exc) (selectedIncludeOf inc exc)) baseProfiles [].

(** [selectEligibleAccounts], given what [resolveAllowlistProfiles] and
    [getOverrides] returned. *)
Definition selectEligibleAccounts (baseProfiles : list BskyProfileBasic)
    (inc exc : list Override.Rule) : list SelectedAccount :=
  mergeAndCap (fun a => followersCount (profile a)) (MAX_ACCOUNTS cfg)
    (selectedIncludeOf inc exc) (selectedBaseOf baseProfiles inc exc).
End Selector.

(** *** Feeds and posts *)

Module Feed.
Record Author := mkAuthor {
  did : option string;
  handle : option string;
  displayName : option string
}.
(** [text] is [None] when the record has no string [text]. *)
Record Record_ := mkRecord {
  text : option string;
  createdAt : option string
}.
Record Post := mkPost {
  uri : option string;
  cid : option string;
  author : option Author;
  record : option Record_;
  indexedAt : option string
}.
Record Item := mkItem {
  post : option Post;
  item_record : option Record_
}.
End Feed.

Record PostAuthor := mkPostAuthor {
  author_did : string;
  author_handle : string;
  author_displayName : option string
}.

Record SimplePost := mkSimplePost {
  post_uri : option string;
  post_cid : option string;
  post_author : PostAuthor;
  text : string;
  post_createdAt : string
}.

Section Fetch.
Variable DEFAULT_RECENCY_MINUTES : Z.
Variable Date_parse : string -> option Z.
(** [Date.now()]. *)
Variable now : Z.
(** [agent.getAuthorFeed]: the feed of an actor, [None] when the call
    throws. *)
Variable getAuthorFeed : string -> option (list Feed.Item).

(** [sinceMinutes] is [None] when it is not a finite number. *)
Definition sinceOf (sinceMinutes : option Z) : Z :=
  let validatedMinutes :=
    match sinceMinutes with
    | Some minutes => if minutes >? 0 then minutes else DEFAULT_RECENCY_MINUTES
    | None => DEFAULT_RECENCY_MINUTES
    end in
  now - validatedMinutes * 60000.

(** The locals [record], [createdAt] and [text] of the loop over a
    feed, and [actor] of the loop over the accounts. *)
Definition recordOf (item : Feed.Item) : option Feed.Record_ :=
  match match Feed.post item with Some p => Feed.record p | None => None end with
  | Some r => Some r
  | None => Feed.item_record item
  end.

Definition createdAtOf (item : Feed.Item) : option string :=
  JS.or_else (match recordOf item with Some r => Feed.createdAt r | None => None end)
             (match Feed.post item with Some p => Feed.indexedAt p | None => None end).

Definition textOf (item : Feed.Item) : string :=
  match recordOf item with
  | Some r => JS.nullish (Feed.text r) ""%string
  | None => ""%string
  end.

Definition actorOf (acct : SelectedAccount) : string :=
  if JS.truthy (did (profile acct)) then did (profile acct) else handle (profile acct).

(** The body of the loop over a feed: [None] is [continue]. *)
Definition postOfItem (since : Z) (acct : SelectedAccount) (item : Feed.Item)
  : option SimplePost :=
  let post := Feed.post item in
  match createdAtOf item with
  | Some (String c s) =>
      let createdAt := String c s in
      let ts := Date_parse createdAt in
      if match ts with Some t => t <? since | None => false end then None
      else
        let text := textOf item in
        if negb (JS.truthy text) then None
        else
          let author := match post with Some p => Feed.author p | None => None end in
          Some {| post_uri := match post with Some p => Feed.uri p | None => None end;
                  post_cid := match post with Some p => Feed.cid p | None => None end;
                  post_author :=
                    {| author_did :=
                         JS.nullish (match author with Some a => Feed.did a | None => None end)
                                    (did (profile acct));
                       author_handle :=
                         JS.nullish (match author with Some a => Feed.handle a | None => None end)
                                    (handle (profile acct));
                       author_displayName :=
                         match match author with
                               | Some a => Feed.displayName a
                               | None => None
                               end with
                         | Some d => Some d
                         | None => displayName (profile acct)
                         end |};
                  text := text;
                  post_createdAt := createdAt |}
  | _ => None
  end.

(** The posts one account contributes: none when it has no actor or
    when the feed request throws. *)
Definition postsOfAccount (since : Z) (acct : SelectedAccount) : list SimplePost :=
  let actor := actorOf acct in
  if negb (JS.truthy actor) then []
  else
    match getAuthorFeed actor with
    | None => []
    | Some feed =>
        fold_left
          (fun out item =>
             match postOfItem since acct item with
             | Some p => out ++ [p]
             | None => out
             end)
          feed []
    end.

Definition fetchRecentPostsForAccounts (accounts : list SelectedAccount)
    (sinceMinutes : option Z) : list SimplePost :=
  let since := sinceOf sinceMinutes in
  fold_left (fun out acct => out ++ postsOfAccount since acct) accounts [].
End Fetch.

(** *** Analytics *)

Record SentimentRatios := mkRatios {
  ratio_pos : float;
  ratio_neg : float;
  ratio_neu : float
}.

Record SentimentCounts := mkCounts {
  count_total : Z;
  count_pos : Z;
  count_neg : Z;
  count_neu : Z
}.

Record Sentiment := mkSentiment {
  ratios : SentimentRatios;
  counts : SentimentCounts
}.

Section Sentiment.
(** [winkSentiment(text).score], [None] when it is not a number. *)
Variable winkSentiment : string -> option Z.

(** The three counters after the loop over the posts. *)
Definition tally (posts : list SimplePost) : Z * Z * Z :=
  fold_left
    (fun '(posCount, negCount, neuCount) p =>
       let score := JS.nullish (winkSentiment (text p)) 0 in
       if score >? 0 then (posCount + 1, negCount, neuCount)
       else if score <? 0 then (posCount, negCount + 1, neuCount)
       else (posCount, negCount, neuCount + 1))
    posts (0, 0, 0).

Definition summarizeSentiment (posts : list SimplePost) : Sentiment :=
  let '(posCount, negCount, neuCount) := tally posts in
  let total := Z.of_nat (length posts) in
  if total =? 0 then
    {| ratios := {| ratio_pos := 0; ratio_neg := 0; ratio_neu := 0 |};
       counts := {| count_total := 0; count_pos := 0; count_neg := 0; count_neu := 0 |} |}
  else
    let pos := (JS.to_float posCount / JS.to_float total)%float in
    let neg := (JS.to_float negCount / JS.to_float total)%float in
    let neu := (JS.to_float neuCount / JS.to_float total)%float in
    {| ratios := {| ratio_pos := pos; ratio_neg := neg; ratio_neu := neu |};
       counts := {| count_total := Z.of_nat (length posts); count_pos := posCount;
                    count_neg := negCount; count_neu := neuCount |} |}.
End Sentiment.

Record Topic := mkTopic {
  keyword : string;
  count : Z
}.

Definition origByLowerOf (keywords : list string) : list (string * string) :=
  fold_left (fun m k => JS.Map_set (JS.toLowerCase k) k m) keywords [].

(** The inner loop of [extractTopics], over the configured keywords. *)
Definition countPost (origByLower : list (string * string))
    (counts : list (string * Z)) (p : SimplePost) : list (string * Z) :=
  let lower := JS.toLowerCase (text p) in
  fold_left
    (fun counts '(kwLower, original) =>
       if JS.includes lower kwLower
       then JS.Map_set original (JS.nullish (JS.Map_get original counts) 0 + 1) counts
       else counts)
    origByLower counts.

Definition countsOf (posts : list SimplePost) (keywords : list string)
  : list (string * Z) :=
  fold_left (countPost (origByLowerOf keywords)) posts [].

Definition extractTopics (posts : list SimplePost) (keywords : list string) : list Topic :=
  let arr := map (fun '(keyword, count) => {| keyword := keyword; count := count |})
                 (countsOf posts keywords) in
  let arr := JS.sort (fun a b => count b - count a) arr in
  JS.slice0 arr 10.

End Bsky.

(** ** The Twitter service *)

Module Twitter.

Record TwitterProfileBasic := mkProfile {
  user_id : option string;
  handle : string;
  displayName : option string;
  followersCount : option Z;
  postsCount : option Z;
  createdAt : option string
}.

Record SelectedAccount := mkSelected {
  profile : TwitterProfileBasic;
  eligibility : Eligibility
}.

Definition unknownAge : string :=
  "age=unknown; allowed based on followers/activity".

Definition resolveAllowlistProfiles (handles : list string) : list TwitterProfileBasic :=
  map (fun h => {| user_id := None; handle := h; displayName := Some h;
                   followersCount := None; postsCount := None; createdAt := None |})
      handles.

Definition keyOf (p : TwitterProfileBasic) : string :=
  match user_id p with
  | Some (String c s) => ("id:" ++ String c s)%string
  | _ => ("handle:" ++ handle p)%string
  end.

Definition ruleKey (o : Override.Rule) : string :=
  match Override.identifier_type o with
  | Override.user_id => ("id:" ++ Override.identifier o)%string
  | _ => ("handle:" ++ Override.identifier o)%string
  end.

(** The minimal profile an include rule resolves to. *)
Definition ruleProfile (o : Override.Rule) : TwitterProfileBasic :=
  match Override.identifier_type o with
  | Override.user_id =>
      let h := if JS.truthy_opt (Override.rule_handle o)
               then JS.nullish (Override.rule_handle o) (Override.identifier o)
               else Override.identifier o in
      {| user_id := Some (Override.identifier o); handle := h; displayName := Some h;
         followersCount := None; postsCount := None; createdAt := None |}
  | _ =>
      {| user_id := None; handle := Override.identifier o;
         displayName := Some (Override.identifier o);
         followersCount := None; postsCount := None; createdAt := None |}
  end.

Definition buildExcludeKeys (exc : list Override.Rule) : gset string :=
  fold_left (fun s o => {[ ruleKey o ]} ∪ s) exc ∅.

Definition isExcluded (excludeKeys : gset string) (p : TwitterProfileBasic) : bool :=
  let idKey := match user_id p with
               | Some (String c s) => Some ("id:" ++ String c s)%string
               | _ => None
               end in
  let hKey := if JS.truthy (handle p) then Some ("handle:" ++ handle p)%string else None in
  match idKey with Some k => bool_decide (k ∈ excludeKeys) | None => false end
  || match hKey with Some k => bool_decide (k ∈ excludeKeys) | None => false end.

Definition includeByKeyOf (inc : list Override.Rule) : gmap string TwitterProfileBasic :=
  fold_left (fun m o => <[ruleKey o := ruleProfile o]> m) inc ∅.

Section Selector.
Variable cfg : Config.
Variable Date_parse : string -> option Z.
Variable now : Z.

Definition computeEligibility (p : TwitterProfileBasic) : Eligibility :=
  computeEligibilityOf cfg Date_parse now unknownAge (followersCount p) (createdAt p).

Definition includeStep (excludeKeys : gset string)
    (includeByKey : gmap string TwitterProfileBasic)
    (selectedInclude : list SelectedAccount) (o : Override.Rule)
  : list SelectedAccount :=
  match includeByKey !! ruleKey o with
  | None => selectedInclude
  | Some p =>
      if isExcluded excludeKeys p then selectedInclude
      else
        let elig :=
          if Override.bypass_eligibility o then adminBypass else computeEligibility p in
        if negb (Override.bypass_eligibility o) && negb (eligible elig)
        then selectedInclude
        else selectedInclude ++ [{| profile := p; eligibility := elig |}]
  end.

Definition baseStep (excludeKeys : gset string)
    (selectedInclude selectedBase : list SelectedAccount) (p : TwitterProfileBasic)
  : list SelectedAccount :=
  if isExcluded excludeKeys p then selectedBase
  else
    match List.find (fun si => String.eqb (keyOf (profile si)) (keyOf p)) selectedInclude with
    | Some _ => selectedBase
    | None =>
        let elig := computeEligibility p in
        if negb (eligible elig) then selectedBase
        else selectedBase ++ [{| profile := p; eligibility := elig |}]
    end.

Definition selectedIncludeOf (inc exc : list Override.Rule) : list SelectedAccount :=
  fold_left (includeStep (buildExcludeKeys exc) (includeByKeyOf inc)) inc [].

Definition selectedBaseOf (baseProfiles : list TwitterProfileBasic)
    (inc exc : list Override.Rule) : list SelectedAccount :=
  fold_left (baseStep (buildExcludeKeys exc) (selectedIncludeOf inc exc)) baseProfiles [].

Definition selectEligibleAccounts (baseProfiles : list TwitterProfileBasic)
    (inc exc : list Override.Rule) : list SelectedAccount :=
  mergeAndCap (fun a => followersCount (profile a)) (MAX_ACCOUNTS cfg)
    (selectedIncludeOf inc exc) (selectedBaseOf baseProfiles inc exc).
End Selector.

End Twitter.

(** ** The SSE tick generator ([GET] of the stream route)

    The handler is an event-driven program: the body of [loop] runs
    between its [await]s, and the host fires the heartbeat interval, the
    connection-cap timeout, the sleep timer and the consumer's [cancel].
    The state holds the handler's locals, the host's view of the three
    timers, the stream controller and the frames enqueued so far. *)

Module Stream.

(** The window of a tick, and the result of [getWindowState]. *)
Inductive Phase := pre | live | post.
Inductive WindowState := phase (w : Phase) | ended.

Inductive Frame :=
| Meta
| Tick (id : Z) (payloadTick : Z) (window : Phase)
| Error
| Ended
| KeepAlive.

(** Where [loop] is suspended. *)
Inductive LoopPc :=
| AwaitBuild (state : WindowState) (tickArg : Z)
| Sleeping
| Exited.

Record St := mkSt {
  tick : Z;               (* a double in the source: it counts exactly while
                             it is an integer of magnitude below 2^53 *)
  stopped : bool;
  closer : bool;          (* the variable [closer] holds a handle *)
  pinger : bool;          (* the variable [pinger] holds a handle *)
  closerArmed : bool;     (* the cap timeout is pending in the host *)
  pingerArmed : bool;     (* the heartbeat interval is pending in the host *)
  sleepArmed : bool;      (* the loop's sleep timer is pending in the host *)
  closed : bool;          (* the stream is closed or cancelled *)
  loop : LoopPc;
  out : list Frame
}.

Inductive Event :=
| BuildResolved                                  (* [buildTick] fulfils *)
| BuildRejected                                  (* [buildTick] throws *)
| IntervalElapsed (read : option WindowState)    (* the sleep ends; the next
                                                    [getWindowState] gives [read],
                                                    [None] when it throws *)
| Heartbeat
| CapElapsed
| Cancel.

(** [startTick], from the query parameter and the header. *)
Definition startTickOf (lastEventIdParam lastEventIdHeader : option string) : Z :=
  let lastEventIdHeader := JS.or_else lastEventIdHeader None in
  let parsedLast :=
    JS.Number_opt (match lastEventIdParam with
                   | Some x => Some x
                   | None => lastEventIdHeader
                   end) in
  match parsedLast with
  | Some n => if n >=? 0 then n + 1 else 0
  | None => 0
  end.

Definition set_loop (pc : LoopPc) (s : St) : St :=
  mkSt (tick s) (stopped s) (closer s) (pinger s) (closerArmed s) (pingerArmed s)
       (sleepArmed s) (closed s) pc (out s).

(** [controller.enqueue]: [None] when it throws on a closed stream. *)
Definition enqueue (f : Frame) (s : St) : option St :=
  if closed s then None
  else Some (mkSt (tick s) (stopped s) (closer s) (pinger s) (closerArmed s)
                  (pingerArmed s) (sleepArmed s) (closed s) (loop s) (out s ++ [f])).

(** [if (pinger) { clearInterval(pinger); pinger = null }]. *)
Definition clearPinger (s : St) : St :=
  if pinger s
  then mkSt (tick s) (stopped s) (closer s) false (closerArmed s) false
            (sleepArmed s) (closed s) (loop s) (out s)
  else s.

(** [if (closer) { clearTimeout(closer); closer = null }]. *)
Definition clearCloser (s : St) : St :=
  if closer s
  then mkSt (tick s) (stopped s) false (pinger s) false (pingerArmed s)
            (sleepArmed s) (closed s) (loop s) (out s)
  else s.

(** [try { controller.close() } catch {}]. *)
Definition close (s : St) : St :=
  mkSt (tick s) (stopped s) (closer s) (pinger s) (closerArmed s) (pingerArmed s)
       (sleepArmed s) true (loop s) (out s).

Definition set_stopped (s : St) : St :=
  mkSt (tick s) true (closer s) (pinger s) (closerArmed s) (pingerArmed s)
       (sleepArmed s) (closed s) (loop s) (out s).

(** The code after the [while]: clear the heartbeat, close. *)
Definition exitLoop (s : St) : St :=
  set_loop Exited (close (clearPinger s)).

(** [await new Promise((r) => setTimeout(r, intervalSec * 1000))]. *)
Definition sleep (s : St) : St :=
  mkSt (tick s) (stopped s) (closer s) (pinger s) (closerArmed s) (pingerArmed s)
       true (closed s) Sleeping (out s).

(** The [catch] of a tick: an error frame, then the sleep; when the
    enqueue itself throws, [loop()] rejects and its [.catch] closes. *)
Definition catchTick (s : St) : St :=
  match enqueue Error s with
  | Some s' => sleep s'
  | None => set_loop Exited (close s)
  end.

Section Handler.
(** [forceWindow], from [?window=]. *)
Variable forceWindow : option Phase.

(** From the [while] test to the call of [buildTick(…, tick++, …)]. *)
Definition beginIteration (read : option WindowState) (s : St) : St :=
  if stopped s then exitLoop s
  else
    match (match forceWindow with Some w => Some (phase w) | None => read end) with
    | None => catchTick s
    | Some state =>
        mkSt (tick s + 1) (stopped s) (closer s) (pinger s) (closerArmed s)
             (pingerArmed s) (sleepArmed s) (closed s)
             (AwaitBuild state (tick s)) (out s)
    end.

(** From the fulfilment of [buildTick] to the next suspension. *)
Definition afterBuild (state : WindowState) (tickArg : Z) (s : St) : St :=
  let dynamic := match state with ended => post | phase w => w end in
  match enqueue (Tick (tick s) tickArg dynamic) s with
  | None => catchTick s
  | Some s1 =>
      match forceWindow, state with
      | None, ended =>
          match enqueue Ended s1 with
          | None => catchTick s1
          | Some s2 => exitLoop s2
          end
      | _, _ => sleep s1
      end
  end.

Definition step (s : St) (e : Event) : St :=
  match e with
  | BuildResolved =>
      match loop s with
      | AwaitBuild state tickArg => afterBuild state tickArg s
      | _ => s
      end
  | BuildRejected =>
      match loop s with
      | AwaitBuild _ _ => catchTick s
      | _ => s
      end
  | IntervalElapsed read =>
      match loop s with
      | Sleeping =>
          beginIteration read
            (mkSt (tick s) (stopped s) (closer s) (pinger s) (closerArmed s)
                  (pingerArmed s) false (closed s) (loop s) (out s))
      | _ => s
      end
  | Heartbeat =>
      if pingerArmed s
      then match enqueue KeepAlive s with Some s' => s' | None => s end
      else s
  | CapElapsed =>
      if closerArmed s
      then close (clearPinger (set_stopped
             (mkSt (tick s) (stopped s) (closer s) (pinger s) false (pingerArmed s)
                   (sleepArmed s) (closed s) (loop s) (out s))))
      else s
  | Cancel =>
      if closed s then s
      else close (clearPinger (clearCloser (set_stopped s)))
  end.

(** [start(controller)]: the meta frame, the heartbeat, the first turn
    of [loop] up to its first [await], then the connection cap. *)
Definition start (lastEventIdParam lastEventIdHeader : option string)
    (read : option WindowState) : St :=
  let s := mkSt (startTickOf lastEventIdParam lastEventIdHeader)
                false false false false false false false Exited [Meta] in
  let s := mkSt (tick s) (stopped s) (closer s) true (closerArmed s) true
                (sleepArmed s) (closed s) (loop s) (out s) in
  let s := beginIteration read s in
  mkSt (tick s) (stopped s) true (pinger s) true (pingerArmed s)
       (sleepArmed s) (closed s) (loop s) (out s).

(** [start(controller)] for a given value of [startTick]: [start] is
    [startAt] at [startTickOf]. *)
Definition startAt (startTick : Z) (read : option WindowState) : St :=
  let s := mkSt startTick false false false false false false false Exited [Meta] in
  let s := mkSt (tick s) (stopped s) (closer s) true (closerArmed s) true
                (sleepArmed s) (closed s) (loop s) (out s) in
  let s := beginIteration read s in
  mkSt (tick s) (stopped s) true (pinger s) true (pingerArmed s)
       (sleepArmed s) (closed s) (loop s) (out s).

Definition run (s : St) (events : list Event) : St := fold_left step events s.
End Handler.

(** The ids of the tick frames of an output, in order. *)
Definition tickIds (frames : list Frame) : list Z :=
  flat_map (fun f => match f with Tick id _ _ => [id] | _ => [] end) frames.

End Stream.

(** ** The summaries route ([GET] of [summaries/latest]) *)

Module Summaries.

Definition MAX_POSTS : Z := 150.
Definition MAX_CHARS : Z := 12000.
Definition newline : string := String (ascii_of_nat 10) EmptyString.

Section Route.
(** [process.env]. *)
Variable process_env : gmap string string.

Definition RATE_WINDOW_MS : option Z :=
  match process_env !! "SUMMARIES_RATE_WINDOW_MS"%string with
  | Some v => JS.Number v
  | None => Some 60000
  end.

Definition RATE_MAX : option Z :=
  match process_env !! "SUMMARIES_RATE_MAX"%string with
  | Some v => JS.Number v
  | None => Some 4
  end.

Definition MAX_POSTS_ENV : option Z :=
  match process_env !! "SUMMARIES_MAX_POSTS"%string with
  | Some v => JS.Number v
  | None => Some MAX_POSTS
  end.

Definition MAX_CHARS_ENV : option Z :=
  match process_env !! "SUMMARIES_MAX_CHARS"%string with
  | Some v => JS.Number v
  | None => Some MAX_CHARS
  end.

(** [lines] are the formatted posts, most recent first; [texts] keeps
    the first [MAX_POSTS_ENV] of them. This is the branch of the
    platforms [bsky] and [combined]; [SummariesRoute.textsFor] has both
    branches. *)
Definition textsOf (lines : list string) : list string :=
  match MAX_POSTS_ENV with
  | Some k => JS.slice0 lines k
  | None => []
  end.

(** The text that reaches the prompt: the join, cut at
    [MAX_CHARS_ENV] when longer. *)
Definition joinedOf (lines : list string) : string :=
  let joined := JS.join newline (textsOf lines) in
  match MAX_CHARS_ENV with
  | Some m =>
      if Z.of_nat (String.length joined) >? m then JS.str_slice0 joined m else joined
  | None => joined
  end.

(** [chars_count] of the audit row. *)
Definition chars_count (lines : list string) : Z :=
  let joined := JS.join newline (textsOf lines) in
  Z.of_nat (String.length
              (match MAX_CHARS_ENV with
               | Some m => JS.str_slice0 joined m
               | None => EmptyString
               end)).

(** The in-memory rate limiter: the timestamps still in the window,
    and whether the request is refused. *)
Definition recentRequests (timestamps : list Z) (now : Z) : list Z :=
  List.filter (fun ts => match RATE_WINDOW_MS with
                         | Some w => now - ts <? w
                         | None => false
                         end) timestamps.

Definition rateLimited (timestamps : list Z) (now : Z) : bool :=
  match RATE_MAX with
  | Some m => Z.of_nat (length (recentRequests timestamps now)) >=? m
  | None => false
  end.

(** The post text forwarded to the summarizer, [None] when the
    request is answered 429. *)
Definition forwarded (timestamps : list Z) (now : Z) (lines : list string)
  : option string :=
  if rateLimited timestamps now then None else Some (joinedOf lines).
End Route.

(** The budget the specification describes. *)
Definition availableChars (modelMaxTokens reservedResponseTokens charsPerToken : Z) : Z :=
  (modelMaxTokens - reservedResponseTokens) * charsPerToken.

End Summaries.

(** ** Samples and ticks of the Bluesky service *)

Module BskyTick.

Record Sample := mkSample {
  authorHandle : string;
  sample_text : string;
  sample_createdAt : string
}.

Record AccountRef := mkAccountRef {
  ref_did : string;
  ref_handle : string;
  ref_displayName : option string
}.

Record TickSummary := mkTickSummary {
  matchId : string;
  window : Stream.Phase;
  generatedAt : string;
  tick : Z;
  sentiment : Bsky.Sentiment;
  volume : Z;
  accountsUsed : list AccountRef;
  topics : list Bsky.Topic;
  samples : list Sample
}.

Section Samples.
Variable Date_parse : string -> option Z.

(** The comparator [(a, b) => Date.parse(b.createdAt) -
    Date.parse(a.createdAt)]. A [NaN] difference is read by the sort as
    [0]; the order the engine gives to posts whose dates do not parse is
    its own, so only what does not depend on it is stated for them. *)
Definition byCreatedAtDesc (a b : Bsky.SimplePost) : Z :=
  match Date_parse (Bsky.post_createdAt b), Date_parse (Bsky.post_createdAt a) with
  | Some tb, Some ta => tb - ta
  | _, _ => 0
  end.

Definition sampleOf (p : Bsky.SimplePost) : Sample :=
  {| authorHandle := Bsky.author_handle (Bsky.post_author p);
     sample_text := Bsky.text p;
     sample_createdAt := Bsky.post_createdAt p |}.

Definition sampleQuotes (posts : list Bsky.SimplePost) (n : Z) : list Sample :=
  let sorted := JS.sort byCreatedAtDesc posts in
  map sampleOf (JS.slice0 sorted n).
End Samples.

(** [Math.max(sinceMinutes, 60)], [None] being [NaN]. *)
Definition broadened (sinceMinutes : option Z) : option Z :=
  match sinceMinutes with
  | Some m => Some (Z.max m 60)
  | None => None
  end.

(** The synthetic post of the test environment. *)
Definition syntheticPost (first : Bsky.SelectedAccount) (isoNow : string) : Bsky.SimplePost :=
  {| Bsky.post_uri := Some "at://test/synthetic"%string;
     Bsky.post_cid := Some "cid-synthetic"%string;
     Bsky.post_author :=
       {| Bsky.author_did := Bsky.did (Bsky.profile first);
          Bsky.author_handle := Bsky.handle (Bsky.profile first);
          Bsky.author_displayName := Bsky.displayName (Bsky.profile first) |};
     Bsky.text := "Arsenal synthetic test post COYG!";
     Bsky.post_createdAt := isoNow |}.

Section BuildTick.
(** What [selectEligibleAccounts()] sees. *)
Variable cfg : Config.
Variable Date_parse : string -> option Z.
Variable nowSelect : Z.
Variable fetchProfilesByActors : list string -> list Bsky.BskyProfileBasic.
Variable baseProfiles : list Bsky.BskyProfileBasic.
Variable inc exc : list Override.Rule.
(** The clock and the feeds at the first and at the second fetch. *)
Variable DEFAULT_RECENCY_MINUTES : Z.
Variable now1 now2 : Z.
Variable getAuthorFeed1 getAuthorFeed2 : string -> option (list Bsky.Feed.Item).
(** The analytics. *)
Variable winkSentiment : string -> option Z.
Variable BSKY_KEYWORDS : list string.
(** [process.env.NODE_ENV === 'test'], and [new Date().toISOString()] for
    the synthetic post and for [generatedAt]. *)
Variable NODE_ENV_test : bool.
Variable isoSynthetic isoGenerated : string.

Definition accountsOfTick : list Bsky.SelectedAccount :=
  Bsky.selectEligibleAccounts cfg Date_parse nowSelect fetchProfilesByActors
    baseProfiles inc exc.

(** The posts a tick analyses: the first fetch, else the broadened one,
    else, under test, one synthetic post. *)
Definition postsOfTick (sinceMinutes : option Z) : list Bsky.SimplePost :=
  let accounts := accountsOfTick in
  let posts := Bsky.fetchRecentPostsForAccounts DEFAULT_RECENCY_MINUTES Date_parse now1
                 getAuthorFeed1 accounts sinceMinutes in
  let posts :=
    if (Z.of_nat (length posts) =? 0) && (Z.of_nat (length accounts) >? 0)
    then Bsky.fetchRecentPostsForAccounts DEFAULT_RECENCY_MINUTES Date_parse now2
           getAuthorFeed2 accounts (broadened sinceMinutes)
    else posts in
  if (Z.of_nat (length posts) =? 0) && (Z.of_nat (length accounts) >? 0) && NODE_ENV_test
  then match accounts with
       | first :: _ => [syntheticPost first isoSynthetic]
       | [] => posts
       end
  else posts.

Definition buildTick (matchId : string) (window : Stream.Phase) (tick : Z)
    (sinceMinutes : option Z) : TickSummary :=
  let accounts := accountsOfTick in
  let posts := postsOfTick sinceMinutes in
  let sentiment := Bsky.summarizeSentiment winkSentiment posts in
  let topics := Bsky.extractTopics posts BSKY_KEYWORDS in
  let samples := sampleQuotes Date_parse posts 5 in
  {| matchId := matchId;
     window := window;
     generatedAt := isoGenerated;
     tick := tick;
     sentiment := sentiment;
     volume := Z.of_nat (length posts);
     accountsUsed :=
       map (fun a => {| ref_did := Bsky.did (Bsky.profile a);
                        ref_handle := Bsky.handle (Bsky.profile a);
                        ref_displayName := Bsky.displayName (Bsky.profile a) |})
           accounts;
     topics := topics;
     samples := samples |}.
End BuildTick.

End BskyTick.

(** ** Numbers that need not be integers

    The limits of the summaries route are whatever [Number(...)] makes
    of an environment variable: a fraction, an infinity or [NaN] as well
    as an integer. *)

Module JSNum.

(** A JavaScript number: [NaN], a finite number given as an exact
    quotient (every finite double is one; [-0] is [0]) or an infinity. *)
Inductive t := NaN | Fin (q : Q) | PosInf | NegInf.

Definition of_Z (z : Z) : t := Fin (inject_Z z).

(** [n >= x], [n > x] and [n < x] for an integer [n]. *)
Definition ge (n : Z) (x : t) : bool :=
  match x with
  | NaN => false
  | Fin q => Qle_bool q (inject_Z n)
  | PosInf => false
  | NegInf => true
  end.

Definition gt (n : Z) (x : t) : bool :=
  match x with
  | NaN => false
  | Fin q => JS.Qltb q (inject_Z n)
  | PosInf => false
  | NegInf => true
  end.

Definition lt (n : Z) (x : t) : bool :=
  match x with
  | NaN => false
  | Fin q => JS.Qltb (inject_Z n) q
  | PosInf => true
  | NegInf => false
  end.

(** Truncation toward zero, the finite case of [ToIntegerOrInfinity]. *)
Definition trunc (q : Q) : Z := Z.quot (Qnum q) (Zpos (Qden q)).

(** How many of [len] elements [slice(0, x)] keeps: [NaN] is [0], a
    negative end counts from the end. *)
Definition sliceEnd (len : nat) (x : t) : nat :=
  match x with
  | NaN => 0%nat
  | Fin q =>
      let k := trunc q in
      if k <? 0 then Z.to_nat (Z.max (Z.of_nat len + k) 0)
      else Nat.min (Z.to_nat k) len
  | PosInf => len
  | NegInf => 0%nat
  end.

Definition slice0 {A : Type} (xs : list A) (x : t) : list A :=
  firstn (sliceEnd (length xs) x) xs.

Definition str_slice0 (s : string) (x : t) : string :=
  String.substring 0 (sliceEnd (String.length s) x) s.

End JSNum.

(** ** The window and the rate limiter of the summaries route *)

Module SummariesRoute.

Inductive Platform := bsky | twitter | threads | combined.

(** [normalizePlatform]. *)
Definition normalizePlatform (p : option string) : Platform :=
  let k := JS.toLowerCase (JS.nullish p "combined"%string) in
  if String.eqb k "bsky" then bsky
  else if String.eqb k "twitter" then twitter
  else if String.eqb k "threads" then threads
  else combined.

Definition placeholder : string :=
  "Platform ingestion not yet implemented for this platform in the summary API.".

Section Prompt.
(** The module constants [MAX_POSTS_ENV] and [MAX_CHARS_ENV], whatever
    number each of them is. *)
Variable MAX_POSTS_ENV MAX_CHARS_ENV : JSNum.t.

(** [texts]: for [bsky] and [combined] the first [MAX_POSTS_ENV] of the
    formatted posts [lines] (most recent first), for the other platforms
    the placeholder line. *)
Definition textsFor (platform : Platform) (lines : list string) : list string :=
  match platform with
  | bsky | combined => JSNum.slice0 lines MAX_POSTS_ENV
  | twitter | threads => [placeholder]
  end.

(** [joined] as it enters the prompt. *)
Definition joinedFor (platform : Platform) (lines : list string) : string :=
  let joined := JS.join Summaries.newline (textsFor platform lines) in
  if JSNum.gt (Z.of_nat (String.length joined)) MAX_CHARS_ENV
  then JSNum.str_slice0 joined MAX_CHARS_ENV
  else joined.

(** [chars_count] of the audit row. *)
Definition chars_countFor (platform : Platform) (lines : list string) : Z :=
  Z.of_nat (String.length
              (JSNum.str_slice0 (JS.join Summaries.newline (textsFor platform lines))
                                MAX_CHARS_ENV)).
End Prompt.

Section Limiter.
(** The module constants [RATE_WINDOW_MS] and [RATE_MAX], whatever
    number each of them is. *)
Variable RATE_WINDOW_MS RATE_MAX : JSNum.t.

Definition recentOf (timestamps : list Z) (now : Z) : list Z :=
  List.filter (fun ts => JSNum.lt (now - ts) RATE_WINDOW_MS) timestamps.

Definition limitedOf (timestamps : list Z) (now : Z) : bool :=
  JSNum.ge (Z.of_nat (length (recentOf timestamps now))) RATE_MAX.

(** One request at [now] against the stored timestamps: the timestamps
    stored afterwards, and whether the request went through. *)
Definition limiterStepOf (timestamps : list Z) (now : Z) : list Z * bool :=
  let kept := recentOf timestamps now in
  if limitedOf timestamps now then (kept, false) else (kept ++ [now], true).

(** The stored timestamps after a sequence of requests, from an empty
    store. *)
Definition servedOf (requests : list Z) : list Z :=
  fold_left (fun timestamps now => fst (limiterStepOf timestamps now)) requests [].
End Limiter.

(** [Math.max], [Math.min] and [Math.ceil(x / d)] on numbers where [None]
    is [NaN]. *)
Definition Math_max (a b : option Z) : option Z :=
  match a, b with Some x, Some y => Some (Z.max x y) | _, _ => None end.

Definition Math_min (a b : option Z) : option Z :=
  match a, b with Some x, Some y => Some (Z.min x y) | _, _ => None end.

Definition ceil_div (x : option Z) (d : Z) : option Z :=
  match x with Some v => Some (- ((- v) / d)) | None => None end.

Definition minus (a b : option Z) : option Z :=
  match a, b with Some x, Some y => Some (x - y) | _, _ => None end.

(** [normalizePhase]. *)
Definition normalizePhase (mode : option string) : option Stream.Phase :=
  let k := JS.toLowerCase (JS.nullish mode ""%string) in
  if String.eqb k "pre" then Some Stream.pre
  else if String.eqb k "live" then Some Stream.live
  else if String.eqb k "post" then Some Stream.post
  else None.

(** The phase of the request: the explicit mode, else the window state
    when a kickoff is given, else [live]. [state] is what
    [getWindowState] returns. *)
Definition phaseOf (mode : option Stream.Phase) (kickoffISO : string)
    (state : Stream.WindowState) : Stream.Phase :=
  match mode with
  | Some m => m
  | None =>
      if JS.truthy kickoffISO then
        match state with
        | Stream.phase Stream.pre => Stream.pre
        | Stream.phase Stream.post => Stream.post
        | Stream.ended => Stream.post
        | Stream.phase Stream.live => Stream.live
        end
      else Stream.live
  end.

Section Window.
Variable Date_parse : string -> option Z.
(** [getLiveBin(kickoffISO, nowMs).binStartMs], [preWindowStartMs] and
    [postWindowStartMs] of [lib/utils/matchWindow]. *)
Variable liveBinStartMs : string -> Z -> option Z.
Variable preWindowStartMs : string -> option Z.
Variable postWindowStartMs : string -> option string -> option Z.

(** [sinceMin], the window in minutes handed to the fetch. *)
Definition sinceMinOf (phase : Stream.Phase) (kickoffISO finalWhistleISO : string)
    (nowMs : Z) : option Z :=
  if JS.truthy kickoffISO then
    match phase with
    | Stream.live =>
        let sinceMs := Math_max (Some 0) (minus (Some nowMs) (liveBinStartMs kickoffISO nowMs)) in
        Math_max (Some 1) (Math_min (Some 15) (ceil_div sinceMs 60000))
    | Stream.pre =>
        let preStart := preWindowStartMs kickoffISO in
        let kickoffOrNow := match Date_parse kickoffISO with
                            | Some t => if t =? 0 then nowMs else t
                            | None => nowMs
                            end in
        let endMs := Math_min (Some nowMs) (Some kickoffOrNow) in
        let sinceMs := Math_max (Some 0) (minus endMs preStart) in
        Math_max (Some 1) (Math_min (Some 120) (ceil_div sinceMs 60000))
    | Stream.post =>
        let postStart :=
          postWindowStartMs kickoffISO
            (if JS.truthy finalWhistleISO then Some finalWhistleISO else None) in
        let sinceMs := Math_max (Some 0) (minus (Some nowMs) postStart) in
        Math_max (Some 1) (Math_min (Some 120) (ceil_div sinceMs 60000))
    end
  else Some 15.
End Window.

Section RateLimiter.
Variable process_env : gmap string string.

(** The same step when both limits are read from [process.env] and are
    integers written in decimal digits. *)
Definition limiterStep (timestamps : list Z) (now : Z) : list Z * bool :=
  let kept := Summaries.recentRequests process_env timestamps now in
  if Summaries.rateLimited process_env timestamps now
  then (kept, false)
  else (kept ++ [now], true).

(** [retryAfterMs] of a refused request; [None] is [NaN]. *)
Definition retryAfterMs (timestamps : list Z) (now : Z) : option Z :=
  match Summaries.RATE_WINDOW_MS process_env,
        Summaries.recentRequests process_env timestamps now with
  | Some w, t0 :: _ => Some (w - (now - t0))
  | _, _ => None
  end.
End RateLimiter.

End SummariesRoute.

(** ** The accounts plan route *)

Module Plan.

(** An entry of [getAccountsSnapshot] (Bluesky). *)
Record BskySnapshot := mkBskySnapshot {
  did : string;
  handle : string;
  displayName : option string;
  followersCount : option Z;
  postsCount : option Z;
  createdAt : option string;
  eligibility : Eligibility
}.

Definition getAccountsSnapshot (accounts : list Bsky.SelectedAccount) : list BskySnapshot :=
  map (fun a => {| did := Bsky.did (Bsky.profile a);
                   handle := Bsky.handle (Bsky.profile a);
                   displayName := Bsky.displayName (Bsky.profile a);
                   followersCount := Bsky.followersCount (Bsky.profile a);
                   postsCount := Bsky.postsCount (Bsky.profile a);
                   createdAt := Bsky.createdAt (Bsky.profile a);
                   eligibility := Bsky.eligibility a |})
      accounts.

(** [bskyPlan.selected]: the snapshot, or nothing when it throws
    ([None]), cut at [Math.max(0, BSKY_MAX_ACCOUNTS)]. *)
Definition bskySelected (BSKY_MAX_ACCOUNTS : Z) (accounts : option (list Bsky.SelectedAccount))
  : list BskySnapshot :=
  let maxAllowed := Z.max 0 BSKY_MAX_ACCOUNTS in
  let snapshot := match accounts with
                  | Some l => getAccountsSnapshot l
                  | None => []
                  end in
  JS.slice0 snapshot maxAllowed.

End Plan.

(** ** The in-memory store of the comments route *)

Module Comments.

Definition MAX_COMMENTS_PER_MATCH : Z := 1000.
Definition COMMENTS_TTL_MS : Z := 7 * 24 * 60 * 60 * 1000.

(** [xs.slice(k)] for an integral [k] (a negative [k] counts from the
    end). *)
Definition slice_from {A : Type} (xs : list A) (k : Z) : list A :=
  if k <? 0 then skipn (Z.to_nat (Z.max (Z.of_nat (length xs) + k) 0)) xs
  else skipn (Z.to_nat k) xs.

Section Store.
Variable Comment : Type.

Record Store := mkStore {
  COMMENTS_MEM : gmap string (list Comment);
  COMMENTS_TTL : gmap string Z
}.

(** Whether [cleanupExpiredComments] deletes a match at [now]. *)
Definition expired (now : Z) (ttl : gmap string Z) (matchId : string) : bool :=
  match ttl !! matchId with
  | Some expiry => now >? expiry
  | None => false
  end.

(** [cleanupExpiredComments]: every match whose expiry is before [now]
    loses its comments and its expiry. *)
Definition cleanupExpiredComments (now : Z) (st : Store) : Store :=
  {| COMMENTS_MEM :=
       filter (fun kv => expired now (COMMENTS_TTL st) kv.1 = false) (COMMENTS_MEM st);
     COMMENTS_TTL := filter (fun kv => (now >? kv.2) = false) (COMMENTS_TTL st) |}.

(** [addCommentToMemory]; [now1] and [now2] are its two readings of the
    clock. *)
Definition addCommentToMemory (now1 now2 : Z) (matchId : string) (comment : Comment)
    (st : Store) : Store :=
  let st := cleanupExpiredComments now1 st in
  let comments := JS.nullish (COMMENTS_MEM st !! matchId) [] in
  let comments :=
    if Z.of_nat (length comments) >=? MAX_COMMENTS_PER_MATCH
    then slice_from comments (- MAX_COMMENTS_PER_MATCH + 1)
    else comments in
  let comments := comment :: comments in
  {| COMMENTS_MEM := <[matchId := comments]> (COMMENTS_MEM st);
     COMMENTS_TTL := <[matchId := now2 + COMMENTS_TTL_MS]> (COMMENTS_TTL st) |}.

(** What the in-memory [GET] lists for a match. *)
Definition listComments (matchId : string) (st : Store) : list Comment :=
  JS.nullish (COMMENTS_MEM st !! matchId) [].
End Store.

End Comments.

(** * Properties *)

(** ** Lists, slices and the stable sort *)

Section ListFacts.
Context {A : Type}.

Lemma slice0_incl (xs : list A) (k : Z) (x : A) :
  In x (JS.slice0 xs k) -> In x xs.
Proof.
  unfold JS.slice0. destruct (k <? 0); intros H.
  - revert H. generalize (Z.to_nat (Z.of_nat (length xs) + k)).
    intros n Hn. rewrite <- (firstn_skipn n xs). apply in_or_app. now left.
  - rewrite <- (firstn_skipn (Z.to_nat k) xs). apply in_or_app. now left.
Qed.

Lemma slice0_length_nonneg (xs : list A) (k : Z) :
  0 <= k -> Z.of_nat (length (JS.slice0 xs k)) <= k.
Proof.
  intros Hk. unfold JS.slice0.
  destruct (k <? 0) eqn:E; [apply Z.ltb_lt in E; lia|].
  rewrite length_firstn. lia.
Qed.

Variable cmp : A -> A -> Z.

Lemma insert_sorted_perm (x : A) (l : list A) :
  Permutation (x :: l) (JS.insert_sorted cmp x l).
Proof.
  induction l as [|y l IH]; simpl.
  - apply Permutation_refl.
  - destruct (cmp x y <=? 0).
    + apply Permutation_refl.
    + eapply perm_trans; [apply perm_swap|]. now apply perm_skip.
Qed.

Lemma sort_perm (l : list A) : Permutation l (JS.sort cmp l).
Proof.
  induction l as [|x l IH]; simpl.
  - constructor.
  - eapply perm_trans; [apply perm_skip, IH|]. apply insert_sorted_perm.
Qed.

Lemma sort_length (l : list A) : length (JS.sort cmp l) = length l.
Proof. symmetry. apply Permutation_length, sort_perm. Qed.

Lemma sort_In (l : list A) (x : A) : In x (JS.sort cmp l) <-> In x l.
Proof.
  split; intros H.
  - eapply Permutation_in; [apply Permutation_sym, sort_perm|exact H].
  - eapply Permutation_in; [apply sort_perm|exact H].
Qed.
End ListFacts.

(** ** Merge, sort and cap *)

Section MergeAndCapFacts.
Context {Acc : Type}.
Variable followersOf : Acc -> option Z.
Variable maxAccounts : Z.

(** An include-derived account survives the cap. *)
Lemma mergeAndCap_keeps_includes (inc base : list Acc) (a : Acc) :
  In a inc -> In a (mergeAndCap followersOf maxAccounts inc base).
Proof.
  intros Ha. unfold mergeAndCap.
  destruct (_ >? _).
  - apply in_or_app. now left.
  - apply sort_In. apply in_or_app. now left.
Qed.

Lemma mergeAndCap_from (inc base : list Acc) (a : Acc) :
  In a (mergeAndCap followersOf maxAccounts inc base) -> In a inc \/ In a base.
Proof.
  unfold mergeAndCap. destruct (_ >? _); intros H.
  - apply in_app_or in H. destruct H as [H|H]; [now left|].
    right. eapply slice0_incl; eauto.
  - apply sort_In in H. now apply in_app_or in H.
Qed.

(** The length is bounded by the cap or, when the includes alone exceed
    it, by their number. *)
Lemma mergeAndCap_length (inc base : list Acc) :
  Z.of_nat (length (mergeAndCap followersOf maxAccounts inc base))
  <= Z.max maxAccounts (Z.of_nat (length inc)).
Proof.
  unfold mergeAndCap.
  destruct (_ >? _) eqn:E.
  - rewrite length_app, Nat2Z.inj_add.
    pose proof (slice0_length_nonneg base
                  (Z.max (maxAccounts - Z.of_nat (length inc)) 0)) as H.
    specialize (H ltac:(lia)). lia.
  - rewrite sort_length in *.
    assert (Z.of_nat (length (inc ++ base)) <= maxAccounts) by lia. lia.
Qed.

(** When the cap is exceeded, exactly the includes and a prefix of the
    base list are returned. *)
Lemma mergeAndCap_capped (inc base : list Acc) :
  Z.of_nat (length (inc ++ base)) > maxAccounts ->
  mergeAndCap followersOf maxAccounts inc base
  = inc ++ firstn (Z.to_nat (Z.max (maxAccounts - Z.of_nat (length inc)) 0)) base.
Proof.
  intros H. unfold mergeAndCap. rewrite sort_length.
  destruct (_ >? _) eqn:E; [|lia].
  unfold JS.slice0.
  destruct (_ <? 0) eqn:E0; [apply Z.ltb_lt in E0; lia|reflexivity].
Qed.
End MergeAndCapFacts.

(** ** Eligibility *)

(** What the specification says of an eligibility verdict [e] for a
    profile with the given follower count and creation date. *)
Definition EligibilityContract (cfg : Config) (Date_parse : string -> option Z) (now : Z)
    (unknownAge : string) (followersCount : option Z) (createdAt : option string)
    (e : Eligibility) : Prop :=
  eligible e
  = followerCheckPassed cfg followersCount
    && (ageCheckPassed cfg Date_parse now createdAt || ageUnknown createdAt)
  /\ (ageUnknown createdAt = true ->
      eligible e = followerCheckPassed cfg followersCount
      /\ In unknownAge (reasons e))
  /\ (JS.nullish followersCount 0 < MIN_FOLLOWERS cfg ->
      eligible e = false
      /\ In ("followers=" ++ JS.Z_to_string (JS.nullish followersCount 0)
             ++ " < min=" ++ JS.Z_to_string (MIN_FOLLOWERS cfg))%string
            (reasons e)).

Lemma computeEligibilityOf_contract cfg Date_parse now unknownAge followersCount createdAt :
  EligibilityContract cfg Date_parse now unknownAge followersCount createdAt
    (computeEligibilityOf cfg Date_parse now unknownAge followersCount createdAt).
Proof.
  unfold EligibilityContract, computeEligibilityOf, followerCheckPassed,
    ageCheckPassed, ageUnknown.
  destruct (JS.nullish followersCount 0 <? MIN_FOLLOWERS cfg) eqn:Ef;
    [apply Z.ltb_lt in Ef | apply Z.ltb_ge in Ef];
    (destruct createdAt as [[|c s]|]; cbn [JS.truthy_opt JS.truthy negb];
     [ | destruct (monthsBetween _ _) as [q|]; unfold JS.Qltb;
         [destruct (Qle_bool _ q)|] | ]);
    cbn; repeat split; intros; auto; try discriminate; try lia.
Qed.

(** C6. For every profile of either platform, [computeEligibility]
    returns [eligible = followerCheckPassed AND (ageCheckPassed OR
    ageUnknown)]; when [createdAt] is unknown the verdict is the follower
    check alone and the reasons contain the platform's unknown-age
    disclosure; when the follower count (0 when missing) is below the
    minimum the profile is ineligible and the reasons contain the failing
    comparison [followers=N < min=M]. *)
Theorem computeEligibility_contract (cfg : Config) (Date_parse : string -> option Z) (now : Z) :
  (forall p : Bsky.BskyProfileBasic,
     EligibilityContract cfg Date_parse now Bsky.unknownAge
       (Bsky.followersCount p) (Bsky.createdAt p)
       (Bsky.computeEligibility cfg Date_parse now p))
  /\ (forall p : Twitter.TwitterProfileBasic,
        EligibilityContract cfg Date_parse now Twitter.unknownAge
          (Twitter.followersCount p) (Twitter.createdAt p)
          (Twitter.computeEligibility cfg Date_parse now p)).
Proof.
  split; intros p; apply computeEligibilityOf_contract.
Qed.

(** ** The exclude set and the include and base loops *)

Lemma elem_of_excludeKeys_fold (rk : Override.Rule -> string)
    (exc : list Override.Rule) (s : gset string) (k : string) :
  k ∈ fold_left (fun s o => {[ rk o ]} ∪ s) exc s
  <-> k ∈ s \/ exists e, In e exc /\ rk e = k.
Proof.
  revert s. induction exc as [|e exc IH]; intros s; simpl.
  - split; [now left|]. intros [H|[e [[] _]]]. exact H.
  - rewrite IH. rewrite elem_of_union, elem_of_singleton. split.
    + intros [[->|H]|[e' [He' Hk]]]; eauto.
    + intros [H|[e' [[->|He'] Hk]]]; eauto.
Qed.

(** A loop that only ever pushes keeps what was pushed before. *)
Lemma fold_left_push_mono {A B : Type} (f : list A -> B -> list A) (xs : list B) :
  (forall acc b a, In a acc -> In a (f acc b)) ->
  forall acc a, In a acc -> In a (fold_left f xs acc).
Proof.
  intros Hf. induction xs as [|x xs IH]; intros acc a Ha; simpl; auto.
Qed.

(** A property of everything pushed holds of the whole result. *)
Lemma fold_left_push_Forall {A B : Type} (P : A -> Prop)
    (f : list A -> B -> list A) (xs : list B) :
  (forall acc b, Forall P acc -> Forall P (f acc b)) ->
  forall acc, Forall P acc -> Forall P (fold_left f xs acc).
Proof.
  intros Hf. induction xs as [|x xs IH]; intros acc Ha; simpl; auto.
Qed.

(** The turn for [x] pushes [a]: then [a] is in the result. *)
Lemma fold_left_push_In {A B : Type} (f : list A -> B -> list A) (xs : list B)
    (x : B) (a : A) :
  (forall acc b a, In a acc -> In a (f acc b)) ->
  (forall acc, In a (f acc x)) ->
  In x xs -> forall acc, In a (fold_left f xs acc).
Proof.
  intros Hmono Hx. induction xs as [|y xs IH]; intros Hin acc; [destruct Hin|].
  simpl. destruct Hin as [->|Hin].
  - apply fold_left_push_mono; auto.
  - now apply IH.
Qed.

Ltac step_cases :=
  repeat match goal with
         | |- context [match ?m !! ?k with _ => _ end] => destruct (m !! k) eqn:?
         | |- context [if ?b then _ else _] => destruct b eqn:?
         | |- context [match List.find ?f ?l with _ => _ end] => destruct (List.find f l) eqn:?
         end.

Module BskyFacts.
Import Bsky.

Lemma bsky_elem_of_buildExcludeKeys (exc : list Override.Rule) (k : string) :
  k ∈ buildExcludeKeys exc <-> exists e, In e exc /\ ruleKey e = k.
Proof.
  unfold buildExcludeKeys. rewrite elem_of_excludeKeys_fold.
  split; [intros [H|H]; [set_solver|exact H] | now right].
Qed.

Section Loops.
Variable cfg : Config.
Variable Date_parse : string -> option Z.
Variable now : Z.
Variable excludeKeys : gset string.
Variable includeByKey : gmap string BskyProfileBasic.

Let notExcluded (a : SelectedAccount) : Prop :=
  isExcluded excludeKeys (profile a) = false.

Lemma bsky_includeStep_mono acc o a :
  In a acc -> In a (includeStep cfg Date_parse now excludeKeys includeByKey acc o).
Proof.
  intros Ha. unfold includeStep. step_cases; auto; apply in_or_app; now left.
Qed.

Lemma bsky_includeStep_notExcluded acc o :
  Forall notExcluded acc ->
  Forall notExcluded (includeStep cfg Date_parse now excludeKeys includeByKey acc o).
Proof.
  intros Ha. unfold includeStep. step_cases; auto;
    apply Forall_app; split; auto; constructor; auto.
Qed.

Lemma bsky_includeStep_bypass acc o p :
  Override.bypass_eligibility o = true ->
  includeByKey !! ruleKey o = Some p ->
  isExcluded excludeKeys p = false ->
  In {| profile := p; eligibility := adminBypass |}
     (includeStep cfg Date_parse now excludeKeys includeByKey acc o).
Proof.
  intros Hb Hp Hx. unfold includeStep. rewrite Hp, Hx, Hb. simpl.
  apply in_or_app. right. now left.
Qed.

Lemma bsky_baseStep_notExcluded inc acc p :
  Forall notExcluded acc ->
  Forall notExcluded (baseStep cfg Date_parse now excludeKeys inc acc p).
Proof.
  intros Ha. unfold baseStep. step_cases; auto;
    apply Forall_app; split; auto; constructor; auto.
Qed.
End Loops.

Section Selector.
Variable cfg : Config.
Variable Date_parse : string -> option Z.
Variable now : Z.
Variable fetchProfilesByActors : list string -> list BskyProfileBasic.

Local Abbreviation select := (selectEligibleAccounts cfg Date_parse now fetchProfilesByActors).
Local Abbreviation selectedInclude := (selectedIncludeOf cfg Date_parse now fetchProfilesByActors).

(** No selected account is excluded by its did or by its handle. *)
Lemma bsky_selected_notExcluded base inc exc a :
  In a (select base inc exc) ->
  isExcluded (buildExcludeKeys exc) (profile a) = false.
Proof.
  intros Ha. unfold selectEligibleAccounts in Ha.
  apply mergeAndCap_from in Ha. destruct Ha as [Ha|Ha]; revert a Ha;
    apply Stdlib.Lists.List.Forall_forall.
  - unfold selectedIncludeOf. apply fold_left_push_Forall; [|constructor].
    intros acc o. apply bsky_includeStep_notExcluded.
  - unfold selectedBaseOf. apply fold_left_push_Forall; [|constructor].
    intros acc o. apply bsky_baseStep_notExcluded.
Qed.

(** A bypassing include rule whose profile is found and not excluded
    is selected with the forced eligibility. *)
Lemma bsky_bypass_selected base inc exc o p :
  In o inc ->
  Override.bypass_eligibility o = true ->
  includeByKeyOf fetchProfilesByActors inc !! ruleKey o = Some p ->
  isExcluded (buildExcludeKeys exc) p = false ->
  In {| profile := p; eligibility := adminBypass |} (select base inc exc).
Proof.
  intros Ho Hb Hp Hx. unfold selectEligibleAccounts.
  apply mergeAndCap_keeps_includes. unfold selectedIncludeOf.
  apply fold_left_push_In with (x := o); auto.
  - intros acc b a. apply bsky_includeStep_mono.
  - intros acc. now apply bsky_includeStep_bypass.
Qed.

Lemma bsky_includes_selected base inc exc a :
  In a (selectedInclude inc exc) -> In a (select base inc exc).
Proof. apply mergeAndCap_keeps_includes. Qed.

Lemma bsky_select_length base inc exc :
  Z.of_nat (length (select base inc exc))
  <= Z.max (MAX_ACCOUNTS cfg) (Z.of_nat (length (selectedInclude inc exc))).
Proof. apply mergeAndCap_length. Qed.
End Selector.
End BskyFacts.

Module TwitterFacts.
Import Twitter.

Lemma twitter_elem_of_buildExcludeKeys (exc : list Override.Rule) (k : string) :
  k ∈ buildExcludeKeys exc <-> exists e, In e exc /\ ruleKey e = k.
Proof.
  unfold buildExcludeKeys. rewrite elem_of_excludeKeys_fold.
  split; [intros [H|H]; [set_solver|exact H] | now right].
Qed.

(** Every include rule has a profile under its key. *)
Lemma includeByKeyOf_lookup (inc : list Override.Rule) (o : Override.Rule) :
  In o inc ->
  exists o', In o' inc /\ ruleKey o' = ruleKey o
             /\ includeByKeyOf inc !! ruleKey o = Some (ruleProfile o').
Proof.
  unfold includeByKeyOf. generalize (∅ : gmap string TwitterProfileBasic).
  induction inc as [|x inc IH] using rev_ind; intros m Ho; [destruct Ho|].
  rewrite fold_left_app. simpl.
  destruct (decide (ruleKey x = ruleKey o)) as [E|E].
  - exists x. rewrite E, lookup_insert_eq. repeat split; auto.
    apply in_or_app. right. now left.
  - rewrite lookup_insert_ne by exact E.
    apply in_app_or in Ho. destruct Ho as [Ho|[->|[]]]; [|congruence].
    destruct (IH m Ho) as [o' [Ho' [Hk Hl]]].
    exists o'. repeat split; auto. apply in_or_app. now left.
Qed.

Section Loops.
Variable cfg : Config.
Variable Date_parse : string -> option Z.
Variable now : Z.
Variable excludeKeys : gset string.
Variable includeByKey : gmap string TwitterProfileBasic.

Let notExcluded (a : SelectedAccount) : Prop :=
  isExcluded excludeKeys (profile a) = false.

Lemma twitter_includeStep_mono acc o a :
  In a acc -> In a (includeStep cfg Date_parse now excludeKeys includeByKey acc o).
Proof.
  intros Ha. unfold includeStep. step_cases; auto; apply in_or_app; now left.
Qed.

Lemma twitter_includeStep_notExcluded acc o :
  Forall notExcluded acc ->
  Forall notExcluded (includeStep cfg Date_parse now excludeKeys includeByKey acc o).
Proof.
  intros Ha. unfold includeStep. step_cases; auto;
    apply Forall_app; split; auto; constructor; auto.
Qed.

Lemma twitter_includeStep_bypass acc o p :
  Override.bypass_eligibility o = true ->
  includeByKey !! ruleKey o = Some p ->
  isExcluded excludeKeys p = false ->
  In {| profile := p; eligibility := adminBypass |}
     (includeStep cfg Date_parse now excludeKeys includeByKey acc o).
Proof.
  intros Hb Hp Hx. unfold includeStep. rewrite Hp, Hx, Hb. simpl.
  apply in_or_app. right. now left.
Qed.

Lemma twitter_baseStep_notExcluded inc acc p :
  Forall notExcluded acc ->
  Forall notExcluded (baseStep cfg Date_parse now excludeKeys inc acc p).
Proof.
  intros Ha. unfold baseStep. step_cases; auto;
    apply Forall_app; split; auto; constructor; auto.
Qed.
End Loops.

Section Selector.
Variable cfg : Config.
Variable Date_parse : string -> option Z.
Variable now : Z.

Local Abbreviation select := (selectEligibleAccounts cfg Date_parse now).
Local Abbreviation selectedInclude := (selectedIncludeOf cfg Date_parse now).

Lemma twitter_selected_notExcluded base inc exc a :
  In a (select base inc exc) ->
  isExcluded (buildExcludeKeys exc) (profile a) = false.
Proof.
  intros Ha. unfold selectEligibleAccounts in Ha.
  apply mergeAndCap_from in Ha. destruct Ha as [Ha|Ha]; revert a Ha;
    apply Stdlib.Lists.List.Forall_forall.
  - unfold selectedIncludeOf. apply fold_left_push_Forall; [|constructor].
    intros acc o. apply twitter_includeStep_notExcluded.
  - unfold selectedBaseOf. apply fold_left_push_Forall; [|constructor].
    intros acc o. apply twitter_baseStep_notExcluded.
Qed.

Lemma twitter_bypass_selected base inc exc o p :
  In o inc ->
  Override.bypass_eligibility o = true ->
  includeByKeyOf inc !! ruleKey o = Some p ->
  isExcluded (buildExcludeKeys exc) p = false ->
  In {| profile := p; eligibility := adminBypass |} (select base inc exc).
Proof.
  intros Ho Hb Hp Hx. unfold selectEligibleAccounts.
  apply mergeAndCap_keeps_includes. unfold selectedIncludeOf.
  apply fold_left_push_In with (x := o); auto.
  - intros acc b a. apply twitter_includeStep_mono.
  - intros acc. now apply twitter_includeStep_bypass.
Qed.

Lemma twitter_includes_selected base inc exc a :
  In a (selectedInclude inc exc) -> In a (select base inc exc).
Proof. apply mergeAndCap_keeps_includes. Qed.

Lemma twitter_select_length base inc exc :
  Z.of_nat (length (select base inc exc))
  <= Z.max (MAX_ACCOUNTS cfg) (Z.of_nat (length (selectedInclude inc exc))).
Proof. apply mergeAndCap_length. Qed.
End Selector.
End TwitterFacts.

(** ** Exclusion, bypass and the cap *)

Module SelectorFacts.

(** Sample rules and configuration for the concrete runs below. *)
Definition rule (id : string) (ty : Override.IdType) (h : option string) (bypass : bool)
  : Override.Rule :=
  {| Override.identifier := id; Override.identifier_type := ty;
     Override.rule_handle := h; Override.scope := Override.global;
     Override.match_id := None; Override.bypass_eligibility := bypass;
     Override.expires_at := None |}.

Definition includeDid : Override.Rule :=
  rule "did:plc:abc" Override.did (Some "alice.bsky.social"%string) true.
Definition excludeDid : Override.Rule :=
  rule "did:plc:abc" Override.did None false.
Definition includeDidNoHandle : Override.Rule :=
  rule "did:plc:abc" Override.did None true.
Definition includeAlice : Override.Rule := rule "alice.bsky.social" Override.handle None true.
Definition includeBob : Override.Rule := rule "bob.bsky.social" Override.handle None true.

Definition capOne : Config :=
  {| MIN_FOLLOWERS := 500; MIN_ACCOUNT_MONTHS := 6; MAX_ACCOUNTS := 1 |}.
Definition lookupFails : list string -> list Bsky.BskyProfileBasic := fun _ => [].
Definition neverParses : string -> option Z := fun _ => None.

(** On Bluesky the fallback keeps a profile for every include rule that
    declares a handle or is itself a handle rule. *)
Lemma withFallbacks_lookup (inc : list Override.Rule)
    (m : gmap string Bsky.BskyProfileBasic) (o : Override.Rule) :
  In o inc ->
  JS.truthy (Bsky.fallbackHandle o) = true ->
  is_Some (Bsky.withFallbacks inc m !! Bsky.ruleKey o).
Proof.
  unfold Bsky.withFallbacks.
  induction inc as [|x inc IH] using rev_ind; intros Ho Hh; [destruct Ho|].
  rewrite fold_left_app. cbn [fold_left].
  set (m' := fold_left _ inc m) in *.
  apply in_app_or in Ho. destruct Ho as [Ho|[->|[]]].
  - specialize (IH Ho Hh). destruct (m' !! Bsky.ruleKey x) eqn:Ex; [exact IH|].
    destruct (JS.truthy (Bsky.fallbackHandle x)); [|exact IH].
    destruct (decide (Bsky.ruleKey x = Bsky.ruleKey o)) as [E|E].
    + rewrite E, lookup_insert_eq. eauto.
    + now rewrite lookup_insert_ne.
  - destruct (m' !! Bsky.ruleKey o) eqn:Eo.
    + rewrite Eo. eauto.
    + rewrite Hh, lookup_insert_eq. eauto.
Qed.

(** An exclude rule names a key: it has the type and the identifier the
    key is made of. *)
Definition bskyNamed (exc : list Override.Rule) (k : string) : Prop :=
  exists e, In e exc /\ Bsky.ruleKey e = k.

Definition twitterNamed (exc : list Override.Rule) (k : string) : Prop :=
  exists e, In e exc /\ Twitter.ruleKey e = k.

(** A profile is excluded only through its DID or its handle. *)
Lemma bsky_unnamed_notExcluded (exc : list Override.Rule) (p : Bsky.BskyProfileBasic) :
  (Bsky.did p <> ""%string -> ~ bskyNamed exc ("did:" ++ Bsky.did p)%string) ->
  (Bsky.handle p <> ""%string -> ~ bskyNamed exc ("handle:" ++ Bsky.handle p)%string) ->
  Bsky.isExcluded (Bsky.buildExcludeKeys exc) p = false.
Proof.
  intros Hd Hh. unfold Bsky.isExcluded. cbv zeta.
  apply orb_false_iff. split.
  - destruct (Bsky.did p) as [|c d] eqn:E; cbn [JS.truthy]; [reflexivity|].
    apply bool_decide_eq_false. rewrite BskyFacts.bsky_elem_of_buildExcludeKeys.
    apply Hd. discriminate.
  - destruct (Bsky.handle p) as [|c h] eqn:E; cbn [JS.truthy]; [reflexivity|].
    apply bool_decide_eq_false. rewrite BskyFacts.bsky_elem_of_buildExcludeKeys.
    apply Hh. discriminate.
Qed.

Lemma twitter_unnamed_notExcluded (exc : list Override.Rule)
    (p : Twitter.TwitterProfileBasic) :
  (forall u, Twitter.user_id p = Some u -> u <> ""%string ->
             ~ twitterNamed exc ("id:" ++ u)%string) ->
  (Twitter.handle p <> ""%string ->
   ~ twitterNamed exc ("handle:" ++ Twitter.handle p)%string) ->
  Twitter.isExcluded (Twitter.buildExcludeKeys exc) p = false.
Proof.
  intros Hd Hh. unfold Twitter.isExcluded. cbv zeta.
  apply orb_false_iff. split.
  - destruct (Twitter.user_id p) as [[|c d]|] eqn:E; try reflexivity.
    apply bool_decide_eq_false. rewrite TwitterFacts.twitter_elem_of_buildExcludeKeys.
    apply (Hd (String c d)); [reflexivity|discriminate].
  - destruct (Twitter.handle p) as [|c h] eqn:E; cbn [JS.truthy]; [reflexivity|].
    apply bool_decide_eq_false. rewrite TwitterFacts.twitter_elem_of_buildExcludeKeys.
    apply Hh. discriminate.
Qed.

Lemma id_key_inj (a b : string) : ("id:" ++ a)%string = ("id:" ++ b)%string -> a = b.
Proof. intros H. cbv in H. now injection H. Qed.

Lemma handle_key_inj (a b : string) :
  ("handle:" ++ a)%string = ("handle:" ++ b)%string -> a = b.
Proof. intros H. cbv in H. now injection H. Qed.

Lemma id_handle_key_neq (a b : string) : ("id:" ++ a)%string <> ("handle:" ++ b)%string.
Proof. intros H. cbv in H. discriminate. Qed.

(** On Twitter an exclude rule beats every include rule of the same
    key: the profile of the include rule is not selected. *)
Lemma Twitter_exclude_wins cfg Date_parse now base inc exc o e p a :
  In o inc -> In e exc ->
  Twitter.ruleKey e = Twitter.ruleKey o ->
  Override.identifier o <> ""%string ->
  Twitter.includeByKeyOf inc !! Twitter.ruleKey o = Some p ->
  In a (Twitter.selectEligibleAccounts cfg Date_parse now base inc exc) ->
  Twitter.profile a <> p.
Proof.
  intros Ho He Hk Hid Hp Ha Heq.
  apply TwitterFacts.twitter_selected_notExcluded in Ha. rewrite Heq in Ha.
  destruct (TwitterFacts.includeByKeyOf_lookup inc o Ho) as [o' [_ [Hk' Hl]]].
  rewrite Hp in Hl. injection Hl as ->.
  assert (Hin : Twitter.ruleKey o' ∈ Twitter.buildExcludeKeys exc).
  { apply TwitterFacts.twitter_elem_of_buildExcludeKeys. exists e. split; congruence. }
  assert (Hid' : Override.identifier o' = Override.identifier o).
  { unfold Twitter.ruleKey in Hk'.
    destruct (Override.identifier_type o'), (Override.identifier_type o);
      first [ now apply id_key_inj | now apply handle_key_inj
            | exfalso; eapply id_handle_key_neq; eassumption
            | exfalso; eapply id_handle_key_neq; symmetry; eassumption ]. }
  destruct (Override.identifier o') as [|c s] eqn:I'; [congruence|].
  unfold Twitter.isExcluded in Ha. cbv zeta in Ha.
  apply orb_false_iff in Ha. destruct Ha as [H1 H2].
  unfold Twitter.ruleProfile, Twitter.ruleKey in *.
  destruct (Override.identifier_type o'); rewrite I' in *; cbn in H1, H2;
    first [ apply bool_decide_eq_false in H1; now apply H1
          | apply bool_decide_eq_false in H2; now apply H2 ].
Qed.

End SelectorFacts.

(** C1. On Bluesky, an include rule and an exclude rule that name the
    same DID do not keep the account out of the selection when the
    profile lookup returns nothing and the include rule declares a
    handle: the fallback profile carries an empty [did], [isExcluded]
    finds no key for it in the exclude set, and the account is returned,
    whatever the configuration and the clock. *)
Theorem Bsky_excluded_did_selected_through_fallback
    (cfg : Config) (Date_parse : string -> option Z) (now : Z) :
  Bsky.ruleKey SelectorFacts.includeDid = Bsky.ruleKey SelectorFacts.excludeDid
  /\ Bsky.selectEligibleAccounts cfg Date_parse now SelectorFacts.lookupFails []
       [SelectorFacts.includeDid] [SelectorFacts.excludeDid]
     = [{| Bsky.profile := Bsky.minimalProfile "alice.bsky.social";
           Bsky.eligibility := adminBypass |}].
Proof.
  split; [reflexivity|].
  unfold Bsky.selectEligibleAccounts, mergeAndCap.
  assert (Hi : Bsky.selectedIncludeOf cfg Date_parse now SelectorFacts.lookupFails
                 [SelectorFacts.includeDid] [SelectorFacts.excludeDid]
               = [{| Bsky.profile := Bsky.minimalProfile "alice.bsky.social";
                     Bsky.eligibility := adminBypass |}])
    by (vm_compute; reflexivity).
  rewrite Hi. cbn [Bsky.selectedBaseOf fold_left app JS.sort fold_right JS.insert_sorted].
  destruct (_ >? _); [|reflexivity].
  f_equal. unfold JS.slice0. destruct (_ <? 0); apply firstn_nil.
Qed.

(** C3 as stated fails: with a cap of one account and two bypassing
    include rules, two accounts are returned. *)
Lemma cap_exceeded_by_includes :
  Z.of_nat (length (Bsky.selectEligibleAccounts SelectorFacts.capOne
                      SelectorFacts.neverParses 0 SelectorFacts.lookupFails []
                      [SelectorFacts.includeAlice; SelectorFacts.includeBob] []))
  > MAX_ACCOUNTS SelectorFacts.capOne.
Proof. vm_compute. reflexivity. Qed.

(** C3, amended. On both platforms the list returned by
    [selectEligibleAccounts] has length at most the larger of the
    platform maximum and the number of include-derived accounts; so it is
    within the maximum whenever the include-derived accounts are. *)
Theorem selectEligibleAccounts_length
    (cfg : Config) (Date_parse : string -> option Z) (now : Z) :
  (forall fetchProfilesByActors base inc exc,
     let out := Bsky.selectEligibleAccounts cfg Date_parse now fetchProfilesByActors
                  base inc exc in
     let includes := Bsky.selectedIncludeOf cfg Date_parse now fetchProfilesByActors
                       inc exc in
     Z.of_nat (length out) <= Z.max (MAX_ACCOUNTS cfg) (Z.of_nat (length includes))
     /\ (Z.of_nat (length includes) <= MAX_ACCOUNTS cfg ->
         Z.of_nat (length out) <= MAX_ACCOUNTS cfg))
  /\ (forall base inc exc,
        let out := Twitter.selectEligibleAccounts cfg Date_parse now base inc exc in
        let includes := Twitter.selectedIncludeOf cfg Date_parse now inc exc in
        Z.of_nat (length out) <= Z.max (MAX_ACCOUNTS cfg) (Z.of_nat (length includes))
        /\ (Z.of_nat (length includes) <= MAX_ACCOUNTS cfg ->
            Z.of_nat (length out) <= MAX_ACCOUNTS cfg)).
Proof.
  split; intros.
  - pose proof (BskyFacts.bsky_select_length cfg Date_parse now fetchProfilesByActors
                  base inc exc) as H.
    subst out includes. split; [exact H|lia].
  - pose proof (TwitterFacts.twitter_select_length cfg Date_parse now base inc exc) as H.
    subst out includes. split; [exact H|lia].
Qed.

(** C4 as stated fails: a bypassing include rule that names a DID,
    declares no handle and is matched by no exclude rule yields no
    account when the profile lookup returns nothing. *)
Lemma bypass_include_dropped_without_profile :
  Override.bypass_eligibility SelectorFacts.includeDidNoHandle = true
  /\ Bsky.buildExcludeKeys [] = ∅
  /\ Bsky.selectEligibleAccounts SelectorFacts.capOne SelectorFacts.neverParses 0
       SelectorFacts.lookupFails [] [SelectorFacts.includeDidNoHandle] [] = [].
Proof. repeat split; vm_compute; reflexivity. Qed.

(** C4, amended. A bypassing include rule whose identifier no exclude
    rule names is returned with the eligibility
    [{eligible: true, reasons: ["admin:include override (bypass=true)"]}]
    provided it has a profile under its key and no exclude rule names the
    DID (user id) or the handle of that profile. On Twitter every include
    rule has a profile; on Bluesky the profile is the one the lookup
    returned under the rule's key or, failing that, the one synthesized
    from the rule's fallback handle (the handle the rule declares or,
    when it declares none, the identifier of a handle rule) when that
    handle is not empty. Every include-derived account is in the returned
    list, capped or not. *)
Theorem bypass_include_selected
    (cfg : Config) (Date_parse : string -> option Z) (now : Z) :
  (forall fetchProfilesByActors base inc exc,
     let out := Bsky.selectEligibleAccounts cfg Date_parse now fetchProfilesByActors
                  base inc exc in
     (forall o p,
        In o inc -> Override.bypass_eligibility o = true ->
        ~ SelectorFacts.bskyNamed exc (Bsky.ruleKey o) ->
        Bsky.includeByKeyOf fetchProfilesByActors inc !! Bsky.ruleKey o = Some p ->
        (Bsky.did p <> ""%string ->
         ~ SelectorFacts.bskyNamed exc ("did:" ++ Bsky.did p)%string) ->
        (Bsky.handle p <> ""%string ->
         ~ SelectorFacts.bskyNamed exc ("handle:" ++ Bsky.handle p)%string) ->
        In {| Bsky.profile := p; Bsky.eligibility := adminBypass |} out)
     /\ (forall o,
           In o inc -> JS.truthy (Bsky.fallbackHandle o) = true ->
           is_Some (Bsky.includeByKeyOf fetchProfilesByActors inc !! Bsky.ruleKey o))
     /\ (forall a,
           In a (Bsky.selectedIncludeOf cfg Date_parse now fetchProfilesByActors inc exc) ->
           In a out))
  /\ (forall base inc exc,
        let out := Twitter.selectEligibleAccounts cfg Date_parse now base inc exc in
        (forall o,
           In o inc -> Override.bypass_eligibility o = true ->
           ~ SelectorFacts.twitterNamed exc (Twitter.ruleKey o) ->
           exists p,
             Twitter.includeByKeyOf inc !! Twitter.ruleKey o = Some p
             /\ ((forall u, Twitter.user_id p = Some u -> u <> ""%string ->
                            ~ SelectorFacts.twitterNamed exc ("id:" ++ u)%string) ->
                 (Twitter.handle p <> ""%string ->
                  ~ SelectorFacts.twitterNamed exc
                      ("handle:" ++ Twitter.handle p)%string) ->
                 In {| Twitter.profile := p; Twitter.eligibility := adminBypass |} out))
        /\ (forall a,
              In a (Twitter.selectedIncludeOf cfg Date_parse now inc exc) -> In a out)).
Proof.
  split; intros; subst out.
  - split; [|split].
    + intros o p Ho Hb _ Hp Hd Hh.
      apply BskyFacts.bsky_bypass_selected with (o := o); auto.
      now apply SelectorFacts.bsky_unnamed_notExcluded.
    + intros o Ho Hh. now apply SelectorFacts.withFallbacks_lookup.
    + intros a. apply BskyFacts.bsky_includes_selected.
  - split.
    + intros o Ho Hb _.
      destruct (TwitterFacts.includeByKeyOf_lookup inc o Ho) as [o' [_ [_ Hl]]].
      eexists. split; [exact Hl|]. intros Hd Hh.
      apply TwitterFacts.twitter_bypass_selected with (o := o); auto.
      now apply SelectorFacts.twitter_unnamed_notExcluded.
    + intros a. apply TwitterFacts.twitter_includes_selected.
Qed.

(** A bypassing handle rule whose lookup failed, with no exclude rule at
    all, is selected through its fallback profile, even beyond the cap. *)
Lemma bypass_include_selected_witness :
  In {| Bsky.profile := Bsky.minimalProfile "alice.bsky.social";
        Bsky.eligibility := adminBypass |}
     (Bsky.selectEligibleAccounts SelectorFacts.capOne SelectorFacts.neverParses 0
        SelectorFacts.lookupFails []
        [SelectorFacts.includeAlice; SelectorFacts.includeBob] []).
Proof.
  destruct (bypass_include_selected SelectorFacts.capOne SelectorFacts.neverParses 0)
    as [Hbsky _].
  destruct (Hbsky SelectorFacts.lookupFails []
              [SelectorFacts.includeAlice; SelectorFacts.includeBob] []) as [H _].
  apply (H SelectorFacts.includeAlice).
  - left. reflexivity.
  - reflexivity.
  - intros [e [[] _]].
  - vm_compute. reflexivity.
  - intros _ [e [[] _]].
  - intros _ [e [[] _]].
Defined.

(** ** The recency filter of [fetchRecentPostsForAccounts] *)

Module FetchFacts.
Import Bsky.

Section Fetch.
Variable DEFAULT_RECENCY_MINUTES : Z.
Variable Date_parse : string -> option Z.
Variable now : Z.
Variable getAuthorFeed : string -> option (list Feed.Item).



End Fetch.
End FetchFacts.


Module RecencySamples.
(** A feed whose first post is dated a second before [now], whose second
    carries a [createdAt] that is not a date, and whose third is a day
    old; dates are written as decimal milliseconds. *)
Definition item (text createdAt : string) : Bsky.Feed.Item :=
  Bsky.Feed.mkItem None (Some (Bsky.Feed.mkRecord (Some text) (Some createdAt))).
Definition feed : list Bsky.Feed.Item :=
  [item "COYG" "999000"; item "North London is red" "yesterday";
   item "old news" "100"]%string.
Definition alice : Bsky.SelectedAccount :=
  Bsky.mkSelected (Bsky.mkProfile "did:plc:abc" "alice.bsky.social" None None None None)
    adminBypass.
End RecencySamples.


(** ** Sentiment *)

Module SentimentFacts.
Import Bsky.

Section Tally.
Variable winkSentiment : string -> option Z.

Definition score (p : SimplePost) : Z := JS.nullish (winkSentiment (text p)) 0.

(** Number of posts that satisfy [f]. *)
Definition countIf (f : SimplePost -> bool) (posts : list SimplePost) : Z :=
  Z.of_nat (length (List.filter f posts)).

Definition isPos (p : SimplePost) : bool := score p >? 0.
Definition isNeg (p : SimplePost) : bool := negb (score p >? 0) && (score p <? 0).
Definition isNeu (p : SimplePost) : bool := negb (score p >? 0) && negb (score p <? 0).

Lemma countIf_cons f p posts :
  countIf f (p :: posts) = (if f p then 1 else 0) + countIf f posts.
Proof.
  unfold countIf. simpl. destruct (f p); simpl length; lia.
Qed.

Lemma tally_from posts a b c :
  fold_left
    (fun '(posCount, negCount, neuCount) p =>
       let score := JS.nullish (winkSentiment (text p)) 0 in
       if score >? 0 then (posCount + 1, negCount, neuCount)
       else if score <? 0 then (posCount, negCount + 1, neuCount)
       else (posCount, negCount, neuCount + 1))
    posts (a, b, c)
  = (a + countIf isPos posts, b + countIf isNeg posts, c + countIf isNeu posts).
Proof.
  revert a b c. induction posts as [|p posts IH]; intros a b c.
  - unfold countIf. simpl. repeat (apply pair_equal_spec; split); lia.
  - cbn [fold_left]. rewrite !countIf_cons.
    set (np := countIf isPos posts) in *. set (nn := countIf isNeg posts) in *.
    set (nu := countIf isNeu posts) in *.
    unfold isPos, isNeg, isNeu, score. cbv zeta.
    destruct (JS.nullish (winkSentiment (text p)) 0 >? 0);
      [|destruct (JS.nullish (winkSentiment (text p)) 0 <? 0)];
      rewrite IH; cbn [negb andb]; repeat (apply pair_equal_spec; split); lia.
Qed.

Lemma tally_counts posts :
  tally winkSentiment posts
  = (countIf isPos posts, countIf isNeg posts, countIf isNeu posts).
Proof. unfold tally. now rewrite tally_from. Qed.

Lemma classes_partition posts :
  countIf isPos posts + countIf isNeg posts + countIf isNeu posts
  = Z.of_nat (length posts).
Proof.
  induction posts as [|p posts IH]; [reflexivity|].
  rewrite !countIf_cons. unfold isPos, isNeg, isNeu in *.
  destruct (score p >? 0), (score p <? 0); cbn [negb andb length]; lia.
Qed.

End Tally.

(** A scorer for the concrete run: two words carry a valence. *)
Definition toyScorer (s : string) : option Z :=
  if String.eqb s "love" then Some 3
  else if String.eqb s "hate" then Some (-3)
  else Some 0.

Definition postWith (t : string) : SimplePost :=
  {| post_uri := None; post_cid := None;
     post_author := {| author_did := "did:plc:abc"; author_handle := "alice.bsky.social";
                       author_displayName := None |};
     text := t; post_createdAt := "2025-10-19T12:00:00.000Z" |}.

(** Three positive, two neutral and one negative post. *)
Definition sixPosts : list SimplePost :=
  map postWith ["love"; "love"; "love"; "kickoff"; "corner"; "hate"]%string.

Lemma exact_ratios_sum (a b c t : Z) :
  a + b + c = t -> t <> 0 ->
  (inject_Z a / inject_Z t + inject_Z b / inject_Z t + inject_Z c / inject_Z t == 1)%Q.
Proof.
  intros Hs Ht. subst t.
  rewrite !inject_Z_plus. field.
  rewrite <- !inject_Z_plus. intros H.
  apply Ht. unfold Qeq, inject_Z in H. cbn [Qnum Qden] in H. lia.
Qed.
End SentimentFacts.

(** C8 as stated fails on doubles: for six posts of which three are
    positive, two neutral and one negative, [pos + neu + neg] evaluates
    to [0.9999999999999999]. *)
Lemma sentiment_ratios_sum_below_one :
  let s := Bsky.summarizeSentiment SentimentFacts.toyScorer SentimentFacts.sixPosts in
  Bsky.counts s = Bsky.mkCounts 6 3 1 2
  /\ PrimFloat.eqb
       (Bsky.ratio_pos (Bsky.ratios s) + Bsky.ratio_neu (Bsky.ratios s)
        + Bsky.ratio_neg (Bsky.ratios s))%float 1%float = false
  /\ PrimFloat.ltb
       (Bsky.ratio_pos (Bsky.ratios s) + Bsky.ratio_neu (Bsky.ratios s)
        + Bsky.ratio_neg (Bsky.ratios s))%float 1%float = true.
Proof. vm_compute. repeat split; reflexivity. Qed.

(** C8, amended. For the empty list [summarizeSentiment] returns all
    zeros. For a non-empty list the counts are the numbers of posts of
    positive, negative and zero score and add up to the total, which is
    the number of posts; each ratio is the double quotient of its count
    by the total; and the exact quotients add up to one (their sum in
    doubles need not be exactly [1]). *)
Theorem summarizeSentiment_counts_and_ratios
    (winkSentiment : string -> option Z) (posts : list Bsky.SimplePost) :
  let s := Bsky.summarizeSentiment winkSentiment posts in
  let c := Bsky.counts s in
  let r := Bsky.ratios s in
  match posts with
  | [] =>
      s = Bsky.mkSentiment (Bsky.mkRatios 0 0 0) (Bsky.mkCounts 0 0 0 0)
  | _ :: _ =>
      Bsky.count_total c = Z.of_nat (length posts)
      /\ Bsky.count_pos c = SentimentFacts.countIf (SentimentFacts.isPos winkSentiment) posts
      /\ Bsky.count_neg c = SentimentFacts.countIf (SentimentFacts.isNeg winkSentiment) posts
      /\ Bsky.count_neu c = SentimentFacts.countIf (SentimentFacts.isNeu winkSentiment) posts
      /\ Bsky.count_pos c + Bsky.count_neu c + Bsky.count_neg c = Bsky.count_total c
      /\ Bsky.ratio_pos r
         = (JS.to_float (Bsky.count_pos c) / JS.to_float (Bsky.count_total c))%float
      /\ Bsky.ratio_neu r
         = (JS.to_float (Bsky.count_neu c) / JS.to_float (Bsky.count_total c))%float
      /\ Bsky.ratio_neg r
         = (JS.to_float (Bsky.count_neg c) / JS.to_float (Bsky.count_total c))%float
      /\ (inject_Z (Bsky.count_pos c) / inject_Z (Bsky.count_total c)
          + inject_Z (Bsky.count_neu c) / inject_Z (Bsky.count_total c)
          + inject_Z (Bsky.count_neg c) / inject_Z (Bsky.count_total c) == 1)%Q
  end.
Proof.
  destruct posts as [|p posts]; [reflexivity|].
  cbv zeta. unfold Bsky.summarizeSentiment.
  rewrite SentimentFacts.tally_counts.
  pose proof (SentimentFacts.classes_partition winkSentiment (p :: posts)) as Hsum.
  set (n := Z.of_nat (length (p :: posts))) in *.
  assert (Hn : n <> 0) by (subst n; simpl length; lia).
  destruct (n =? 0) eqn:E; [apply Z.eqb_eq in E; contradiction|].
  cbn [Bsky.counts Bsky.ratios Bsky.count_total Bsky.count_pos Bsky.count_neg
       Bsky.count_neu Bsky.ratio_pos Bsky.ratio_neg Bsky.ratio_neu].
  repeat split; try reflexivity; try lia.
  apply SentimentFacts.exact_ratios_sum; [lia|exact Hn].
Qed.

(** ** Topics *)

(** The insertion-ordered map. *)
Section MapFacts.
Context {V : Type}.
Implicit Types (m : list (string * V)) (k : string) (v : V).

Lemma Map_get_set_eq k v m : JS.Map_get k (JS.Map_set k v m) = Some v.
Proof.
  induction m as [|[k' v'] m IH]; simpl.
  - now rewrite String.eqb_refl.
  - destruct (String.eqb k' k) eqn:E; simpl.
    + now rewrite String.eqb_refl.
    + now rewrite E.
Qed.

Lemma Map_get_set_ne k k' v m :
  k <> k' -> JS.Map_get k' (JS.Map_set k v m) = JS.Map_get k' m.
Proof.
  intros Hne. induction m as [|[k0 v0] m IH]; simpl.
  - destruct (String.eqb k k') eqn:E; [apply String.eqb_eq in E; contradiction|reflexivity].
  - destruct (String.eqb k0 k) eqn:E; simpl.
    + apply String.eqb_eq in E. subst k0.
      destruct (String.eqb k k') eqn:E'; [apply String.eqb_eq in E'; contradiction|reflexivity].
    + destruct (String.eqb k0 k'); [reflexivity|exact IH].
Qed.

Lemma Map_get_None k m : JS.Map_get k m = None <-> ~ In k (map fst m).
Proof.
  induction m as [|[k' v'] m IH]; simpl.
  - split; auto.
  - destruct (String.eqb k' k) eqn:E.
    + apply String.eqb_eq in E. split; [discriminate|]. intros H. exfalso. apply H. now left.
    + apply String.eqb_neq in E. rewrite IH. split.
      * intros H [H'|H']; [contradiction|contradiction].
      * intros H H'. apply H. now right.
Qed.

Lemma Map_set_keys k v m :
  map fst (JS.Map_set k v m)
  = if existsb (String.eqb k) (map fst m) then map fst m else map fst m ++ [k].
Proof.
  induction m as [|[k' v'] m IH]; simpl; [reflexivity|].
  rewrite (String.eqb_sym k k').
  destruct (String.eqb k' k) eqn:E; simpl.
  - apply String.eqb_eq in E. now subst.
  - rewrite IH. now destruct (existsb _ _).
Qed.

Lemma Map_set_In k v m a b :
  In (a, b) (JS.Map_set k v m) -> (a, b) = (k, v) \/ In (a, b) m.
Proof.
  induction m as [|[k' v'] m IH]; simpl.
  - intros [H|[]]. now left.
  - destruct (String.eqb k' k); simpl; intros [H|H]; auto.
    destruct (IH H); auto.
Qed.

Lemma existsb_eqb_In k (l : list string) : existsb (String.eqb k) l = true <-> In k l.
Proof.
  rewrite existsb_exists. split.
  - intros [x [Hx E]]. apply String.eqb_eq in E. now subst.
  - intros H. exists k. split; [exact H|apply String.eqb_refl].
Qed.

Lemma NoDup_snoc {A : Type} (l : list A) (x : A) :
  List.NoDup l -> ~ In x l -> List.NoDup (l ++ [x]).
Proof.
  induction l as [|y l IH]; simpl; intros Hnd Hx.
  - constructor; [intros []|constructor].
  - inversion Hnd as [|? ? Hy Hnd']; subst. constructor.
    + intros Hin. apply in_app_or in Hin. destruct Hin as [Hin|[->|[]]]; auto.
    + apply IH; auto.
Qed.

Lemma Map_set_NoDup k v m : List.NoDup (map fst m) -> List.NoDup (map fst (JS.Map_set k v m)).
Proof.
  intros H. rewrite Map_set_keys.
  destruct (existsb (String.eqb k) (map fst m)) eqn:E; [exact H|].
  apply NoDup_snoc; [exact H|].
  intros Hin. apply existsb_eqb_In in Hin. congruence.
Qed.

Lemma In_Map_get k v m : List.NoDup (map fst m) -> In (k, v) m -> JS.Map_get k m = Some v.
Proof.
  induction m as [|[k' v'] m IH]; simpl; intros Hnd H; [destruct H|].
  destruct H as [H|H].
  - injection H as -> ->. now rewrite String.eqb_refl.
  - inversion Hnd as [|? ? Hnotin Hnd']; subst.
    destruct (String.eqb k' k) eqn:E.
    + apply String.eqb_eq in E. subst k'. exfalso. apply Hnotin.
      apply in_map_iff. exists (k, v). now split.
    + now apply IH.
Qed.
End MapFacts.

Module TopicFacts.
Import Bsky.

(** *** What the specification counts *)

(** The number of posts whose text contains the keyword, ignoring case. *)
Definition hits (posts : list SimplePost) (k : string) : Z :=
  Z.of_nat (length (List.filter
                      (fun p => JS.includes (JS.toLowerCase (text p)) (JS.toLowerCase k))
                      posts)).

(** The keywords a post matches, in the order of [origByLower]. *)
Definition matchesOf (origByLower : list (string * string)) (p : SimplePost) : list string :=
  map snd (List.filter (fun e => JS.includes (JS.toLowerCase (text p)) (fst e)) origByLower).

(** All matches, post after post. *)
Definition matchSequence (posts : list SimplePost) (keywords : list string) : list string :=
  flat_map (matchesOf (origByLowerOf keywords)) posts.

(** The distinct elements of a list in the order of their first
    occurrence. *)
Definition firstOcc (l : list string) : list string :=
  fold_left (fun acc k => if existsb (String.eqb k) acc then acc else acc ++ [k]) l [].

(** The keywords in the order in which they first match. *)
Definition firstMatchOrder (posts : list SimplePost) (keywords : list string) : list string :=
  firstOcc (matchSequence posts keywords).

(** The claim about ties, as stated: of two topics with the same count
    the one in front is configured in front. *)
Definition tiesInConfigOrder (keywords : list string) (topics : list Topic) : Prop :=
  forall i j a b,
    (i < j)%nat ->
    nth_error topics i = Some a -> nth_error topics j = Some b ->
    count a = count b ->
    exists m n,
      nth_error keywords m = Some (keyword a)
      /\ nth_error keywords n = Some (keyword b)
      /\ (m < n)%nat.

(** *** Counting occurrences in insertion order *)

Definition incr (m : list (string * Z)) (k : string) : list (string * Z) :=
  JS.Map_set k (JS.nullish (JS.Map_get k m) 0 + 1) m.

Definition tallyOf (l : list string) : list (string * Z) := fold_left incr l [].

Definition occ (l : list string) (k : string) : Z :=
  Z.of_nat (count_occ String.string_dec l k).

Lemma tallyOf_snoc l k : tallyOf (l ++ [k]) = incr (tallyOf l) k.
Proof. unfold tallyOf. now rewrite fold_left_app. Qed.

Lemma firstOcc_snoc l k :
  firstOcc (l ++ [k])
  = if existsb (String.eqb k) (firstOcc l) then firstOcc l else firstOcc l ++ [k].
Proof. unfold firstOcc. now rewrite fold_left_app. Qed.

Lemma occ_snoc l k k' : occ (l ++ [k']) k = occ l k + (if String.eqb k' k then 1 else 0).
Proof.
  unfold occ. rewrite count_occ_app. simpl.
  destruct (String.string_dec k' k) as [->|Hne].
  - rewrite String.eqb_refl. lia.
  - apply String.eqb_neq in Hne. rewrite Hne. lia.
Qed.

Lemma tallyOf_keys l : map fst (tallyOf l) = firstOcc l.
Proof.
  induction l as [|k l IH] using rev_ind; [reflexivity|].
  rewrite tallyOf_snoc, firstOcc_snoc. unfold incr.
  now rewrite Map_set_keys, IH.
Qed.

Lemma firstOcc_NoDup l : List.NoDup (firstOcc l).
Proof.
  rewrite <- tallyOf_keys.
  induction l as [|k l IH] using rev_ind; [constructor|].
  rewrite tallyOf_snoc. now apply Map_set_NoDup.
Qed.

Lemma tallyOf_get l k :
  JS.Map_get k (tallyOf l) = if occ l k =? 0 then None else Some (occ l k).
Proof.
  induction l as [|k' l IH] using rev_ind; [reflexivity|].
  rewrite tallyOf_snoc, occ_snoc. unfold incr.
  assert (H0 : 0 <= occ l k) by (unfold occ; lia).
  destruct (String.eqb k' k) eqn:E.
  - apply String.eqb_eq in E. subst k'. rewrite Map_get_set_eq, IH.
    destruct (occ l k =? 0) eqn:E0.
    + apply Z.eqb_eq in E0. rewrite E0. reflexivity.
    + destruct (occ l k + 1 =? 0) eqn:E1; [apply Z.eqb_eq in E1; lia|reflexivity].
  - apply String.eqb_neq in E. rewrite Map_get_set_ne by exact E.
    rewrite IH, Z.add_0_r. reflexivity.
Qed.

(** Every entry of the tally carries the number of occurrences of its
    key, which is at least one. *)
Lemma tallyOf_entries l k c : In (k, c) (tallyOf l) -> c = occ l k /\ 1 <= c.
Proof.
  intros H. apply In_Map_get in H.
  - rewrite tallyOf_get in H. destruct (occ l k =? 0) eqn:E; [discriminate|].
    injection H as <-. apply Z.eqb_neq in E. unfold occ in *. lia.
  - rewrite tallyOf_keys. apply firstOcc_NoDup.
Qed.

(** *** The loops of [extractTopics] tally the match sequence *)

Lemma countPost_fold obl counts p :
  countPost obl counts p = fold_left incr (matchesOf obl p) counts.
Proof.
  unfold countPost, matchesOf. revert counts.
  induction obl as [|[kl orig] obl IH]; intros counts; [reflexivity|].
  simpl. destruct (JS.includes (JS.toLowerCase (text p)) kl); simpl; apply IH.
Qed.

Lemma countsOf_tally posts keywords :
  countsOf posts keywords = tallyOf (matchSequence posts keywords).
Proof.
  unfold countsOf, tallyOf, matchSequence. generalize (@nil (string * Z)).
  induction posts as [|p posts IH]; intros acc; [reflexivity|].
  cbn [fold_left flat_map]. rewrite fold_left_app, <- countPost_fold. apply IH.
Qed.

Lemma origByLowerOf_snoc keywords k :
  origByLowerOf (keywords ++ [k])
  = JS.Map_set (JS.toLowerCase k) k (origByLowerOf keywords).
Proof. unfold origByLowerOf. now rewrite fold_left_app. Qed.

Lemma origByLowerOf_keys_NoDup keywords : List.NoDup (map fst (origByLowerOf keywords)).
Proof.
  induction keywords as [|k keywords IH] using rev_ind; [constructor|].
  rewrite origByLowerOf_snoc. now apply Map_set_NoDup.
Qed.

(** Every entry of [origByLower] pairs a configured keyword with its
    lower-case form. *)
Lemma origByLowerOf_entries keywords kl o :
  In (kl, o) (origByLowerOf keywords) -> In o keywords /\ kl = JS.toLowerCase o.
Proof.
  induction keywords as [|k keywords IH] using rev_ind; [intros []|].
  rewrite origByLowerOf_snoc. intros H. apply Map_set_In in H.
  destruct H as [H|H].
  - injection H as -> ->. split; [apply in_or_app; right; now left|reflexivity].
  - destruct (IH H) as [Hin Hl]. split; [apply in_or_app; now left|exact Hl].
Qed.

Lemma NoDup_values (m : list (string * string)) (f : string -> string) :
  List.NoDup (map fst m) ->
  (forall a b, In (a, b) m -> a = f b) ->
  List.NoDup (map snd m).
Proof.
  induction m as [|[a b] m IH]; simpl; intros Hnd Hf; [constructor|].
  inversion Hnd as [|? ? Hnotin Hnd']; subst. constructor.
  - intros Hin. apply in_map_iff in Hin. destruct Hin as [[a' b'] [Hb Hin]].
    simpl in Hb. subst b'. apply Hnotin.
    assert (a' = a) as ->.
    { rewrite (Hf a' b) by (now right). rewrite (Hf a b) by (now left). reflexivity. }
    apply in_map_iff. exists (a, b). now split.
  - apply IH; auto.
Qed.

Lemma origByLowerOf_values_NoDup keywords : List.NoDup (map snd (origByLowerOf keywords)).
Proof.
  apply NoDup_values with (f := JS.toLowerCase).
  - apply origByLowerOf_keys_NoDup.
  - intros a b H. now apply origByLowerOf_entries in H.
Qed.

Lemma occ_app l1 l2 k : occ (l1 ++ l2) k = occ l1 k + occ l2 k.
Proof. unfold occ. rewrite count_occ_app. lia. Qed.

Lemma occ_absent l k : ~ In k l -> occ l k = 0.
Proof.
  intros H. unfold occ.
  apply (count_occ_not_In String.string_dec) in H. now rewrite H.
Qed.

Lemma occ_present l k : 1 <= occ l k -> In k l.
Proof.
  unfold occ. intros H. apply (count_occ_In String.string_dec). lia.
Qed.

(** A post contributes each of its keywords once. *)
Lemma occ_matchesOf obl p kl o :
  List.NoDup (map snd obl) -> In (kl, o) obl ->
  occ (matchesOf obl p) o
  = if JS.includes (JS.toLowerCase (text p)) kl then 1 else 0.
Proof.
  unfold matchesOf.
  induction obl as [|[a b] obl IH]; simpl; intros Hnd Hin; [destruct Hin|].
  inversion Hnd as [|? ? Hnotin Hnd']; subst.
  assert (Hrest : forall l, incl l obl -> ~ In b (map snd l)).
  { intros l Hl Hb. apply Hnotin. apply in_map_iff in Hb.
    destruct Hb as [e [He1 He2]]. apply in_map_iff. exists e. split; auto. }
  destruct Hin as [Heq|Hin].
  - injection Heq as -> ->.
    assert (H0 : occ (map snd (List.filter
               (fun e => JS.includes (JS.toLowerCase (text p)) (fst e)) obl)) o = 0).
    { apply occ_absent, Hrest. intros e He. now apply filter_In in He. }
    destruct (JS.includes (JS.toLowerCase (text p)) kl); simpl; [|exact H0].
    change (o :: ?l) with ([o] ++ l). rewrite occ_app, H0.
    unfold occ. simpl. destruct (String.string_dec o o); [reflexivity|contradiction].
  - assert (Hne : b <> o).
    { intros ->. apply Hnotin. apply in_map_iff. exists (kl, o). now split. }
    rewrite <- (IH Hnd' Hin).
    destruct (JS.includes (JS.toLowerCase (text p)) a); simpl; [|reflexivity].
    change (b :: ?l) with ([b] ++ l). rewrite occ_app.
    unfold occ at 1. simpl. destruct (String.string_dec b o); [contradiction|reflexivity].
Qed.

Lemma occ_matchSequence posts keywords kl o :
  In (kl, o) (origByLowerOf keywords) ->
  occ (matchSequence posts keywords) o = hits posts o.
Proof.
  intros Hin. unfold matchSequence, hits.
  destruct (origByLowerOf_entries _ _ _ Hin) as [_ Hl].
  induction posts as [|p posts IH]; [reflexivity|].
  cbn [flat_map List.filter]. rewrite occ_app, IH.
  rewrite (occ_matchesOf _ p kl o (origByLowerOf_values_NoDup keywords) Hin).
  rewrite <- Hl.
  destruct (JS.includes (JS.toLowerCase (text p)) kl); cbn [length]; lia.
Qed.

Lemma In_matchSequence posts keywords k :
  In k (matchSequence posts keywords) -> exists kl, In (kl, k) (origByLowerOf keywords).
Proof.
  unfold matchSequence, matchesOf. intros H.
  apply in_flat_map in H. destruct H as [p [_ H]].
  apply in_map_iff in H. destruct H as [[kl o] [Ho H]]. simpl in Ho. subst o.
  apply filter_In in H. exists kl. tauto.
Qed.

(** What the [counts] map holds when the loops are over. *)
Lemma countsOf_entries posts keywords k c :
  In (k, c) (countsOf posts keywords) ->
  In k keywords /\ c = hits posts k /\ 1 <= c.
Proof.
  rewrite countsOf_tally. intros H. apply tallyOf_entries in H.
  destruct H as [Hc H1].
  assert (Hin : In k (matchSequence posts keywords)) by (apply occ_present; lia).
  apply In_matchSequence in Hin. destruct Hin as [kl Hkl].
  rewrite (occ_matchSequence _ _ _ _ Hkl) in Hc.
  apply origByLowerOf_entries in Hkl. tauto.
Qed.

Lemma countsOf_keys posts keywords :
  map fst (countsOf posts keywords) = firstMatchOrder posts keywords.
Proof. rewrite countsOf_tally. apply tallyOf_keys. Qed.

(** *** The order of the result, read off the keyword list *)

(** The distinct lower-case forms of the configured keywords, in the
    order in which they first occur in the configuration. *)
Definition lowerForms (keywords : list string) : list string :=
  firstOcc (map JS.toLowerCase keywords).

(** The casing under which a lower-case form is reported: the last
    configured keyword that has this lower-case form. *)
Definition reportedAs (keywords : list string) (kl : string) : string :=
  fold_left (fun r k => if String.eqb (JS.toLowerCase k) kl then k else r) keywords kl.

(** The keywords a post mentions, in that order and casing. *)
Definition mentionedIn (keywords : list string) (p : SimplePost) : list string :=
  map (reportedAs keywords)
      (List.filter (fun kl => JS.includes (JS.toLowerCase (text p)) kl)
                   (lowerForms keywords)).

(** The keywords in the order in which they are first mentioned, the
    posts being read in order. *)
Definition firstMentions (posts : list SimplePost) (keywords : list string) : list string :=
  firstOcc (flat_map (mentionedIn keywords) posts).

Lemma reportedAs_snoc keywords k kl :
  reportedAs (keywords ++ [k]) kl
  = if String.eqb (JS.toLowerCase k) kl then k else reportedAs keywords kl.
Proof. unfold reportedAs. now rewrite fold_left_app. Qed.

Lemma lowerForms_snoc keywords k :
  lowerForms (keywords ++ [k])
  = if existsb (String.eqb (JS.toLowerCase k)) (lowerForms keywords)
    then lowerForms keywords
    else lowerForms keywords ++ [JS.toLowerCase k].
Proof. unfold lowerForms. rewrite map_app. apply firstOcc_snoc. Qed.

Lemma Map_set_tabulate (g : string -> string) (k v : string) (l : list string) :
  List.NoDup l ->
  JS.Map_set k v (map (fun x => (x, g x)) l)
  = map (fun x => (x, if String.eqb k x then v else g x))
        (if existsb (String.eqb k) l then l else l ++ [k]).
Proof.
  induction l as [|x l IH]; intros Hnd.
  - cbn. now rewrite String.eqb_refl.
  - inversion Hnd as [|? ? Hx Hnd']; subst. cbn [map JS.Map_set existsb].
    rewrite (String.eqb_sym k x).
    destruct (String.eqb x k) eqn:E; cbn [orb].
    + apply String.eqb_eq in E. subst x. cbn [map]. rewrite String.eqb_refl. f_equal.
      apply map_ext_in. intros y Hy.
      destruct (String.eqb k y) eqn:Ey; [|reflexivity].
      apply String.eqb_eq in Ey. subst y. contradiction.
    + rewrite (IH Hnd').
      destruct (existsb (String.eqb k) l); cbn [map app];
        rewrite (String.eqb_sym k x), E; reflexivity.
Qed.

(** [origByLower] lists the lower-case forms in the order of their first
    configuration, each with its last configured casing. *)
Lemma origByLowerOf_tabulate keywords :
  origByLowerOf keywords
  = map (fun kl => (kl, reportedAs keywords kl)) (lowerForms keywords).
Proof.
  induction keywords as [|k keywords IH] using rev_ind; [reflexivity|].
  rewrite origByLowerOf_snoc, IH, lowerForms_snoc.
  rewrite Map_set_tabulate by apply firstOcc_NoDup.
  apply map_ext. intros kl. now rewrite reportedAs_snoc.
Qed.

Lemma filter_map_swap {A B : Type} (f : A -> B) (P : B -> bool) (l : list A) :
  List.filter P (map f l) = map f (List.filter (fun x => P (f x)) l).
Proof.
  induction l as [|x l IH]; [reflexivity|].
  cbn [map List.filter]. destruct (P (f x)); cbn [map]; now rewrite IH.
Qed.

Lemma matchesOf_mentionedIn keywords p :
  matchesOf (origByLowerOf keywords) p = mentionedIn keywords p.
Proof.
  unfold matchesOf, mentionedIn. rewrite origByLowerOf_tabulate.
  rewrite filter_map_swap, map_map. reflexivity.
Qed.

Lemma firstMatchOrder_firstMentions posts keywords :
  firstMatchOrder posts keywords = firstMentions posts keywords.
Proof.
  unfold firstMatchOrder, firstMentions, matchSequence. f_equal.
  apply flat_map_ext. intros p. apply matchesOf_mentionedIn.
Qed.

(** Every entry of [origByLower] carries the reported casing of its
    key. *)
Lemma origByLowerOf_reportedAs keywords kl o :
  In (kl, o) (origByLowerOf keywords) -> o = reportedAs keywords kl.
Proof.
  rewrite origByLowerOf_tabulate. intros H. apply in_map_iff in H.
  destruct H as [x [E _]]. now injection E as -> <-.
Qed.

(** Without two keywords that differ only in case, the lower-case forms
    are in configuration order and every keyword is reported as
    configured. *)
Lemma firstOcc_NoDup_id (l : list string) : List.NoDup l -> firstOcc l = l.
Proof.
  induction l as [|k l IH] using rev_ind; intros Hnd; [reflexivity|].
  rewrite firstOcc_snoc.
  assert (Hl : List.NoDup l /\ ~ In k l).
  { apply NoDup_remove in Hnd. rewrite app_nil_r in Hnd. exact Hnd. }
  destruct Hl as [Hl Hk]. rewrite (IH Hl).
  destruct (existsb (String.eqb k) l) eqn:E; [|reflexivity].
  apply existsb_eqb_In in E. contradiction.
Qed.

Lemma reportedAs_configured keywords k :
  List.NoDup (map JS.toLowerCase keywords) -> In k keywords ->
  reportedAs keywords (JS.toLowerCase k) = k.
Proof.
  induction keywords as [|k' keywords IH] using rev_ind; intros Hnd Hin; [destruct Hin|].
  rewrite reportedAs_snoc. rewrite map_app in Hnd. cbn [map] in Hnd.
  apply NoDup_remove in Hnd. rewrite app_nil_r in Hnd. destruct Hnd as [Hnd Hk'].
  apply in_app_or in Hin. destruct Hin as [Hin|[->|[]]].
  - destruct (String.eqb (JS.toLowerCase k') (JS.toLowerCase k)) eqn:E.
    + apply String.eqb_eq in E. exfalso. apply Hk'. rewrite E. now apply in_map.
    + now apply IH.
  - now rewrite String.eqb_refl.
Qed.

Lemma mentionedIn_configured keywords p :
  List.NoDup (map JS.toLowerCase keywords) ->
  mentionedIn keywords p
  = List.filter (fun k => JS.includes (JS.toLowerCase (text p)) (JS.toLowerCase k)) keywords.
Proof.
  intros Hnd. unfold mentionedIn, lowerForms.
  rewrite (firstOcc_NoDup_id _ Hnd), filter_map_swap, map_map.
  rewrite <- (map_id (List.filter _ keywords)) at 2.
  apply map_ext_in. intros k Hk. apply filter_In in Hk.
  now apply reportedAs_configured.
Qed.
End TopicFacts.

(** Sorting by a descending integer key, as [(a, b) => key(b) - key(a)]. *)
Section SortByKeyDesc.
Context {A : Type}.
Variable key : A -> Z.

Let cmp (a b : A) : Z := key b - key a.
Let desc (a b : A) : Prop := key a >= key b.

Lemma insert_sorted_In x l z : In z (JS.insert_sorted cmp x l) -> z = x \/ In z l.
Proof.
  intros H. apply Permutation_in with (l' := x :: l) in H.
  - destruct H; auto.
  - apply Permutation_sym, insert_sorted_perm.
Qed.

Lemma insert_sorted_desc x l :
  StronglySorted desc l -> StronglySorted desc (JS.insert_sorted cmp x l).
Proof.
  induction l as [|y l IH]; simpl; intros Hs.
  - constructor; constructor.
  - inversion Hs as [|? ? Hs' Hall]; subst.
    destruct (cmp x y <=? 0) eqn:E.
    + apply Z.leb_le in E. unfold cmp in E. constructor; [exact Hs|].
      constructor; [unfold desc; lia|].
      eapply Stdlib.Lists.List.Forall_impl; [|exact Hall]. unfold desc. intros z Hz. lia.
    + apply Z.leb_gt in E. unfold cmp in E. constructor; [now apply IH|].
      apply Stdlib.Lists.List.Forall_forall. intros z Hz.
      apply insert_sorted_In in Hz. destruct Hz as [->|Hz].
      * unfold desc. lia.
      * eapply Stdlib.Lists.List.Forall_forall in Hall; eauto.
Qed.

Lemma sort_desc l : StronglySorted desc (JS.sort cmp l).
Proof.
  induction l as [|x l IH]; simpl; [constructor|]. now apply insert_sorted_desc.
Qed.

(** Stability: the elements of one key keep their relative order. *)
Lemma insert_sorted_stable c x l :
  List.filter (fun a => key a =? c) (JS.insert_sorted cmp x l)
  = List.filter (fun a => key a =? c) (x :: l).
Proof.
  induction l as [|y l IH]; [reflexivity|].
  cbn [JS.insert_sorted]. destruct (cmp x y <=? 0) eqn:E; [reflexivity|].
  apply Z.leb_gt in E. unfold cmp in E.
  cbn [List.filter] in *. rewrite IH.
  destruct (key x =? c) eqn:Ex, (key y =? c) eqn:Ey; try reflexivity.
  apply Z.eqb_eq in Ex, Ey. lia.
Qed.

Lemma sort_stable c l :
  List.filter (fun a => key a =? c) (JS.sort cmp l) = List.filter (fun a => key a =? c) l.
Proof.
  induction l as [|x l IH]; [reflexivity|].
  cbn [JS.sort fold_right]. rewrite insert_sorted_stable.
  cbn [List.filter]. fold (JS.sort cmp l). now rewrite IH.
Qed.

Lemma StronglySorted_firstn n l :
  StronglySorted desc l -> StronglySorted desc (firstn n l).
Proof.
  revert n. induction l as [|x l IH]; intros [|n] Hs; simpl; try constructor.
  - inversion Hs; subst. now apply IH.
  - inversion Hs as [|? ? Hs' Hall]; subst.
    apply Stdlib.Lists.List.Forall_forall. intros z Hz.
    eapply Stdlib.Lists.List.Forall_forall in Hall; eauto.
    rewrite <- (firstn_skipn n l). apply in_or_app. now left.
Qed.
End SortByKeyDesc.

Lemma filter_firstn_prefix {A : Type} (f : A -> bool) (n : nat) (l : list A) :
  exists rest, List.filter f l = List.filter f (firstn n l) ++ rest.
Proof.
  exists (List.filter f (skipn n l)).
  rewrite <- Stdlib.Lists.List.filter_app. now rewrite firstn_skipn.
Qed.

Lemma filter_map_agree {A B : Type} (f : A -> B) (g : A -> Z) (h : B -> Z) (c : Z)
    (l : list A) :
  Forall (fun e => g e = h (f e)) l ->
  List.filter (fun k => h k =? c) (map f l) = map f (List.filter (fun e => g e =? c) l).
Proof.
  induction 1 as [|e l He Hl IH]; [reflexivity|].
  cbn [map List.filter]. rewrite <- He.
  destruct (g e =? c); cbn [map]; now rewrite IH.
Qed.

(** C7 as stated fails on ties: with the keywords configured as
    [arsenal, coyg], a first post that mentions only COYG and a second
    that mentions only Arsenal, both topics count one post and [coyg] is
    returned in front of [arsenal]. *)
Lemma topics_ties_not_in_config_order :
  let keywords := ["arsenal"; "coyg"]%string in
  let posts := map SentimentFacts.postWith ["COYG tonight"; "Arsenal lineup"]%string in
  Bsky.extractTopics posts keywords = [Bsky.mkTopic "coyg" 1; Bsky.mkTopic "arsenal" 1]
  /\ ~ TopicFacts.tiesInConfigOrder keywords (Bsky.extractTopics posts keywords).
Proof.
  cbv zeta.
  assert (E : Bsky.extractTopics
                (map SentimentFacts.postWith ["COYG tonight"; "Arsenal lineup"]%string)
                ["arsenal"; "coyg"]%string
              = [Bsky.mkTopic "coyg" 1; Bsky.mkTopic "arsenal" 1])
    by (vm_compute; reflexivity).
  split; [exact E|]. rewrite E. intros H.
  destruct (H 0%nat 1%nat (Bsky.mkTopic "coyg" 1) (Bsky.mkTopic "arsenal" 1))
    as [m [n [Hm [Hn Hlt]]]]; try reflexivity; [lia|].
  destruct m as [|[|[|m]]], n as [|[|[|n]]]; simpl in Hm, Hn;
    try discriminate; lia.
Qed.

(** C7, amended. [extractTopics] returns at most ten entries; each
    carries a configured keyword with the number of posts whose text
    contains it case-insensitively, which is at least one; a keyword
    configured in several casings is reported in the last of them; the
    entries are in descending order of count; no keyword is listed twice;
    and entries of equal count are in the order in which their keywords
    are first mentioned while the posts are read in order, the keywords
    first mentioned by the same post being in the order in which their
    lower-case forms first occur in the configuration. That is the
    configuration order within a post whenever no two configured keywords
    differ only in case; across posts the earlier post decides. *)
Theorem extractTopics_spec (posts : list Bsky.SimplePost) (keywords : list string) :
  let result := Bsky.extractTopics posts keywords in
  (length result <= 10)%nat
  /\ Forall (fun e => In (Bsky.keyword e) keywords
                      /\ Bsky.count e = TopicFacts.hits posts (Bsky.keyword e)
                      /\ 1 <= Bsky.count e
                      /\ Bsky.keyword e
                         = TopicFacts.reportedAs keywords
                             (JS.toLowerCase (Bsky.keyword e))) result
  /\ StronglySorted (fun a b => Bsky.count a >= Bsky.count b) result
  /\ List.NoDup (map Bsky.keyword result)
  /\ (forall c, exists rest,
        List.filter (fun k => TopicFacts.hits posts k =? c)
                    (TopicFacts.firstMentions posts keywords)
        = map Bsky.keyword (List.filter (fun e => Bsky.count e =? c) result) ++ rest)
  /\ (List.NoDup (map JS.toLowerCase keywords) ->
      TopicFacts.firstMentions posts keywords
      = TopicFacts.firstOcc
          (flat_map (fun p => List.filter
                                (fun k => JS.includes (JS.toLowerCase (Bsky.text p))
                                                      (JS.toLowerCase k))
                                keywords)
                    posts)).
Proof.
  cbv zeta. unfold Bsky.extractTopics.
  set (arr := map (fun '(keyword, count) => Bsky.mkTopic keyword count)
                  (Bsky.countsOf posts keywords)).
  set (sorted := JS.sort (fun a b => Bsky.count b - Bsky.count a) arr).
  change (JS.slice0 sorted 10) with (firstn 10 sorted).
  assert (Harr : Forall (fun e => In (Bsky.keyword e) keywords
                                  /\ Bsky.count e = TopicFacts.hits posts (Bsky.keyword e)
                                  /\ 1 <= Bsky.count e
                                  /\ Bsky.keyword e
                                     = TopicFacts.reportedAs keywords
                                         (JS.toLowerCase (Bsky.keyword e))) arr).
  { apply Stdlib.Lists.List.Forall_forall. intros e He. subst arr.
    apply in_map_iff in He. destruct He as [[k c] [<- He]]. simpl.
    destruct (TopicFacts.countsOf_entries _ _ _ _ He) as (H1 & H2 & H3).
    repeat split; try assumption.
    rewrite TopicFacts.countsOf_tally in He. apply TopicFacts.tallyOf_entries in He.
    assert (Hin : In k (TopicFacts.matchSequence posts keywords))
      by (apply TopicFacts.occ_present; lia).
    apply TopicFacts.In_matchSequence in Hin. destruct Hin as [kl Hkl].
    pose proof (TopicFacts.origByLowerOf_reportedAs _ _ _ Hkl) as Hr.
    apply TopicFacts.origByLowerOf_entries in Hkl. destruct Hkl as [_ ->]. exact Hr. }
  assert (Hkeys : map Bsky.keyword arr = TopicFacts.firstMentions posts keywords).
  { subst arr. rewrite map_map, <- TopicFacts.firstMatchOrder_firstMentions,
      <- TopicFacts.countsOf_keys.
    apply map_ext. now intros [k c]. }
  assert (Hin : forall e, In e (firstn 10 sorted) -> In e arr).
  { intros e He. apply (sort_In (fun a b => Bsky.count b - Bsky.count a)).
    fold sorted. rewrite <- (firstn_skipn 10 sorted). apply in_or_app. now left. }
  split; [|split; [|split; [|split; [|split]]]].
  - apply firstn_le_length.
  - apply Stdlib.Lists.List.Forall_forall. intros e He.
    eapply Stdlib.Lists.List.Forall_forall in Harr; eauto.
  - apply (StronglySorted_firstn Bsky.count). apply (sort_desc Bsky.count).
  - assert (Hnd : List.NoDup (map Bsky.keyword sorted)).
    { eapply Permutation_NoDup.
      - apply Permutation_map. apply (sort_perm (fun a b => Bsky.count b - Bsky.count a)).
      - rewrite Hkeys. apply TopicFacts.firstOcc_NoDup. }
    rewrite <- (firstn_skipn 10 sorted), map_app in Hnd.
    now apply NoDup_app_remove_r in Hnd.
  - intros c.
    destruct (filter_firstn_prefix (fun e => Bsky.count e =? c) 10 sorted) as [rest Hrest].
    exists (map Bsky.keyword rest).
    rewrite <- map_app, <- Hrest. subst sorted.
    rewrite (sort_stable Bsky.count), <- Hkeys.
    apply filter_map_agree.
    eapply Stdlib.Lists.List.Forall_impl; [|exact Harr].
    intros e [_ [He _]]. exact He.
  - intros Hnd. unfold TopicFacts.firstMentions. f_equal.
    apply flat_map_ext. intros p. now apply TopicFacts.mentionedIn_configured.
Qed.

(** ** The tick stream *)

Module StreamFacts.
Import Stream.

Ltac break_step :=
  repeat match goal with
         | |- context [if ?b then _ else _] => destruct b eqn:?
         | |- context [match ?x with Some _ => _ | None => _ end] => destruct x eqn:?
         | |- context [match ?x with phase _ => _ | ended => _ end] => destruct x eqn:?
         | |- context [match ?x with AwaitBuild _ _ => _ | _ => _ end] => destruct x eqn:?
         end.

Ltac cbn_fields :=
  cbn [out loop tick closed stopped pinger closer closerArmed pingerArmed sleepArmed] in *.

Ltac unfold_handler :=
  unfold afterBuild, beginIteration, catchTick, exitLoop, sleep, enqueue, close,
    clearPinger, clearCloser, set_stopped, set_loop;
  cbn_fields.

Ltac clean_eqs :=
  subst; cbn beta iota in *;
  repeat match goal with
         | H : _ /\ _ |- _ => destruct H
         | H : Some _ = None |- _ => discriminate H
         | H : None = Some _ |- _ => discriminate H
         | H : Some _ = Some _ |- _ => inversion H; clear H; subst
         | H : AwaitBuild _ _ = AwaitBuild _ _ |- _ => inversion H; clear H; subst
         | H : AwaitBuild _ _ = Sleeping |- _ => discriminate H
         | H : AwaitBuild _ _ = Exited |- _ => discriminate H
         | H : Sleeping = AwaitBuild _ _ |- _ => discriminate H
         | H : Exited = AwaitBuild _ _ |- _ => discriminate H
         | H : true = false |- _ => discriminate H
         | H : false = true |- _ => discriminate H
         end.

Section Runs.
Variable forceWindow : option Phase.

(** Reachability as an induction principle: what holds at the start
    and is kept by every step holds after every run. *)
Lemma run_invariant (P : St -> Prop) s events :
  P s -> (forall s e, P s -> P (step forceWindow s e)) ->
  P (run forceWindow s events).
Proof.
  intros H0 Hstep. revert s H0.
  induction events as [|e events IH]; intros s H0; simpl; auto.
Qed.

(** *** Tick numbers and frame ids *)

Variable startTick : Z.

Definition tickFrameOk (f : Frame) : Prop :=
  match f with
  | Tick id payloadTick _ => id = payloadTick + 1 /\ startTick <= payloadTick
  | _ => True
  end.

Definition ticksOk (s : St) : Prop :=
  Forall tickFrameOk (out s)
  /\ match loop s with
     | AwaitBuild _ tickArg => tick s = tickArg + 1 /\ startTick <= tickArg
     | _ => startTick <= tick s
     end.

Lemma step_ticksOk s e : ticksOk s -> ticksOk (step forceWindow s e).
Proof.
  unfold ticksOk.
  destruct s as [tk st cl pg ca pa sa cd lp ot].
  cbn [out loop tick]. intros [Hout Hloop].
  destruct e; cbn [step loop]; unfold_handler; break_step; cbn_fields;
    clean_eqs; cbn_fields; repeat split;
    repeat match goal with
           | |- Forall _ (_ ++ _) => apply Forall_app; split
           | |- Forall _ [_] => constructor; [|constructor]
           | |- tickFrameOk _ => unfold tickFrameOk
           end;
    auto; try lia.
Qed.
End Runs.

Lemma start_ticksOk forceWindow param header read :
  ticksOk (startTickOf param header) (start forceWindow param header read).
Proof.
  unfold ticksOk, start. unfold_handler. break_step; cbn_fields; clean_eqs;
    repeat split;
    repeat match goal with
           | |- Forall _ (_ ++ _) => apply Forall_app; split
           | |- Forall _ (_ :: _) => constructor
           | |- Forall _ [] => constructor
           | |- tickFrameOk _ _ => exact I
           end;
    try lia.
Qed.

Lemma startTickOf_param param header n :
  JS.Number param = Some n -> 0 <= n -> startTickOf (Some param) header = n + 1.
Proof.
  intros H Hn. unfold startTickOf. cbn [JS.Number_opt]. rewrite H.
  destruct (n >=? 0) eqn:E; [reflexivity|].
  rewrite Z.geb_leb in E. apply Z.leb_gt in E. lia.
Qed.

(** *** Timers *)

(** The heartbeat is pending only while its handle is held and the
    stream is open; the cap timeout is pending only while its handle
    is held. *)
Definition timersOk (s : St) : Prop :=
  (pinger s = false -> pingerArmed s = false)
  /\ (closed s = true -> pingerArmed s = false)
  /\ (closer s = false -> closerArmed s = false).

Lemma step_timersOk forceWindow s e : timersOk s -> timersOk (step forceWindow s e).
Proof.
  unfold timersOk. destruct s as [tk st cl pg ca pa sa cd lp ot]. cbn_fields.
  intros [H1 [H2 H3]].
  destruct e; cbn [step loop]; unfold_handler; break_step; cbn_fields;
    repeat split; intros; subst; auto; try discriminate.
Qed.

Lemma start_timersOk forceWindow param header read :
  timersOk (start forceWindow param header read).
Proof.
  unfold timersOk, start. unfold_handler. break_step; cbn_fields;
    repeat split; intros; auto; discriminate.
Qed.

(** The heartbeat is never pending once the stream is closed. *)
Lemma heartbeat_cleared_when_closed forceWindow param header read events :
  let s := run forceWindow (start forceWindow param header read) events in
  closed s = true -> pingerArmed s = false.
Proof.
  cbv zeta.
  apply (run_invariant forceWindow timersOk).
  - apply start_timersOk.
  - intros s e. apply step_timersOk.
Qed.

(** No step arms a timer again. *)
Lemma step_timers_stay_cleared forceWindow s e :
  (closerArmed s = false -> closerArmed (step forceWindow s e) = false)
  /\ (pingerArmed s = false -> pingerArmed (step forceWindow s e) = false).
Proof.
  destruct s as [tk st cl pg ca pa sa cd lp ot]. cbn_fields.
  destruct e; cbn [step loop]; unfold_handler; break_step; cbn_fields;
    split; intros; subst; auto; try discriminate.
Qed.

(** The connection cap, when it fires, leaves no timer pending. *)
Lemma cap_clears_timers forceWindow s :
  timersOk s -> closerArmed s = true ->
  let s' := step forceWindow s CapElapsed in
  closerArmed s' = false /\ pingerArmed s' = false
  /\ closed s' = true /\ stopped s' = true.
Proof.
  unfold timersOk. destruct s as [tk st cl pg ca pa sa cd lp ot]. cbn_fields.
  intros [H1 [H2 H3]] Harmed. subst ca.
  cbn [step]. unfold_handler. break_step; cbn_fields; repeat split; auto.
Qed.

(** Cancellation of an open stream leaves no timer pending. *)
Lemma cancel_clears_timers forceWindow s :
  timersOk s -> closed s = false ->
  let s' := step forceWindow s Cancel in
  closerArmed s' = false /\ pingerArmed s' = false
  /\ closed s' = true /\ stopped s' = true.
Proof.
  unfold timersOk. destruct s as [tk st cl pg ca pa sa cd lp ot]. cbn_fields.
  intros [H1 [H2 H3]] Hopen. subst cd.
  cbn [step]. unfold_handler. break_step; cbn_fields; repeat split; auto.
Qed.

Definition isShutdown (e : Event) : bool :=
  match e with CapElapsed | Cancel => true | _ => false end.

(** Only the cap itself and a cancellation touch the cap timeout. *)
Lemma step_keeps_cap_timer forceWindow s e :
  isShutdown e = false ->
  closerArmed (step forceWindow s e) = closerArmed s.
Proof.
  destruct s as [tk st cl pg ca pa sa cd lp ot]. cbn_fields.
  destruct e; cbn [isShutdown]; intros He; try discriminate;
    cbn [step loop]; unfold_handler; break_step; cbn_fields; reflexivity.
Qed.

Lemma cap_timer_pending_until_shutdown forceWindow param header read events :
  forallb (fun e => negb (isShutdown e)) events = true ->
  closerArmed (run forceWindow (start forceWindow param header read) events) = true.
Proof.
  assert (H0 : closerArmed (start forceWindow param header read) = true) by reflexivity.
  revert H0. generalize (start forceWindow param header read).
  induction events as [|e events IH]; intros s H0 Hall; [exact H0|].
  cbn [forallb] in Hall. apply andb_prop in Hall. destruct Hall as [He Hall].
  cbn [run fold_left]. apply IH; [|exact Hall].
  rewrite step_keeps_cap_timer; [exact H0|]. now destruct (isShutdown e).
Qed.
End StreamFacts.

(** C2. Started with [?lastEventId=] a non-negative number [n], the
    handler computes [startTick = n + 1]; every tick frame it ever emits
    carries an id one above the tick number of its payload, and tick
    numbers start at [n + 1]: the first tick frame has id [n + 2], not
    [n + 1], and consecutive successful ticks carry consecutive ids. *)
Theorem tick_frame_ids
    (forceWindow : option Stream.Phase) (param : string) (header : option string)
    (read : option Stream.WindowState) (events : list Stream.Event) (n : Z) :
  JS.Number param = Some n ->
  0 <= n ->
  Stream.startTickOf (Some param) header = n + 1
  /\ Forall (fun f => match f with
                      | Stream.Tick id payloadTick _ =>
                          id = payloadTick + 1 /\ n + 1 <= payloadTick
                      | _ => True
                      end)
            (Stream.out (Stream.run forceWindow
                           (Stream.start forceWindow (Some param) header read) events))
  /\ (forall w,
        Stream.out (Stream.run (Some w) (Stream.start (Some w) (Some param) header read)
                      [Stream.BuildResolved])
        = [Stream.Meta; Stream.Tick (n + 2) (n + 1) w])
  /\ (forall w r,
        Stream.tickIds
          (Stream.out (Stream.run (Some w) (Stream.start (Some w) (Some param) header read)
                         [Stream.BuildResolved; Stream.IntervalElapsed r;
                          Stream.BuildResolved]))
        = [n + 2; n + 3]).
Proof.
  intros Hparse Hn.
  pose proof (StreamFacts.startTickOf_param param header n Hparse Hn) as Hstart.
  split; [exact Hstart|]. split; [|split].
  - pose proof (StreamFacts.run_invariant forceWindow
                  (StreamFacts.ticksOk (n + 1))
                  (Stream.start forceWindow (Some param) header read) events) as H.
    destruct H as [H _].
    + rewrite <- Hstart. apply StreamFacts.start_ticksOk.
    + intros s e. apply StreamFacts.step_ticksOk.
    + exact H.
  - intros w. unfold Stream.start. rewrite Hstart.
    replace (n + 2) with (n + 1 + 1) by lia.
    reflexivity.
  - intros w r. unfold Stream.start. rewrite Hstart.
    replace (n + 2) with (n + 1 + 1) by lia.
    replace (n + 3) with (n + 1 + 1 + 1) by lia.
    reflexivity.
Qed.

(** Resuming with [lastEventId=5]: the first tick frame has id 7 and
    carries tick 6. *)
Lemma tick_frame_ids_resume_5 :
  Stream.startTickOf (Some "5"%string) None = 5 + 1
  /\ Forall (fun f => match f with
                      | Stream.Tick id payloadTick _ =>
                          id = payloadTick + 1 /\ 5 + 1 <= payloadTick
                      | _ => True
                      end)
            (Stream.out (Stream.run (Some Stream.live)
                           (Stream.start (Some Stream.live) (Some "5"%string) None None)
                           [Stream.BuildResolved]))
  /\ (forall w,
        Stream.out (Stream.run (Some w) (Stream.start (Some w) (Some "5"%string) None None)
                      [Stream.BuildResolved])
        = [Stream.Meta; Stream.Tick (5 + 2) (5 + 1) w])
  /\ (forall w r,
        Stream.tickIds
          (Stream.out (Stream.run (Some w) (Stream.start (Some w) (Some "5"%string) None None)
                         [Stream.BuildResolved; Stream.IntervalElapsed r;
                          Stream.BuildResolved]))
        = [5 + 2; 5 + 3]).
Proof.
  apply (tick_frame_ids (Some Stream.live) "5" None None [Stream.BuildResolved] 5).
  - reflexivity.
  - lia.
Defined.

(** C9. On the natural end of the stream (the window state is [ended]
    and no window is forced) the loop emits the tick and the [ended]
    frame, clears the heartbeat and closes the stream, but the
    connection-cap timeout is still pending after the close: only
    [cancel] clears it. *)
Theorem natural_end_leaves_cap_timer_pending
    (lastEventIdParam lastEventIdHeader : option string) :
  let s := Stream.run None
             (Stream.start None lastEventIdParam lastEventIdHeader (Some Stream.ended))
             [Stream.BuildResolved] in
  Stream.closed s = true
  /\ Stream.loop s = Stream.Exited
  /\ Stream.out s
     = [Stream.Meta;
        Stream.Tick (Stream.startTickOf lastEventIdParam lastEventIdHeader + 1)
                    (Stream.startTickOf lastEventIdParam lastEventIdHeader) Stream.post;
        Stream.Ended]
  /\ Stream.pingerArmed s = false
  /\ Stream.closerArmed s = true
  /\ Stream.closer s = true.
Proof. cbv zeta. repeat split; reflexivity. Qed.

(** ** The summaries budget *)

Module SummariesFacts.
Import Summaries.

(** The three variables of the token budget. *)
Definition budgetVars : list string :=
  ["SUMMARIES_MODEL_MAX_TOKENS"; "SUMMARIES_RESPONSE_TOKENS";
   "SUMMARIES_CHARS_PER_TOKEN"]%string.

(** The environment set up by [budget.test.ts]. *)
Definition testEnv : gmap string string :=
  <["OPENAI_API_KEY"%string := "test-key"%string]>
    (<["SUMMARIES_MODEL_MAX_TOKENS"%string := "1000"%string]>
       (<["SUMMARIES_RESPONSE_TOKENS"%string := "600"%string]>
          (<["SUMMARIES_CHARS_PER_TOKEN"%string := "1"%string]>
             (<["SUPABASE_URL"%string := "http://localhost:54321"%string]>
                (<["SUPABASE_SERVICE_ROLE_KEY"%string := "service-key"%string]> ∅))))).

(** The line of one of its posts: fifty characters of text behind the
    timestamp and the handle; the test produces two hundred of them. *)
Definition testLine : string :=
  ("[2025-10-19T12:00:00.000Z] @user1.example: "
   ++ String.concat "" (List.repeat "x" 50))%string.

Definition testLines : list string := List.repeat testLine 200.

Lemma substring_length (n : nat) (s : string) :
  String.length (String.substring 0 n s) = Nat.min n (String.length s).
Proof.
  revert s. induction n as [|n IH]; intros [|c s]; simpl; auto.
Qed.

(** The prompt text is bounded by [MAX_CHARS_ENV]. *)
Lemma joinedOf_length env lines m :
  MAX_CHARS_ENV env = Some m -> 0 <= m ->
  Z.of_nat (String.length (joinedOf env lines)) <= m.
Proof.
  intros Hm Hpos. unfold joinedOf. rewrite Hm.
  destruct (_ >? m) eqn:E.
  - unfold JS.str_slice0. destruct (m <? 0) eqn:E0; [apply Z.ltb_lt in E0; lia|].
    rewrite substring_length. lia.
  - lia.
Qed.

(** The prompt text does not depend on the token-budget variables. *)
Lemma joinedOf_ignores_budget env lines k v :
  In k budgetVars -> joinedOf (<[k := v]> env) lines = joinedOf env lines.
Proof.
  intros Hk. unfold joinedOf, textsOf, MAX_CHARS_ENV, MAX_POSTS_ENV.
  assert (H1 : k <> "SUMMARIES_MAX_POSTS"%string)
    by (intros ->; cbn in Hk; intuition discriminate).
  assert (H2 : k <> "SUMMARIES_MAX_CHARS"%string)
    by (intros ->; cbn in Hk; intuition discriminate).
  now rewrite !lookup_insert_ne by assumption.
Qed.
End SummariesFacts.

(** C5. The route does not compute [(modelMaxTokens - reservedResponseTokens)
    * charsPerToken]: it cuts the joined text at [MAX_CHARS_ENV], which
    is 12000 unless [SUMMARIES_MAX_CHARS] is set. In the environment of
    the budget test (1000 tokens, 600 reserved, one character per token,
    hence 400 characters available) the text forwarded for the test's
    posts, and the audited [chars_count], have 12000 characters. *)
Theorem budget_not_applied_to_prompt :
  Summaries.availableChars 1000 600 1 = 400
  /\ Summaries.MAX_CHARS_ENV SummariesFacts.testEnv = Some 12000
  /\ Summaries.forwarded SummariesFacts.testEnv [] 0 SummariesFacts.testLines
     = Some (Summaries.joinedOf SummariesFacts.testEnv SummariesFacts.testLines)
  /\ Z.of_nat (String.length
                 (Summaries.joinedOf SummariesFacts.testEnv SummariesFacts.testLines))
     = 12000
  /\ Summaries.chars_count SummariesFacts.testEnv SummariesFacts.testLines = 12000.
Proof. repeat split; vm_compute; reflexivity. Qed.

(** * Further properties of the services *)

(** ** What the selectors return *)

Lemma fold_left_push_Forall_in {A B : Type} (P : A -> Prop)
    (f : list A -> B -> list A) (xs : list B) :
  (forall acc b, In b xs -> Forall P acc -> Forall P (f acc b)) ->
  forall acc, Forall P acc -> Forall P (fold_left f xs acc).
Proof.
  induction xs as [|x xs IH]; simpl; intros Hf acc Ha; [exact Ha|].
  apply IH.
  - intros acc' b Hb. apply Hf. now right.
  - apply Hf; [now left|exact Ha].
Qed.

Module SelectorOrigin.

(** Where a selected Bluesky account comes from: an include rule, whose
    profile it carries with the forced or the computed verdict, or the
    allowlist, with the computed verdict. *)
Definition bskyOrigin (cfg : Config) (Date_parse : string -> option Z) (now : Z)
    (fetchProfilesByActors : list string -> list Bsky.BskyProfileBasic)
    (base : list Bsky.BskyProfileBasic) (inc : list Override.Rule)
    (a : Bsky.SelectedAccount) : Prop :=
  (exists o,
      In o inc
      /\ Bsky.includeByKeyOf fetchProfilesByActors inc !! Bsky.ruleKey o
         = Some (Bsky.profile a)
      /\ Bsky.eligibility a
         = if Override.bypass_eligibility o then adminBypass
           else Bsky.computeEligibility cfg Date_parse now (Bsky.profile a))
  \/ (In (Bsky.profile a) base
      /\ Bsky.eligibility a = Bsky.computeEligibility cfg Date_parse now (Bsky.profile a)).

Definition twitterOrigin (cfg : Config) (Date_parse : string -> option Z) (now : Z)
    (base : list Twitter.TwitterProfileBasic) (inc : list Override.Rule)
    (a : Twitter.SelectedAccount) : Prop :=
  (exists o,
      In o inc
      /\ Twitter.includeByKeyOf inc !! Twitter.ruleKey o = Some (Twitter.profile a)
      /\ Twitter.eligibility a
         = if Override.bypass_eligibility o then adminBypass
           else Twitter.computeEligibility cfg Date_parse now (Twitter.profile a))
  \/ (In (Twitter.profile a) base
      /\ Twitter.eligibility a
         = Twitter.computeEligibility cfg Date_parse now (Twitter.profile a)).

Lemma bsky_include_origin cfg Date_parse now fetch base inc exc :
  Forall (fun a => eligible (Bsky.eligibility a) = true
                   /\ bskyOrigin cfg Date_parse now fetch base inc a)
         (Bsky.selectedIncludeOf cfg Date_parse now fetch inc exc).
Proof.
  unfold Bsky.selectedIncludeOf.
  apply fold_left_push_Forall_in; [|constructor].
  intros acc o Ho Hacc. unfold Bsky.includeStep.
  destruct (_ !! Bsky.ruleKey o) as [p|] eqn:Hp; [|exact Hacc].
  destruct (Bsky.isExcluded _ p); [exact Hacc|].
  destruct (Override.bypass_eligibility o) eqn:Hb; cbn [negb andb].
  - apply Forall_app. split; [exact Hacc|]. constructor; [|constructor].
    split; [reflexivity|]. left. exists o. cbn. rewrite Hb. auto.
  - destruct (eligible (Bsky.computeEligibility cfg Date_parse now p)) eqn:He;
      cbn [negb]; [|exact Hacc].
    apply Forall_app. split; [exact Hacc|]. constructor; [|constructor].
    split; [exact He|]. left. exists o. cbn. rewrite Hb. auto.
Qed.

Lemma bsky_base_origin cfg Date_parse now fetch base inc exc :
  Forall (fun a => eligible (Bsky.eligibility a) = true
                   /\ bskyOrigin cfg Date_parse now fetch base inc a)
         (Bsky.selectedBaseOf cfg Date_parse now fetch base inc exc).
Proof.
  unfold Bsky.selectedBaseOf.
  apply fold_left_push_Forall_in; [|constructor].
  intros acc p Hp Hacc. unfold Bsky.baseStep.
  destruct (Bsky.isExcluded _ p); [exact Hacc|].
  destruct (List.find _ _); [exact Hacc|].
  destruct (eligible (Bsky.computeEligibility cfg Date_parse now p)) eqn:He;
    cbn [negb]; [|exact Hacc].
  apply Forall_app. split; [exact Hacc|]. constructor; [|constructor].
  split; [exact He|]. right. cbn. auto.
Qed.

Lemma twitter_include_origin cfg Date_parse now base inc exc :
  Forall (fun a => eligible (Twitter.eligibility a) = true
                   /\ twitterOrigin cfg Date_parse now base inc a)
         (Twitter.selectedIncludeOf cfg Date_parse now inc exc).
Proof.
  unfold Twitter.selectedIncludeOf.
  apply fold_left_push_Forall_in; [|constructor].
  intros acc o Ho Hacc. unfold Twitter.includeStep.
  destruct (_ !! Twitter.ruleKey o) as [p|] eqn:Hp; [|exact Hacc].
  destruct (Twitter.isExcluded _ p); [exact Hacc|].
  destruct (Override.bypass_eligibility o) eqn:Hb; cbn [negb andb].
  - apply Forall_app. split; [exact Hacc|]. constructor; [|constructor].
    split; [reflexivity|]. left. exists o. cbn. rewrite Hb. auto.
  - destruct (eligible (Twitter.computeEligibility cfg Date_parse now p)) eqn:He;
      cbn [negb]; [|exact Hacc].
    apply Forall_app. split; [exact Hacc|]. constructor; [|constructor].
    split; [exact He|]. left. exists o. cbn. rewrite Hb. auto.
Qed.

Lemma twitter_base_origin cfg Date_parse now base inc exc :
  Forall (fun a => eligible (Twitter.eligibility a) = true
                   /\ twitterOrigin cfg Date_parse now base inc a)
         (Twitter.selectedBaseOf cfg Date_parse now base inc exc).
Proof.
  unfold Twitter.selectedBaseOf.
  apply fold_left_push_Forall_in; [|constructor].
  intros acc p Hp Hacc. unfold Twitter.baseStep.
  destruct (Twitter.isExcluded _ p); [exact Hacc|].
  destruct (List.find _ _); [exact Hacc|].
  destruct (eligible (Twitter.computeEligibility cfg Date_parse now p)) eqn:He;
    cbn [negb]; [|exact Hacc].
  apply Forall_app. split; [exact Hacc|]. constructor; [|constructor].
  split; [exact He|]. right. cbn. auto.
Qed.

(** What holds of the include list and of the base list holds of what
    [mergeAndCap] returns. *)
Lemma mergeAndCap_Forall {Acc : Type} (P : Acc -> Prop) followersOf maxAccounts
    (inc base : list Acc) :
  Forall P inc -> Forall P base ->
  Forall P (mergeAndCap followersOf maxAccounts inc base).
Proof.
  intros Hi Hb. apply Stdlib.Lists.List.Forall_forall. intros a Ha.
  apply mergeAndCap_from in Ha.
  destruct Ha as [Ha|Ha];
    [eapply Stdlib.Lists.List.Forall_forall in Hi|eapply Stdlib.Lists.List.Forall_forall in Hb];
    eauto.
Qed.

End SelectorOrigin.

(** X1. Neither selector ever returns an account whose verdict is
    ineligible, and every returned account is accounted for: it carries
    the profile stored under the key of an include rule (with the forced
    verdict when the rule bypasses, the computed one otherwise) or a
    profile of the allowlist with its computed verdict. *)
Theorem selected_accounts_eligible_and_accounted_for
    (cfg : Config) (Date_parse : string -> option Z) (now : Z) :
  (forall fetchProfilesByActors base inc exc,
     Forall (fun a => eligible (Bsky.eligibility a) = true
                      /\ SelectorOrigin.bskyOrigin cfg Date_parse now
                           fetchProfilesByActors base inc a)
            (Bsky.selectEligibleAccounts cfg Date_parse now fetchProfilesByActors
               base inc exc))
  /\ (forall base inc exc,
        Forall (fun a => eligible (Twitter.eligibility a) = true
                         /\ SelectorOrigin.twitterOrigin cfg Date_parse now base inc a)
               (Twitter.selectEligibleAccounts cfg Date_parse now base inc exc)).
Proof.
  split; intros.
  - apply SelectorOrigin.mergeAndCap_Forall.
    + apply SelectorOrigin.bsky_include_origin.
    + apply SelectorOrigin.bsky_base_origin.
  - apply SelectorOrigin.mergeAndCap_Forall.
    + apply SelectorOrigin.twitter_include_origin.
    + apply SelectorOrigin.twitter_base_origin.
Qed.

Module SelectorMore.

Lemma truthy_nonempty (s : string) : s <> ""%string -> JS.truthy s = true.
Proof. destruct s; [congruence|reflexivity]. Qed.

Lemma bsky_excluded_absent exc e p :
  In e exc -> Override.identifier e <> ""%string ->
  Bsky.isExcluded (Bsky.buildExcludeKeys exc) p = false ->
  match Override.identifier_type e with
  | Override.did => Bsky.did p <> Override.identifier e
  | _ => Bsky.handle p <> Override.identifier e
  end.
Proof.
  intros He Hid Hx.
  assert (Hin : Bsky.ruleKey e ∈ Bsky.buildExcludeKeys exc)
    by (apply BskyFacts.bsky_elem_of_buildExcludeKeys; eauto).
  unfold Bsky.isExcluded in Hx. cbv zeta in Hx.
  apply orb_false_iff in Hx. destruct Hx as [H1 H2].
  unfold Bsky.ruleKey in Hin.
  destruct (Override.identifier_type e); intros Heq; rewrite Heq in *;
    rewrite (truthy_nonempty _ Hid) in *;
    first [ apply bool_decide_eq_false in H1; now apply H1
          | apply bool_decide_eq_false in H2; now apply H2 ].
Qed.

Lemma twitter_excluded_absent exc e p :
  In e exc -> Override.identifier e <> ""%string ->
  Twitter.isExcluded (Twitter.buildExcludeKeys exc) p = false ->
  match Override.identifier_type e with
  | Override.user_id => Twitter.user_id p <> Some (Override.identifier e)
  | _ => Twitter.handle p <> Override.identifier e
  end.
Proof.
  intros He Hid Hx.
  assert (Hin : Twitter.ruleKey e ∈ Twitter.buildExcludeKeys exc)
    by (apply TwitterFacts.twitter_elem_of_buildExcludeKeys; eauto).
  unfold Twitter.isExcluded in Hx. cbv zeta in Hx.
  apply orb_false_iff in Hx. destruct Hx as [H1 H2].
  unfold Twitter.ruleKey in Hin.
  destruct (Override.identifier e) as [|c s] eqn:Hi; [congruence|].
  destruct (Override.identifier_type e); intros Heq; rewrite Heq in *;
    cbn [JS.truthy] in *;
    first [ apply bool_decide_eq_false in H1; now apply H1
          | apply bool_decide_eq_false in H2; now apply H2 ].
Qed.

(** The uncapped branch of [mergeAndCap]: a sorted rearrangement. *)
Lemma mergeAndCap_uncapped {Acc : Type} (followersOf : Acc -> option Z) (maxAccounts : Z)
    (inc base : list Acc) :
  Z.of_nat (length (inc ++ base)) <= maxAccounts ->
  Permutation (inc ++ base) (mergeAndCap followersOf maxAccounts inc base)
  /\ StronglySorted
       (fun a b => JS.nullish (followersOf a) 0 >= JS.nullish (followersOf b) 0)
       (mergeAndCap followersOf maxAccounts inc base).
Proof.
  intros H. unfold mergeAndCap. rewrite sort_length.
  destruct (_ >? _) eqn:E; [lia|]. split.
  - apply sort_perm.
  - apply (sort_desc (fun a => JS.nullish (followersOf a) 0)).
Qed.

Lemma twitter_includeByKeyOf_ruleProfile inc k p :
  Twitter.includeByKeyOf inc !! k = Some p -> exists o, In o inc /\ p = Twitter.ruleProfile o.
Proof.
  unfold Twitter.includeByKeyOf.
  induction inc as [|x inc IH] using rev_ind;
    [cbn [fold_left]; rewrite lookup_empty; discriminate|].
  rewrite fold_left_app. cbn [fold_left].
  destruct (decide (Twitter.ruleKey x = k)) as [<-|Hne].
  - rewrite lookup_insert_eq. intros [= <-]. exists x. split; [|reflexivity].
    apply in_or_app. right. now left.
  - rewrite lookup_insert_ne by exact Hne. intros H.
    destruct (IH H) as [o [Ho ->]]. exists o. split; [|reflexivity].
    apply in_or_app. now left.
Qed.

End SelectorMore.

(** X2. No account returned by a selector carries an identifier named by
    an exclude rule: on Bluesky no returned profile has the DID of a DID
    exclude rule or the handle of any other exclude rule, on Twitter none
    has the user id of a user-id rule or the handle of any other (the
    rule's identifier being non-empty). *)
Theorem excluded_identifiers_absent
    (cfg : Config) (Date_parse : string -> option Z) (now : Z) :
  (forall fetchProfilesByActors base inc exc e,
     In e exc -> Override.identifier e <> ""%string ->
     Forall (fun a => match Override.identifier_type e with
                      | Override.did =>
                          Bsky.did (Bsky.profile a) <> Override.identifier e
                      | _ => Bsky.handle (Bsky.profile a) <> Override.identifier e
                      end)
            (Bsky.selectEligibleAccounts cfg Date_parse now fetchProfilesByActors
               base inc exc))
  /\ (forall base inc exc e,
        In e exc -> Override.identifier e <> ""%string ->
        Forall (fun a => match Override.identifier_type e with
                         | Override.user_id =>
                             Twitter.user_id (Twitter.profile a)
                             <> Some (Override.identifier e)
                         | _ => Twitter.handle (Twitter.profile a) <> Override.identifier e
                         end)
               (Twitter.selectEligibleAccounts cfg Date_parse now base inc exc)).
Proof.
  split; intros; apply Stdlib.Lists.List.Forall_forall; intros a Ha.
  - apply SelectorMore.bsky_excluded_absent with (exc := exc); auto.
    eapply BskyFacts.bsky_selected_notExcluded; eauto.
  - apply SelectorMore.twitter_excluded_absent with (exc := exc); auto.
    eapply TwitterFacts.twitter_selected_notExcluded; eauto.
Qed.

(** An allowlisted and eligible account disappears from the Bluesky
    selection once its handle is excluded. *)
Lemma excluded_identifiers_absent_witness :
  Forall (fun a => Bsky.handle (Bsky.profile a) <> "alice.bsky.social"%string)
         (Bsky.selectEligibleAccounts SelectorFacts.capOne SelectorFacts.neverParses 0
            SelectorFacts.lookupFails
            [Bsky.mkProfile "did:plc:abc" "alice.bsky.social" None (Some 900) None None]
            [] [SelectorFacts.rule "alice.bsky.social" Override.handle None false]).
Proof.
  destruct (excluded_identifiers_absent SelectorFacts.capOne SelectorFacts.neverParses 0)
    as [Hbsky _].
  apply (Hbsky SelectorFacts.lookupFails
           [Bsky.mkProfile "did:plc:abc" "alice.bsky.social" None (Some 900) None None]
           [] [SelectorFacts.rule "alice.bsky.social" Override.handle None false]
           (SelectorFacts.rule "alice.bsky.social" Override.handle None false)).
  - left. reflexivity.
  - discriminate.
Defined.

(** X3. An allowlist account is never selected under the key of a
    selected include account: the base list holds no profile whose key
    ([did] or user id when present, else handle) is the key of a member
    of the include list. *)
Theorem base_never_duplicates_include
    (cfg : Config) (Date_parse : string -> option Z) (now : Z) :
  (forall fetchProfilesByActors base inc exc,
     Forall (fun a =>
               Forall (fun i => Bsky.keyOf (Bsky.profile i) <> Bsky.keyOf (Bsky.profile a))
                      (Bsky.selectedIncludeOf cfg Date_parse now fetchProfilesByActors
                         inc exc))
            (Bsky.selectedBaseOf cfg Date_parse now fetchProfilesByActors base inc exc))
  /\ (forall base inc exc,
        Forall (fun a =>
                  Forall (fun i => Twitter.keyOf (Twitter.profile i)
                                   <> Twitter.keyOf (Twitter.profile a))
                         (Twitter.selectedIncludeOf cfg Date_parse now inc exc))
               (Twitter.selectedBaseOf cfg Date_parse now base inc exc)).
Proof.
  split; intros.
  - unfold Bsky.selectedBaseOf. apply fold_left_push_Forall; [|constructor].
    intros acc p Hacc. unfold Bsky.baseStep.
    destruct (Bsky.isExcluded _ p); [exact Hacc|].
    destruct (List.find _ _) eqn:Hf; [exact Hacc|].
    destruct (negb _); [exact Hacc|].
    apply Forall_app. split; [exact Hacc|]. constructor; [|constructor].
    apply Stdlib.Lists.List.Forall_forall. intros i Hi. cbn.
    apply (find_none _ _ Hf) in Hi. now apply String.eqb_neq in Hi.
  - unfold Twitter.selectedBaseOf. apply fold_left_push_Forall; [|constructor].
    intros acc p Hacc. unfold Twitter.baseStep.
    destruct (Twitter.isExcluded _ p); [exact Hacc|].
    destruct (List.find _ _) eqn:Hf; [exact Hacc|].
    destruct (negb _); [exact Hacc|].
    apply Forall_app. split; [exact Hacc|]. constructor; [|constructor].
    apply Stdlib.Lists.List.Forall_forall. intros i Hi. cbn.
    apply (find_none _ _ Hf) in Hi. now apply String.eqb_neq in Hi.
Qed.

(** X4. The two shapes of a selection. While the include and base lists
    together fit the platform maximum, the result is their rearrangement
    in descending order of follower count (missing counts as 0). Once
    they exceed it, the result is the include list in rule order followed
    by the first base accounts in allowlist order, not sorted. *)
Theorem selection_sorted_or_capped
    (cfg : Config) (Date_parse : string -> option Z) (now : Z) :
  (forall fetchProfilesByActors base inc exc,
     let includes := Bsky.selectedIncludeOf cfg Date_parse now fetchProfilesByActors
                       inc exc in
     let bases := Bsky.selectedBaseOf cfg Date_parse now fetchProfilesByActors
                    base inc exc in
     let out := Bsky.selectEligibleAccounts cfg Date_parse now fetchProfilesByActors
                  base inc exc in
     (Z.of_nat (length (includes ++ bases)) <= MAX_ACCOUNTS cfg ->
      Permutation (includes ++ bases) out
      /\ StronglySorted
           (fun a b => JS.nullish (Bsky.followersCount (Bsky.profile a)) 0
                       >= JS.nullish (Bsky.followersCount (Bsky.profile b)) 0) out)
     /\ (Z.of_nat (length (includes ++ bases)) > MAX_ACCOUNTS cfg ->
         out = includes
               ++ firstn (Z.to_nat (Z.max (MAX_ACCOUNTS cfg - Z.of_nat (length includes)) 0))
                         bases))
  /\ (forall base inc exc,
        let includes := Twitter.selectedIncludeOf cfg Date_parse now inc exc in
        let bases := Twitter.selectedBaseOf cfg Date_parse now base inc exc in
        let out := Twitter.selectEligibleAccounts cfg Date_parse now base inc exc in
        (Z.of_nat (length (includes ++ bases)) <= MAX_ACCOUNTS cfg ->
         Permutation (includes ++ bases) out
         /\ StronglySorted
              (fun a b => JS.nullish (Twitter.followersCount (Twitter.profile a)) 0
                          >= JS.nullish (Twitter.followersCount (Twitter.profile b)) 0)
              out)
        /\ (Z.of_nat (length (includes ++ bases)) > MAX_ACCOUNTS cfg ->
            out = includes
                  ++ firstn (Z.to_nat (Z.max (MAX_ACCOUNTS cfg - Z.of_nat (length includes)) 0))
                            bases)).
Proof.
  split; intros; subst includes bases out; split; intros H.
  - apply (SelectorMore.mergeAndCap_uncapped
             (fun a => Bsky.followersCount (Bsky.profile a))). exact H.
  - apply mergeAndCap_capped. exact H.
  - apply (SelectorMore.mergeAndCap_uncapped
             (fun a => Twitter.followersCount (Twitter.profile a))). exact H.
  - apply mergeAndCap_capped. exact H.
Qed.

(** Two eligible allowlist accounts under a cap of two come out with the
    larger follower count first; under a cap of one only the first of the
    allowlist is kept. *)
Lemma selection_sorted_or_capped_witness :
  map (fun a => Bsky.handle (Bsky.profile a))
      (Bsky.selectEligibleAccounts
         {| MIN_FOLLOWERS := 500; MIN_ACCOUNT_MONTHS := 6; MAX_ACCOUNTS := 2 |}
         SelectorFacts.neverParses 0 SelectorFacts.lookupFails
         [Bsky.mkProfile "did:plc:a" "small.example" None (Some 600) None None;
          Bsky.mkProfile "did:plc:b" "large.example" None (Some 9000) None None] [] [])
  = ["large.example"; "small.example"]%string
  /\ map (fun a => Bsky.handle (Bsky.profile a))
         (Bsky.selectEligibleAccounts SelectorFacts.capOne
            SelectorFacts.neverParses 0 SelectorFacts.lookupFails
            [Bsky.mkProfile "did:plc:a" "small.example" None (Some 600) None None;
             Bsky.mkProfile "did:plc:b" "large.example" None (Some 9000) None None] [] [])
     = ["small.example"]%string.
Proof.
  split.
  - destruct (selection_sorted_or_capped
                {| MIN_FOLLOWERS := 500; MIN_ACCOUNT_MONTHS := 6; MAX_ACCOUNTS := 2 |}
                SelectorFacts.neverParses 0) as [Hbsky _].
    destruct (Hbsky SelectorFacts.lookupFails
                [Bsky.mkProfile "did:plc:a" "small.example" None (Some 600) None None;
                 Bsky.mkProfile "did:plc:b" "large.example" None (Some 9000) None None]
                [] []) as [Hfit _].
    destruct (Hfit ltac:(vm_compute; discriminate)) as [_ _].
    vm_compute. reflexivity.
  - destruct (selection_sorted_or_capped SelectorFacts.capOne
                SelectorFacts.neverParses 0) as [Hbsky _].
    destruct (Hbsky SelectorFacts.lookupFails
                [Bsky.mkProfile "did:plc:a" "small.example" None (Some 600) None None;
                 Bsky.mkProfile "did:plc:b" "large.example" None (Some 9000) None None]
                [] []) as [_ Hcap].
    rewrite (Hcap ltac:(vm_compute; reflexivity)). vm_compute. reflexivity.
Defined.

(** X5. With the placeholder resolver of the Twitter service (allowlist
    profiles without follower counts) and a positive follower minimum,
    the allowlist contributes nothing: every account the Twitter selector
    returns is an include that bypasses eligibility. *)
Theorem twitter_allowlist_alone_selects_nothing
    (cfg : Config) (Date_parse : string -> option Z) (now : Z)
    (handles : list string) (inc exc : list Override.Rule) :
  0 < MIN_FOLLOWERS cfg ->
  Forall (fun a => Twitter.eligibility a = adminBypass)
         (Twitter.selectEligibleAccounts cfg Date_parse now
            (Twitter.resolveAllowlistProfiles handles) inc exc)
  /\ Twitter.selectEligibleAccounts cfg Date_parse now
       (Twitter.resolveAllowlistProfiles handles) [] exc = [].
Proof.
  intros Hmin.
  assert (Hnone : forall p, Twitter.followersCount p = None ->
                            eligible (Twitter.computeEligibility cfg Date_parse now p) = false).
  { intros p Hp.
    destruct (computeEligibilityOf_contract cfg Date_parse now Twitter.unknownAge
                (Twitter.followersCount p) (Twitter.createdAt p)) as [_ [_ H]].
    unfold Twitter.computeEligibility. rewrite Hp in *. cbn [JS.nullish] in H.
    now destruct (H Hmin). }
  assert (Hall : Forall (fun a => Twitter.eligibility a = adminBypass)
                   (Twitter.selectEligibleAccounts cfg Date_parse now
                      (Twitter.resolveAllowlistProfiles handles) inc exc)).
  { assert (Htw := SelectorOrigin.mergeAndCap_Forall _
                     (fun a => Twitter.followersCount (Twitter.profile a)) (MAX_ACCOUNTS cfg)
                     _ _
                     (SelectorOrigin.twitter_include_origin cfg Date_parse now
                        (Twitter.resolveAllowlistProfiles handles) inc exc)
                     (SelectorOrigin.twitter_base_origin cfg Date_parse now
                        (Twitter.resolveAllowlistProfiles handles) inc exc)).
    eapply Stdlib.Lists.List.Forall_impl; [|apply Htw].
    intros a [Hel [[o [Ho [Hp He]]]|[Hb He]]].
    - destruct (Override.bypass_eligibility o); [exact He|].
      apply SelectorMore.twitter_includeByKeyOf_ruleProfile in Hp.
      destruct Hp as [o' [_ Hp]]. rewrite He, Hnone in Hel; [discriminate|].
      rewrite Hp. unfold Twitter.ruleProfile.
      now destruct (Override.identifier_type o').
    - rewrite He, Hnone in Hel; [discriminate|].
      unfold Twitter.resolveAllowlistProfiles in Hb. apply in_map_iff in Hb.
      destruct Hb as [h [<- _]]. reflexivity. }
  split; [exact Hall|].
  destruct (Twitter.selectEligibleAccounts cfg Date_parse now
              (Twitter.resolveAllowlistProfiles handles) [] exc) as [|a l] eqn:E;
    [reflexivity|].
  exfalso.
  assert (Htw := SelectorOrigin.mergeAndCap_Forall _
                   (fun a => Twitter.followersCount (Twitter.profile a)) (MAX_ACCOUNTS cfg)
                   _ _
                   (SelectorOrigin.twitter_include_origin cfg Date_parse now
                      (Twitter.resolveAllowlistProfiles handles) [] exc)
                   (SelectorOrigin.twitter_base_origin cfg Date_parse now
                      (Twitter.resolveAllowlistProfiles handles) [] exc)).
  fold (Twitter.selectEligibleAccounts cfg Date_parse now
          (Twitter.resolveAllowlistProfiles handles) [] exc) in Htw.
  rewrite E in Htw. inversion Htw as [|? ? [Hel [[o [[] _]]|[Hb He]]] _]; subst.
  rewrite He, Hnone in Hel; [discriminate|].
  unfold Twitter.resolveAllowlistProfiles in Hb. apply in_map_iff in Hb.
  destruct Hb as [h [<- _]]. reflexivity.
Qed.

(** With a minimum of 500 followers the three allowlisted handles yield
    no Twitter account. *)
Lemma twitter_allowlist_alone_selects_nothing_witness :
  Forall (fun a => Twitter.eligibility a = adminBypass)
         (Twitter.selectEligibleAccounts SelectorFacts.capOne SelectorFacts.neverParses 0
            (Twitter.resolveAllowlistProfiles ["arsenal"; "afcstuff"; "gunnerblog"]%string)
            [] [])
  /\ Twitter.selectEligibleAccounts SelectorFacts.capOne SelectorFacts.neverParses 0
       (Twitter.resolveAllowlistProfiles ["arsenal"; "afcstuff"; "gunnerblog"]%string)
       [] [] = [].
Proof.
  apply (twitter_allowlist_alone_selects_nothing SelectorFacts.capOne
           SelectorFacts.neverParses 0 ["arsenal"; "afcstuff"; "gunnerblog"]%string [] []).
  vm_compute. reflexivity.
Defined.

(** ** Eligibility *)

(** X6. [monthsBetween] does not depend on the order of its two dates, is
    never negative, and counts thirty days as exactly one month. *)
Theorem monthsBetween_symmetric_nonnegative (a b : option Z) :
  monthsBetween a b = monthsBetween b a
  /\ (forall q, monthsBetween a b = Some q -> (0 <= q)%Q)
  /\ (forall t, exists q,
        monthsBetween (Some t) (Some (t + 30 * 24 * 60 * 60 * 1000)) = Some q
        /\ (q == 1)%Q).
Proof.
  split; [|split].
  - destruct a as [ta|], b as [tb|]; try reflexivity.
    unfold monthsBetween. cbv zeta.
    now replace (Z.abs (tb - ta)) with (Z.abs (ta - tb)) by lia.
  - intros q H. destruct a as [ta|], b as [tb|]; try discriminate.
    injection H as <-. apply Qle_shift_div_l; [reflexivity|].
    rewrite Qmult_0_l. change 0%Q with (inject_Z 0). rewrite <- Zle_Qle. lia.
  - intros t. eexists. split; [reflexivity|].
    replace (Z.abs (t - (t + 30 * 24 * 60 * 60 * 1000))) with 2592000000 by lia.
    reflexivity.
Qed.

Module EligibilityMore.

Lemma prefix_append (a b : string) : String.prefix a (a ++ b)%string = true.
Proof.
  induction a as [|c a IH]; [now destruct b|].
  change (String c a ++ b)%string with (String c (a ++ b)%string).
  cbn [String.prefix]. destruct (ascii_dec c c); [exact IH|contradiction].
Qed.

Lemma two_reasons cfg Date_parse now unknownAge followersCount createdAt :
  String.prefix "age=" unknownAge = true ->
  exists r1 r2,
    reasons (computeEligibilityOf cfg Date_parse now unknownAge followersCount createdAt)
    = [r1; r2]
    /\ String.prefix "followers=" r1 = true
    /\ String.prefix "age=" r2 = true.
Proof.
  intros Hu. unfold computeEligibilityOf.
  destruct (JS.nullish followersCount 0 <? MIN_FOLLOWERS cfg);
    (destruct createdAt as [[|c s]|];
     [ | destruct (monthsBetween _ _) as [q|];
         [destruct (JS.Qltb q _)|] | ]);
    cbn; eexists; eexists; (split; [reflexivity|]);
    split; first [exact Hu | apply prefix_append].
Qed.

Lemma eligible_monotone cfg Date_parse now unknownAge f f' createdAt :
  JS.nullish f 0 <= JS.nullish f' 0 ->
  eligible (computeEligibilityOf cfg Date_parse now unknownAge f createdAt) = true ->
  eligible (computeEligibilityOf cfg Date_parse now unknownAge f' createdAt) = true.
Proof.
  intros Hle.
  destruct (computeEligibilityOf_contract cfg Date_parse now unknownAge f createdAt)
    as [-> _].
  destruct (computeEligibilityOf_contract cfg Date_parse now unknownAge f' createdAt)
    as [-> _].
  unfold followerCheckPassed. intros H. apply andb_prop in H. destruct H as [H1 H2].
  rewrite H2, andb_true_r. apply negb_true_iff in H1. apply Z.ltb_ge in H1.
  apply negb_true_iff. apply Z.ltb_ge. lia.
Qed.

End EligibilityMore.

(** X7. [computeEligibility] always gives exactly two reasons, whatever
    the outcome: the follower comparison first, then the age comparison
    or the unknown-age disclosure. *)
Theorem computeEligibility_two_reasons
    (cfg : Config) (Date_parse : string -> option Z) (now : Z) :
  (forall p : Bsky.BskyProfileBasic,
     exists r1 r2,
       reasons (Bsky.computeEligibility cfg Date_parse now p) = [r1; r2]
       /\ String.prefix "followers=" r1 = true
       /\ String.prefix "age=" r2 = true)
  /\ (forall p : Twitter.TwitterProfileBasic,
        exists r1 r2,
          reasons (Twitter.computeEligibility cfg Date_parse now p) = [r1; r2]
          /\ String.prefix "followers=" r1 = true
          /\ String.prefix "age=" r2 = true).
Proof.
  split; intros p; apply EligibilityMore.two_reasons; reflexivity.
Qed.

(** X8. Eligibility is monotone in the follower count: a profile that is
    eligible stays eligible with any larger follower count and the same
    creation date. *)
Theorem computeEligibility_monotone_in_followers
    (cfg : Config) (Date_parse : string -> option Z) (now : Z) :
  (forall p p' : Bsky.BskyProfileBasic,
     Bsky.createdAt p' = Bsky.createdAt p ->
     JS.nullish (Bsky.followersCount p) 0 <= JS.nullish (Bsky.followersCount p') 0 ->
     eligible (Bsky.computeEligibility cfg Date_parse now p) = true ->
     eligible (Bsky.computeEligibility cfg Date_parse now p') = true)
  /\ (forall p p' : Twitter.TwitterProfileBasic,
        Twitter.createdAt p' = Twitter.createdAt p ->
        JS.nullish (Twitter.followersCount p) 0
        <= JS.nullish (Twitter.followersCount p') 0 ->
        eligible (Twitter.computeEligibility cfg Date_parse now p) = true ->
        eligible (Twitter.computeEligibility cfg Date_parse now p') = true).
Proof.
  split; intros p p' Hc Hf He.
  - unfold Bsky.computeEligibility in *. rewrite Hc.
    eapply EligibilityMore.eligible_monotone; eauto.
  - unfold Twitter.computeEligibility in *. rewrite Hc.
    eapply EligibilityMore.eligible_monotone; eauto.
Qed.

(** A profile eligible with 600 followers is eligible with 9000. *)
Lemma computeEligibility_monotone_in_followers_witness :
  eligible (Bsky.computeEligibility SelectorFacts.capOne SelectorFacts.neverParses 0
              (Bsky.mkProfile "did:plc:a" "a.example" None (Some 9000) None None)) = true.
Proof.
  destruct (computeEligibility_monotone_in_followers SelectorFacts.capOne
              SelectorFacts.neverParses 0) as [Hbsky _].
  apply (Hbsky (Bsky.mkProfile "did:plc:a" "a.example" None (Some 600) None None)).
  - reflexivity.
  - cbn. lia.
  - reflexivity.
Defined.

(** ** Fetching posts *)

Module FetchMore.
Import Bsky.

Section Fetch.
Variable DEFAULT_RECENCY_MINUTES : Z.
Variable Date_parse : string -> option Z.
Variable now : Z.
Variable getAuthorFeed : string -> option (list Feed.Item).

(** The loops as concatenations. *)
Lemma fold_push_option {A B : Type} (f : B -> option A) (xs : list B) (acc : list A) :
  fold_left (fun out x => match f x with Some p => out ++ [p] | None => out end) xs acc
  = acc ++ flat_map (fun x => match f x with Some p => [p] | None => [] end) xs.
Proof.
  revert acc. induction xs as [|x xs IH]; intros acc; simpl.
  - now rewrite app_nil_r.
  - rewrite IH. destruct (f x); [now rewrite <- app_assoc|reflexivity].
Qed.

Lemma fold_push_list {A B : Type} (g : B -> list A) (xs : list B) (acc : list A) :
  fold_left (fun out x => out ++ g x) xs acc = acc ++ flat_map g xs.
Proof.
  revert acc. induction xs as [|x xs IH]; intros acc; simpl.
  - now rewrite app_nil_r.
  - rewrite IH. now rewrite <- app_assoc.
Qed.

Lemma fetch_flat_map accounts sinceMinutes :
  fetchRecentPostsForAccounts DEFAULT_RECENCY_MINUTES Date_parse now getAuthorFeed
    accounts sinceMinutes
  = flat_map (postsOfAccount Date_parse getAuthorFeed
                (sinceOf DEFAULT_RECENCY_MINUTES now sinceMinutes)) accounts.
Proof. unfold fetchRecentPostsForAccounts. now rewrite fold_push_list. Qed.

Lemma postsOfAccount_In_iff since acct p :
  In p (postsOfAccount Date_parse getAuthorFeed since acct)
  <-> JS.truthy (actorOf acct) = true
      /\ exists feed item,
           getAuthorFeed (actorOf acct) = Some feed
           /\ In item feed
           /\ postOfItem Date_parse since acct item = Some p.
Proof.
  unfold postsOfAccount.
  destruct (JS.truthy (actorOf acct)); cbn [negb].
  - destruct (getAuthorFeed (actorOf acct)) as [feed|].
    + rewrite fold_push_option. cbn [app]. rewrite in_flat_map. split.
      * intros [item [Hi Hp]]. split; [reflexivity|]. exists feed, item.
        destruct (postOfItem _ _ _ item) as [q|]; [|destruct Hp].
        destruct Hp as [->|[]]. auto.
      * intros [_ [feed' [item [[= <-] [Hi Hp]]]]]. exists item. split; [exact Hi|].
        rewrite Hp. now left.
    + split; [intros []|]. intros [_ [feed [item [H _]]]]. discriminate.
  - split; [intros []|]. intros [H _]. discriminate.
Qed.

Lemma postOfItem_facts since acct item p :
  postOfItem Date_parse since acct item = Some p ->
  JS.truthy (text p) = true
  /\ JS.truthy (post_createdAt p) = true
  /\ createdAtOf item = Some (post_createdAt p)
  /\ text p = textOf item
  /\ forall t, Date_parse (post_createdAt p) = Some t -> since <= t.
Proof.
  unfold postOfItem.
  destruct (createdAtOf item) as [[|c s]|]; try discriminate.
  destruct (Date_parse (String c s)) as [t|] eqn:Et.
  - destruct (t <? since) eqn:El; [discriminate|]. apply Z.ltb_ge in El.
    destruct (JS.truthy (textOf item)) eqn:Ex; cbn [negb]; [|discriminate].
    intros [= <-]. cbn. repeat split; auto. intros t' Ht'. congruence.
  - destruct (JS.truthy (textOf item)) eqn:Ex; cbn [negb]; [|discriminate].
    intros [= <-]. cbn. repeat split; auto. intros t' Ht'. congruence.
Qed.

Lemma postOfItem_widen since since' acct item p :
  since' <= since ->
  postOfItem Date_parse since acct item = Some p ->
  postOfItem Date_parse since' acct item = Some p.
Proof.
  intros Hle. unfold postOfItem.
  destruct (createdAtOf item) as [[|c s]|]; try discriminate.
  destruct (Date_parse (String c s)) as [t|]; [|auto].
  destruct (t <? since) eqn:El; [discriminate|]. apply Z.ltb_ge in El.
  destruct (t <? since') eqn:El'; [apply Z.ltb_lt in El'; lia|auto].
Qed.
End Fetch.
End FetchMore.

(** X9. Every post returned by [fetchRecentPostsForAccounts] has a
    non-empty text and a non-empty [createdAt], and whenever that
    [createdAt] parses, its instant is not before [now] minus the
    validated window. *)
Theorem fetched_posts_have_text_and_are_recent
    (DEFAULT_RECENCY_MINUTES : Z) (Date_parse : string -> option Z) (now : Z)
    (getAuthorFeed : string -> option (list Bsky.Feed.Item))
    (accounts : list Bsky.SelectedAccount) (sinceMinutes : option Z) :
  Forall (fun p =>
            JS.truthy (Bsky.text p) = true
            /\ JS.truthy (Bsky.post_createdAt p) = true
            /\ forall t, Date_parse (Bsky.post_createdAt p) = Some t ->
                         Bsky.sinceOf DEFAULT_RECENCY_MINUTES now sinceMinutes <= t)
         (Bsky.fetchRecentPostsForAccounts DEFAULT_RECENCY_MINUTES Date_parse now
            getAuthorFeed accounts sinceMinutes).
Proof.
  apply Stdlib.Lists.List.Forall_forall. intros p Hp.
  rewrite FetchMore.fetch_flat_map in Hp. apply in_flat_map in Hp.
  destruct Hp as [acct [_ Hp]].
  apply FetchMore.postsOfAccount_In_iff in Hp.
  destruct Hp as [_ [feed [item [_ [_ Hp]]]]].
  apply FetchMore.postOfItem_facts in Hp. tauto.
Qed.

(** X10. Accounts are fetched independently: the posts of a list of
    accounts are the posts of its parts, in order, and an account whose
    feed request throws, or that has neither DID nor handle, changes
    nothing for the others. *)
Theorem fetch_isolates_accounts
    (DEFAULT_RECENCY_MINUTES : Z) (Date_parse : string -> option Z) (now : Z)
    (getAuthorFeed : string -> option (list Bsky.Feed.Item)) (sinceMinutes : option Z) :
  let fetch := fun accounts =>
    Bsky.fetchRecentPostsForAccounts DEFAULT_RECENCY_MINUTES Date_parse now
      getAuthorFeed accounts sinceMinutes in
  (forall before after, fetch (before ++ after) = fetch before ++ fetch after)
  /\ (forall before bad after,
        getAuthorFeed (Bsky.actorOf bad) = None \/ JS.truthy (Bsky.actorOf bad) = false ->
        fetch (before ++ bad :: after) = fetch (before ++ after)).
Proof.
  cbv zeta. split.
  - intros before after. rewrite !FetchMore.fetch_flat_map. apply flat_map_app.
  - intros before bad after Hbad. rewrite !FetchMore.fetch_flat_map.
    rewrite !flat_map_app. f_equal. cbn [flat_map].
    replace (Bsky.postsOfAccount Date_parse getAuthorFeed
               (Bsky.sinceOf DEFAULT_RECENCY_MINUTES now sinceMinutes) bad)
      with (@nil Bsky.SimplePost); [reflexivity|].
    unfold Bsky.postsOfAccount.
    destruct Hbad as [H|H]; rewrite H; [|reflexivity].
    now destruct (negb _).
Qed.

Module FetchSamples.
Definition alice : Bsky.SelectedAccount :=
  Bsky.mkSelected (Bsky.mkProfile "did:plc:alice" "alice.bsky.social" None None None None)
                  adminBypass.
Definition bob : Bsky.SelectedAccount :=
  Bsky.mkSelected (Bsky.mkProfile "did:plc:bob" "bob.bsky.social" None None None None)
                  adminBypass.
(** Timestamps written as decimal milliseconds. *)
Definition parseMillis : string -> option Z := JS.Number.
Definition item (text createdAt : string) : Bsky.Feed.Item :=
  Bsky.Feed.mkItem None (Some (Bsky.Feed.mkRecord (Some text) (Some createdAt))).
(** Alice's feed answers, Bob's throws. *)
Definition feeds (actor : string) : option (list Bsky.Feed.Item) :=
  if String.eqb actor "did:plc:alice"
  then Some [item "COYG" "990000"; item "old news" "100000"]
  else None.
End FetchSamples.

(** Bob's failing feed leaves Alice's posts as they are. *)
Lemma fetch_isolates_accounts_witness :
  Bsky.fetchRecentPostsForAccounts 15 FetchSamples.parseMillis 1000000 FetchSamples.feeds
    ([FetchSamples.alice] ++ FetchSamples.bob :: []) (Some 5)
  = Bsky.fetchRecentPostsForAccounts 15 FetchSamples.parseMillis 1000000 FetchSamples.feeds
      ([FetchSamples.alice] ++ []) (Some 5).
Proof.
  destruct (fetch_isolates_accounts 15 FetchSamples.parseMillis 1000000
              FetchSamples.feeds (Some 5)) as [_ H].
  apply H. left. reflexivity.
Defined.

(** X11. Widening the lookback window never loses a post: with the same
    feeds and clock, every post returned for a window of [m] minutes is
    returned for any longer window. *)
Theorem wider_window_keeps_posts
    (DEFAULT_RECENCY_MINUTES : Z) (Date_parse : string -> option Z) (now : Z)
    (getAuthorFeed : string -> option (list Bsky.Feed.Item))
    (accounts : list Bsky.SelectedAccount) (m m' : Z) (p : Bsky.SimplePost) :
  0 < m -> m <= m' ->
  In p (Bsky.fetchRecentPostsForAccounts DEFAULT_RECENCY_MINUTES Date_parse now
          getAuthorFeed accounts (Some m)) ->
  In p (Bsky.fetchRecentPostsForAccounts DEFAULT_RECENCY_MINUTES Date_parse now
          getAuthorFeed accounts (Some m')).
Proof.
  intros Hm Hle. rewrite !FetchMore.fetch_flat_map, !in_flat_map.
  intros [acct [Ha Hp]]. exists acct. split; [exact Ha|].
  apply FetchMore.postsOfAccount_In_iff in Hp.
  apply FetchMore.postsOfAccount_In_iff.
  destruct Hp as [Hact [feed [item [Hf [Hi Hp]]]]].
  split; [exact Hact|]. exists feed, item. repeat split; auto.
  eapply FetchMore.postOfItem_widen; [|exact Hp].
  unfold Bsky.sinceOf.
  destruct (m >? 0) eqn:E1; [|lia]. destruct (m' >? 0) eqn:E2; lia.
Qed.

(** The post found in a five-minute window is found in a sixty-minute
    one. *)
Lemma wider_window_keeps_posts_witness :
  In (Bsky.mkSimplePost None None
        (Bsky.mkPostAuthor "did:plc:alice" "alice.bsky.social" None) "COYG" "990000")
     (Bsky.fetchRecentPostsForAccounts 15 FetchSamples.parseMillis 1000000
        FetchSamples.feeds [FetchSamples.alice] (Some 60)).
Proof.
  apply (wider_window_keeps_posts 15 FetchSamples.parseMillis 1000000 FetchSamples.feeds
           [FetchSamples.alice] 5 60).
  - lia.
  - lia.
  - vm_compute. left. reflexivity.
Defined.

(** ** Topics and sentiment *)

Module TopicMore.
Import Bsky TopicFacts.

Lemma Map_keys_In {V : Type} (m : list (string * V)) (k : string) :
  In k (map fst m) -> exists v, In (k, v) m.
Proof.
  intros H. apply in_map_iff in H. destruct H as [[k' v] [Hk H]].
  simpl in Hk. subst k'. eauto.
Qed.

Lemma origByLowerOf_has_key keywords k :
  In k keywords -> In (JS.toLowerCase k) (map fst (origByLowerOf keywords)).
Proof.
  induction keywords as [|x keywords IH] using rev_ind; [intros []|].
  intros H. rewrite origByLowerOf_snoc, Map_set_keys.
  apply in_app_or in H.
  destruct (existsb _ _) eqn:E.
  - destruct H as [H|[->|[]]]; [now apply IH|]. now apply existsb_eqb_In in E.
  - apply in_or_app. destruct H as [H|[->|[]]]; [left; now apply IH|right; now left].
Qed.

Lemma firstOcc_In l k : In k l -> In k (firstOcc l).
Proof.
  induction l as [|x l IH] using rev_ind; [intros []|].
  intros H. rewrite firstOcc_snoc. apply in_app_or in H.
  destruct (existsb _ _) eqn:E.
  - destruct H as [H|[->|[]]]; [now apply IH|]. now apply existsb_eqb_In in E.
  - apply in_or_app. destruct H as [H|[->|[]]]; [left; now apply IH|right; now left].
Qed.

Lemma hits_lower posts k k' :
  JS.toLowerCase k = JS.toLowerCase k' -> hits posts k = hits posts k'.
Proof. intros H. unfold hits. now rewrite H. Qed.

Lemma hits_nonneg posts k : 0 <= hits posts k.
Proof. unfold hits. lia. Qed.

(** A configured keyword that some post contains has its reported casing
    in the [counts] map, with its number of hits. *)
Lemma matched_keyword_counted posts keywords k :
  In k keywords -> 1 <= hits posts k ->
  exists o, JS.toLowerCase o = JS.toLowerCase k
            /\ In (o, hits posts k) (countsOf posts keywords).
Proof.
  intros Hk Hh.
  destruct (Map_keys_In _ _ (origByLowerOf_has_key keywords k Hk)) as [o Ho].
  destruct (origByLowerOf_entries _ _ _ Ho) as [_ Hl].
  exists o. split; [now symmetry|].
  assert (Hocc : occ (matchSequence posts keywords) o = hits posts k).
  { rewrite (occ_matchSequence _ _ _ _ Ho). apply hits_lower. now symmetry. }
  assert (Hin : In o (map fst (countsOf posts keywords))).
  { rewrite countsOf_keys. apply firstOcc_In, occ_present. lia. }
  destruct (Map_keys_In _ _ Hin) as [c Hc].
  destruct (countsOf_entries _ _ _ _ Hc) as [_ [-> _]].
  now rewrite (hits_lower posts o k) in Hc by (now symmetry).
Qed.

Lemma extractTopics_unfold posts keywords :
  extractTopics posts keywords
  = firstn 10 (JS.sort (fun a b => count b - count a)
                 (map (fun '(keyword, count) => mkTopic keyword count)
                      (countsOf posts keywords))).
Proof. reflexivity. Qed.
End TopicMore.

(** X12. [extractTopics] is complete up to its limit: when at most ten
    keywords match, every configured keyword contained in at least one
    post is reported, in one of its configured casings, with its number
    of posts. *)
Theorem extractTopics_reports_every_match
    (posts : list Bsky.SimplePost) (keywords : list string) (k : string) :
  In k keywords ->
  1 <= TopicFacts.hits posts k ->
  (length (TopicFacts.firstMatchOrder posts keywords) <= 10)%nat ->
  exists e,
    In e (Bsky.extractTopics posts keywords)
    /\ JS.toLowerCase (Bsky.keyword e) = JS.toLowerCase k
    /\ Bsky.count e = TopicFacts.hits posts k.
Proof.
  intros Hk Hh Hlen.
  destruct (TopicMore.matched_keyword_counted posts keywords k Hk Hh) as [o [Hl Ho]].
  exists (Bsky.mkTopic o (TopicFacts.hits posts k)). repeat split; auto.
  rewrite TopicMore.extractTopics_unfold.
  rewrite firstn_all2.
  - apply sort_In. apply in_map_iff. exists (o, TopicFacts.hits posts k). auto.
  - rewrite sort_length, length_map.
    rewrite <- TopicFacts.countsOf_keys, length_map in Hlen. exact Hlen.
Qed.

(** The keyword configured as [coyg] is reported for a post shouting
    COYG. *)
Lemma extractTopics_reports_every_match_witness :
  exists e,
    In e (Bsky.extractTopics (map SentimentFacts.postWith ["COYG tonight"]%string)
            ["arsenal"; "coyg"]%string)
    /\ JS.toLowerCase (Bsky.keyword e) = JS.toLowerCase "coyg"
    /\ Bsky.count e
       = TopicFacts.hits (map SentimentFacts.postWith ["COYG tonight"]%string) "coyg".
Proof.
  apply extractTopics_reports_every_match.
  - right. left. reflexivity.
  - vm_compute. discriminate.
  - vm_compute. lia.
Defined.

(** X13. [extractTopics] returns the empty list exactly when no
    configured keyword is contained in any post; in particular for no
    posts and for no keywords. *)
Theorem extractTopics_empty_iff_no_match
    (posts : list Bsky.SimplePost) (keywords : list string) :
  Bsky.extractTopics posts keywords = []
  <-> forall k, In k keywords -> TopicFacts.hits posts k = 0.
Proof.
  split.
  - intros He k Hk.
    destruct (Z.eq_dec (TopicFacts.hits posts k) 0) as [H0|Hne]; [exact H0|].
    exfalso.
    assert (Hh : 1 <= TopicFacts.hits posts k)
      by (pose proof (TopicMore.hits_nonneg posts k); lia).
    destruct (TopicMore.matched_keyword_counted posts keywords k Hk Hh) as [o [_ Ho]].
    rewrite TopicMore.extractTopics_unfold in He.
    assert (Hin : In (Bsky.mkTopic o (TopicFacts.hits posts k))
                     (JS.sort (fun a b => Bsky.count b - Bsky.count a)
                        (map (fun '(keyword, count) => Bsky.mkTopic keyword count)
                             (Bsky.countsOf posts keywords)))).
    { apply sort_In. apply in_map_iff. exists (o, TopicFacts.hits posts k). auto. }
    destruct (JS.sort _ _) as [|x l]; [destruct Hin|]. discriminate He.
  - intros Hall.
    destruct (Bsky.extractTopics posts keywords) as [|e l] eqn:E; [reflexivity|].
    exfalso.
    assert (Hs : In e (JS.sort (fun a b => Bsky.count b - Bsky.count a)
                         (map (fun '(keyword, count) => Bsky.mkTopic keyword count)
                              (Bsky.countsOf posts keywords)))).
    { rewrite <- (firstn_skipn 10 (JS.sort _ _)). apply in_or_app. left.
      rewrite <- TopicMore.extractTopics_unfold, E. now left. }
    apply sort_In in Hs. apply in_map_iff in Hs. destruct Hs as [[k c] [_ Hkc]].
    destruct (TopicFacts.countsOf_entries _ _ _ _ Hkc) as [Hk [Hc H1]].
    rewrite (Hall _ Hk) in Hc. lia.
Qed.

Module SentimentMore.
Import Bsky SentimentFacts.

Lemma countIf_perm f posts posts' :
  Permutation posts posts' -> countIf f posts = countIf f posts'.
Proof.
  intros H. unfold countIf. f_equal.
  induction H as [|x l l' _ IH|x y l|l l' l'' _ IH1 _ IH2]; simpl.
  - reflexivity.
  - destruct (f x); simpl; congruence.
  - destruct (f x), (f y); reflexivity.
  - congruence.
Qed.
End SentimentMore.

(** X14. The sentiment summary does not depend on the order of the
    posts. *)
Theorem summarizeSentiment_order_independent
    (winkSentiment : string -> option Z) (posts posts' : list Bsky.SimplePost) :
  Permutation posts posts' ->
  Bsky.summarizeSentiment winkSentiment posts
  = Bsky.summarizeSentiment winkSentiment posts'.
Proof.
  intros H. unfold Bsky.summarizeSentiment.
  rewrite !SentimentFacts.tally_counts.
  rewrite (SentimentMore.countIf_perm _ _ _ H).
  rewrite (SentimentMore.countIf_perm (SentimentFacts.isNeg winkSentiment) _ _ H).
  rewrite (SentimentMore.countIf_perm (SentimentFacts.isNeu winkSentiment) _ _ H).
  now rewrite (Permutation_length H).
Qed.

(** Swapping two posts changes nothing. *)
Lemma summarizeSentiment_order_independent_witness :
  Bsky.summarizeSentiment SentimentFacts.toyScorer
    (map SentimentFacts.postWith ["love"; "hate"]%string)
  = Bsky.summarizeSentiment SentimentFacts.toyScorer
      (map SentimentFacts.postWith ["hate"; "love"]%string).
Proof.
  apply summarizeSentiment_order_independent. apply perm_swap.
Defined.

(** ** The stream over whole runs *)

Module StreamMore.
Import Stream StreamFacts.

Lemma tickIds_app l l' : tickIds (l ++ l') = tickIds l ++ tickIds l'.
Proof. unfold tickIds. apply flat_map_app. Qed.

Lemma StronglySorted_snoc (l : list Z) (x : Z) :
  StronglySorted Z.lt l -> Forall (fun y => y < x) l -> StronglySorted Z.lt (l ++ [x]).
Proof.
  induction 1 as [|y l Hs IH Hy]; intros Hall; simpl.
  - constructor; constructor.
  - inversion Hall; subst. constructor; [auto|].
    apply Forall_app. split; [exact Hy|]. constructor; [assumption|constructor].
Qed.

(** The bound every emitted id stays below: the counter while a build
    is awaited (its number is taken already), one above it otherwise. *)
Definition idBound (s : St) : Z :=
  match loop s with
  | AwaitBuild _ _ => tick s
  | _ => tick s + 1
  end.

Definition idsOk (s : St) : Prop :=
  StronglySorted Z.lt (tickIds (out s))
  /\ Forall (fun id => id < idBound s) (tickIds (out s))
  /\ exists rest, out s = Meta :: rest.

Lemma Forall_lt_weaken (l : list Z) a b :
  a <= b -> Forall (fun id => id < a) l -> Forall (fun id => id < b) l.
Proof.
  intros Hab H. eapply Stdlib.Lists.List.Forall_impl; [|exact H].
  cbv beta. intros; lia.
Qed.

Lemma step_idsOk forceWindow s e : idsOk s -> idsOk (step forceWindow s e).
Proof.
  unfold idsOk, idBound.
  destruct s as [tk st cl pg ca pa sa cd lp ot].
  cbn [out loop tick]. intros [Hs [Hb [rest Hrest]]].
  destruct e; cbn [step loop]; unfold_handler; break_step; cbn_fields;
    clean_eqs; cbn_fields;
    rewrite ?tickIds_app; cbn [tickIds flat_map app]; rewrite ?app_nil_r;
    (split; [|split]);
    try (eexists; rewrite <- ?app_assoc; cbn [app]; reflexivity);
    try (apply StronglySorted_snoc; assumption);
    try assumption;
    try (apply Forall_app; split; [|constructor; [lia|constructor]]);
    try (eapply Forall_lt_weaken; [|eassumption]; lia).
Qed.

Lemma start_startAt forceWindow param header read :
  start forceWindow param header read
  = startAt forceWindow (startTickOf param header) read.
Proof. reflexivity. Qed.

Lemma startAt_idsOk forceWindow startTick read :
  idsOk (startAt forceWindow startTick read).
Proof.
  unfold idsOk, idBound, startAt. unfold_handler. break_step; cbn_fields; clean_eqs;
    cbn [tickIds flat_map app];
    (split; [|split]); try constructor; try (eexists; reflexivity).
Qed.

Lemma startAt_ticksOk forceWindow startTick read :
  ticksOk startTick (startAt forceWindow startTick read).
Proof.
  unfold ticksOk, startAt. unfold_handler. break_step; cbn_fields; clean_eqs;
    repeat split;
    repeat match goal with
           | |- Forall _ (_ ++ _) => apply Forall_app; split
           | |- Forall _ (_ :: _) => constructor
           | |- Forall _ [] => constructor
           | |- tickFrameOk _ _ => exact I
           end;
    try lia.
Qed.

(** The counter moves by at most one at a time, and only upwards. *)
Lemma step_tick forceWindow s e :
  tick s <= tick (step forceWindow s e) <= tick s + 1.
Proof.
  destruct s as [tk st cl pg ca pa sa cd lp ot]. cbn_fields.
  destruct e; cbn [step loop]; unfold_handler; break_step; cbn_fields; lia.
Qed.

Lemma startAt_tick forceWindow startTick read :
  startTick <= tick (startAt forceWindow startTick read) <= startTick + 1.
Proof.
  unfold startAt. unfold_handler. break_step; cbn_fields; lia.
Qed.

Lemma run_tick forceWindow s events :
  tick s <= tick (run forceWindow s events) <= tick s + Z.of_nat (length events).
Proof.
  revert s. induction events as [|e events IH]; intros s; [cbn; lia|].
  change (run forceWindow s (e :: events))
    with (run forceWindow (step forceWindow s e) events).
  pose proof (step_tick forceWindow s e). pose proof (IH (step forceWindow s e)).
  cbn [length]. lia.
Qed.

(** Every id sent is at most the counter. *)
Lemma idsOk_le_tick s :
  idsOk s -> Forall (fun id => id <= tick s) (tickIds (out s)).
Proof.
  intros (_ & Hb & _). eapply Stdlib.Lists.List.Forall_impl; [|exact Hb].
  cbv beta. unfold idBound. intros id Hid. destruct (loop s); lia.
Qed.

Lemma ticksOk_ids startTick s :
  ticksOk startTick s -> Forall (fun id => startTick < id) (tickIds (out s)).
Proof.
  intros [Hall _]. unfold tickIds.
  induction Hall as [|f l Hf _ IH]; [constructor|].
  cbn [flat_map]. apply Forall_app. split; [|exact IH].
  destruct f; try constructor; [|constructor].
  cbn in Hf. lia.
Qed.

(** A closed stream takes no further frame and stays closed. *)
Lemma step_closed forceWindow s e :
  closed s = true ->
  closed (step forceWindow s e) = true /\ out (step forceWindow s e) = out s.
Proof.
  destruct s as [tk st cl pg ca pa sa cd lp ot]. cbn_fields. intros ->.
  destruct e; cbn [step loop]; unfold_handler; break_step; cbn_fields;
    clean_eqs; split; reflexivity.
Qed.

Lemma run_closed forceWindow s events :
  closed s = true ->
  closed (run forceWindow s events) = true /\ out (run forceWindow s events) = out s.
Proof.
  revert s. induction events as [|e events IH]; intros s Hc; [auto|].
  cbn [run fold_left].
  destruct (step_closed forceWindow s e Hc) as [Hc' Ho].
  destruct (IH _ Hc') as [H1 H2]. split; [exact H1|]. unfold run in H2. congruence.
Qed.

(** [stopped] is never reset. *)
Lemma step_stopped forceWindow s e :
  stopped s = true -> stopped (step forceWindow s e) = true.
Proof.
  destruct s as [tk st cl pg ca pa sa cd lp ot]. cbn_fields. intros ->.
  destruct e; cbn [step loop]; unfold_handler; break_step; cbn_fields; reflexivity.
Qed.

Lemma run_app forceWindow s events more :
  run forceWindow s (events ++ more) = run forceWindow (run forceWindow s events) more.
Proof. unfold run. apply fold_left_app. Qed.

Lemma run_timersOk forceWindow param header read events :
  timersOk (run forceWindow (start forceWindow param header read) events).
Proof.
  apply (run_invariant forceWindow timersOk).
  - apply start_timersOk.
  - intros s e. apply step_timersOk.
Qed.

(** What a shutdown leaves is kept by every later step. *)
Definition shutDown (s : St) : Prop :=
  closerArmed s = false /\ pingerArmed s = false /\ closed s = true /\ stopped s = true.

Lemma step_shutDown forceWindow s e : shutDown s -> shutDown (step forceWindow s e).
Proof.
  intros (H1 & H2 & H3 & H4).
  destruct (step_timers_stay_cleared forceWindow s e) as [Ha Hb].
  destruct (step_closed forceWindow s e H3) as [Hc _].
  repeat split; auto using step_stopped.
Qed.
End StreamMore.

(** X15. While the tick counter stays in the range in which a double
    counts exactly, the ids of the tick frames are strictly increasing:
    for every integral [startTick >= 0] and every sequence of events with
    [startTick] plus the number of events below 2^53, the first frame is
    the meta frame, no id is sent twice, whatever builds fail, whatever
    the window reads and whenever the heartbeat, the cap or a
    cancellation arrive, and every id lies above [startTick] and is at
    most [startTick + 1] plus the number of events, hence at most 2^53. *)
Theorem tick_ids_strictly_increasing
    (forceWindow : option Stream.Phase) (startTick : Z)
    (read : option Stream.WindowState) (events : list Stream.Event) :
  0 <= startTick ->
  startTick + Z.of_nat (length events) < 2 ^ 53 ->
  let frames := Stream.out (Stream.run forceWindow
                              (Stream.startAt forceWindow startTick read) events) in
  StronglySorted Z.lt (Stream.tickIds frames)
  /\ Forall (fun id => startTick < id <= startTick + 1 + Z.of_nat (length events)
                       /\ id <= 2 ^ 53)
            (Stream.tickIds frames)
  /\ exists rest, frames = Stream.Meta :: rest.
Proof.
  intros Hpos Hrange. cbv zeta.
  set (s0 := Stream.startAt forceWindow startTick read).
  pose proof (StreamFacts.run_invariant forceWindow StreamMore.idsOk s0 events
                (StreamMore.startAt_idsOk forceWindow startTick read)
                (StreamMore.step_idsOk forceWindow)) as Hids.
  pose proof (StreamFacts.run_invariant forceWindow (StreamFacts.ticksOk startTick)
                s0 events
                (StreamMore.startAt_ticksOk forceWindow startTick read)
                (StreamFacts.step_ticksOk forceWindow startTick)) as Hticks.
  pose proof (StreamMore.idsOk_le_tick _ Hids) as Hle.
  pose proof (StreamMore.ticksOk_ids _ _ Hticks) as Hgt.
  pose proof (StreamMore.run_tick forceWindow s0 events) as Hrun.
  pose proof (StreamMore.startAt_tick forceWindow startTick read) as Hst.
  fold s0 in Hst.
  destruct Hids as (H1 & _ & H3).
  split; [exact H1|]. split; [|exact H3].
  apply Stdlib.Lists.List.Forall_forall. intros id Hid.
  eapply Stdlib.Lists.List.Forall_forall in Hle; [|exact Hid].
  eapply Stdlib.Lists.List.Forall_forall in Hgt; [|exact Hid].
  cbv beta in Hle, Hgt. lia.
Qed.

(** A stream resumed with [lastEventId=5], that is at [startTick = 6]:
    two ticks with a heartbeat in between. *)
Lemma tick_ids_strictly_increasing_witness :
  let events := [Stream.BuildResolved; Stream.Heartbeat; Stream.IntervalElapsed None;
                 Stream.BuildResolved] in
  let frames := Stream.out (Stream.run (Some Stream.live)
                              (Stream.startAt (Some Stream.live)
                                 (Stream.startTickOf (Some "5"%string) None) None)
                              events) in
  StronglySorted Z.lt (Stream.tickIds frames)
  /\ Forall (fun id => Stream.startTickOf (Some "5"%string) None < id
                             <= Stream.startTickOf (Some "5"%string) None + 1
                                + Z.of_nat (length events)
                       /\ id <= 2 ^ 53)
            (Stream.tickIds frames)
  /\ exists rest, frames = Stream.Meta :: rest.
Proof.
  cbv zeta.
  apply (tick_ids_strictly_increasing (Some Stream.live)
           (Stream.startTickOf (Some "5"%string) None) None
           [Stream.BuildResolved; Stream.Heartbeat; Stream.IntervalElapsed None;
            Stream.BuildResolved]).
  - vm_compute. discriminate.
  - vm_compute. reflexivity.
Defined.

(** X16. Once the stream is closed nothing is written to it any more:
    whatever happens afterwards (a build settling, the sleep ending, a
    heartbeat, the cap, a cancellation), the frames sent stay the same
    and the stream stays closed. *)
Theorem closed_stream_output_frozen
    (forceWindow : option Stream.Phase) (s : Stream.St)
    (events more : list Stream.Event) :
  Stream.closed (Stream.run forceWindow s events) = true ->
  Stream.out (Stream.run forceWindow s (events ++ more))
  = Stream.out (Stream.run forceWindow s events)
  /\ Stream.closed (Stream.run forceWindow s (events ++ more)) = true.
Proof.
  intros Hc. rewrite StreamMore.run_app.
  destruct (StreamMore.run_closed forceWindow _ more Hc) as [H1 H2].
  split; assumption.
Qed.

(** After the natural end, a late sleep timer, a heartbeat and the cap
    add nothing. *)
Lemma closed_stream_output_frozen_witness :
  Stream.out (Stream.run None (Stream.start None None None (Some Stream.ended))
                ([Stream.BuildResolved]
                 ++ [Stream.IntervalElapsed (Some Stream.ended); Stream.Heartbeat;
                     Stream.CapElapsed]))
  = Stream.out (Stream.run None (Stream.start None None None (Some Stream.ended))
                  [Stream.BuildResolved])
  /\ Stream.closed (Stream.run None (Stream.start None None None (Some Stream.ended))
                      ([Stream.BuildResolved]
                       ++ [Stream.IntervalElapsed (Some Stream.ended); Stream.Heartbeat;
                           Stream.CapElapsed])) = true.
Proof.
  apply (closed_stream_output_frozen None
           (Stream.start None None None (Some Stream.ended))
           [Stream.BuildResolved]).
  reflexivity.
Defined.

(** X17. A cancellation of an open stream, and the connection cap when
    it fires, shut the stream down for good: in every later state
    neither the cap timeout nor the heartbeat is pending, the stream is
    closed, the loop is told to stop, and no frame has been added since
    the shutdown. *)
Theorem shutdown_is_final
    (forceWindow : option Stream.Phase) (param header : option string)
    (read : option Stream.WindowState) (events more : list Stream.Event)
    (e : Stream.Event) :
  let s := Stream.run forceWindow (Stream.start forceWindow param header read) events in
  (e = Stream.Cancel /\ Stream.closed s = false)
  \/ (e = Stream.CapElapsed /\ Stream.closerArmed s = true) ->
  let s' := Stream.run forceWindow (Stream.start forceWindow param header read)
              (events ++ e :: more) in
  Stream.closerArmed s' = false
  /\ Stream.pingerArmed s' = false
  /\ Stream.closed s' = true
  /\ Stream.stopped s' = true
  /\ Stream.out s' = Stream.out s.
Proof.
  cbv zeta. intros He.
  rewrite StreamMore.run_app.
  set (s := Stream.run forceWindow (Stream.start forceWindow param header read) events) in *.
  change (Stream.run forceWindow s (e :: more))
    with (Stream.run forceWindow (Stream.step forceWindow s e) more).
  pose proof (StreamMore.run_timersOk forceWindow param header read events) as Hok.
  fold s in Hok.
  assert (Hsd : StreamMore.shutDown (Stream.step forceWindow s e)
                /\ Stream.out (Stream.step forceWindow s e) = Stream.out s).
  { destruct He as [[-> Hopen]|[-> Harmed]].
    - split; [apply (StreamFacts.cancel_clears_timers forceWindow s Hok Hopen)|].
      clearbody s. destruct s as [tk st cl pg ca pa sa cd lp ot].
      cbn [Stream.closed] in Hopen. subst cd. cbn [Stream.step Stream.closed].
      destruct cl, pg; reflexivity.
    - split; [apply (StreamFacts.cap_clears_timers forceWindow s Hok Harmed)|].
      clearbody s. destruct s as [tk st cl pg ca pa sa cd lp ot].
      cbn [Stream.closerArmed] in Harmed. subst ca. cbn [Stream.step Stream.closerArmed].
      destruct pg; reflexivity. }
  destruct Hsd as [Hsd Hout].
  pose proof (StreamFacts.run_invariant forceWindow StreamMore.shutDown _ more Hsd
                (StreamMore.step_shutDown forceWindow)) as (H1 & H2 & H3 & H4).
  destruct Hsd as (_ & _ & Hc & _).
  destruct (StreamMore.run_closed forceWindow _ more Hc) as [_ Ho].
  repeat split; try assumption. now rewrite Ho.
Qed.

(** A client that cancels after the first tick; the sleep timer and a
    heartbeat that were under way change nothing. *)
Lemma shutdown_is_final_witness :
  let s' := Stream.run (Some Stream.live)
              (Stream.start (Some Stream.live) None None None)
              ([Stream.BuildResolved]
               ++ Stream.Cancel :: [Stream.IntervalElapsed None; Stream.Heartbeat]) in
  Stream.closerArmed s' = false
  /\ Stream.pingerArmed s' = false
  /\ Stream.closed s' = true
  /\ Stream.stopped s' = true
  /\ Stream.out s'
     = Stream.out (Stream.run (Some Stream.live)
                     (Stream.start (Some Stream.live) None None None)
                     [Stream.BuildResolved]).
Proof.
  apply (shutdown_is_final (Some Stream.live) None None None [Stream.BuildResolved]
           [Stream.IntervalElapsed None; Stream.Heartbeat] Stream.Cancel).
  left. split; reflexivity.
Defined.

(** X18. A tick whose build fails is reported and not retried. On an
    open stream with a forced window, while a build is awaited and the
    counter is a non-negative integer below 2^53 (where the double
    counter still counts exactly), a rejected build makes the loop write
    an error frame and sleep; the next build is called with the value of
    the counter and its frame carries the counter plus one as id, so the
    number of the failed tick, one below the counter, is sent neither as
    a payload tick nor again as an id. *)
Theorem failed_build_skips_its_tick
    (w : Stream.Phase) (s : Stream.St) (state : Stream.WindowState) (tickArg : Z)
    (read : option Stream.WindowState) :
  Stream.loop s = Stream.AwaitBuild state tickArg ->
  Stream.closed s = false ->
  Stream.stopped s = false ->
  0 <= Stream.tick s < 2 ^ 53 ->
  let s' := Stream.run (Some w) s
              [Stream.BuildRejected; Stream.IntervalElapsed read; Stream.BuildResolved] in
  Stream.out s'
  = Stream.out s ++ [Stream.Error; Stream.Tick (Stream.tick s + 1) (Stream.tick s) w]
  /\ Stream.tick s' = Stream.tick s + 1
  /\ Stream.tick s' <= 2 ^ 53.
Proof.
  destruct s as [tk st cl pg ca pa sa cd lp ot].
  cbn [Stream.loop Stream.closed Stream.stopped Stream.out Stream.tick].
  intros -> -> -> Hrange. cbv zeta.
  cbn [Stream.run fold_left Stream.step Stream.loop Stream.catchTick Stream.enqueue
       Stream.closed Stream.sleep Stream.tick Stream.stopped Stream.closer Stream.pinger
       Stream.closerArmed Stream.pingerArmed Stream.sleepArmed Stream.out
       Stream.beginIteration Stream.afterBuild].
  rewrite <- app_assoc. repeat split; try reflexivity. lia.
Qed.

(** The first build of a fresh stream fails: tick 1 is lost, the first
    tick frame carries tick 2 under id 3. *)
Lemma failed_build_skips_its_tick_witness :
  let s := Stream.start (Some Stream.live) None None None in
  let s' := Stream.run (Some Stream.live) s
              [Stream.BuildRejected; Stream.IntervalElapsed None; Stream.BuildResolved] in
  Stream.out s'
  = Stream.out s
    ++ [Stream.Error; Stream.Tick (Stream.tick s + 1) (Stream.tick s) Stream.live]
  /\ Stream.tick s' = Stream.tick s + 1
  /\ Stream.tick s' <= 2 ^ 53.
Proof.
  cbv zeta.
  apply (failed_build_skips_its_tick Stream.live
           (Stream.start (Some Stream.live) None None None)
           (Stream.phase Stream.live) 1 None).
  - reflexivity.
  - reflexivity.
  - reflexivity.
  - vm_compute. split; [discriminate|reflexivity].
Defined.

(** X19. The first tick number is never negative; a [lastEventId] query
    parameter, even an empty one, takes precedence over the
    [Last-Event-ID] header; and without either (or with an empty
    header) [Number(null)] is [0], so a fresh stream starts at tick 1,
    not 0. *)
Theorem startTick_resume_rules (param : string) (header header' : option string) :
  0 <= Stream.startTickOf (Some param) header
  /\ 0 <= Stream.startTickOf None header
  /\ Stream.startTickOf (Some param) header = Stream.startTickOf (Some param) header'
  /\ (JS.truthy_opt header = false -> Stream.startTickOf None header = 1)
  /\ (forall h, JS.truthy h = true ->
                Stream.startTickOf None (Some h) = Stream.startTickOf (Some h) header').
Proof.
  assert (Hpos : forall p h, 0 <= Stream.startTickOf p h).
  { intros p h. unfold Stream.startTickOf.
    destruct (JS.Number_opt _) as [n|]; [|lia].
    destruct (n >=? 0) eqn:E; [|lia]. rewrite Z.geb_leb in E. apply Z.leb_le in E. lia. }
  split; [apply Hpos|]. split; [apply Hpos|]. split; [reflexivity|]. split.
  - intros Hh. unfold Stream.startTickOf, JS.or_else. rewrite Hh. reflexivity.
  - intros h Hh. unfold Stream.startTickOf, JS.or_else. cbn [JS.truthy_opt].
    rewrite Hh. reflexivity.
Qed.

(** ** Sample quotes and ticks *)

Module TickMore.
Import BskyTick.

Lemma insert_sorted_ext {A : Type} (cmp cmp' : A -> A -> Z) (x : A) (l : list A) :
  (forall y, In y l -> cmp x y = cmp' x y) ->
  JS.insert_sorted cmp x l = JS.insert_sorted cmp' x l.
Proof.
  induction l as [|a l IH]; intros H; [reflexivity|].
  cbn [JS.insert_sorted]. rewrite (H a) by now left.
  destruct (cmp' x a <=? 0); [reflexivity|].
  f_equal. apply IH. intros y Hy. apply H. now right.
Qed.

(** The sort only looks at the comparator on the elements it sorts. *)
Lemma sort_ext {A : Type} (cmp cmp' : A -> A -> Z) (l : list A) :
  (forall x y, In x l -> In y l -> cmp x y = cmp' x y) ->
  JS.sort cmp l = JS.sort cmp' l.
Proof.
  induction l as [|x l IH]; intros H; [reflexivity|].
  cbn [JS.sort fold_right]. fold (JS.sort cmp l). fold (JS.sort cmp' l).
  rewrite <- IH by (intros; apply H; now right).
  apply insert_sorted_ext. intros y Hy. apply H; [now left|].
  right. apply sort_In in Hy. exact Hy.
Qed.

Lemma StronglySorted_map {A B : Type} (f : A -> B) (R : B -> B -> Prop) (l : list A) :
  StronglySorted (fun a b => R (f a) (f b)) l -> StronglySorted R (map f l).
Proof.
  induction 1 as [|a l Hs IH Ha]; simpl; constructor; [exact IH|].
  apply Stdlib.Lists.List.Forall_forall. intros b Hb.
  apply in_map_iff in Hb. destruct Hb as [x [<- Hx]].
  eapply Stdlib.Lists.List.Forall_forall in Ha; eauto.
Qed.

Lemma StronglySorted_split {A : Type} (R : A -> A -> Prop) (l1 l2 : list A) a b :
  StronglySorted R (l1 ++ l2) -> In a l1 -> In b l2 -> R a b.
Proof.
  induction l1 as [|x l1 IH]; intros Hs Ha Hb; [destruct Ha|].
  cbn [app] in Hs. inversion Hs as [|? ? Hs' Hall]; subst.
  destruct Ha as [->|Ha].
  - eapply Stdlib.Lists.List.Forall_forall in Hall; [exact Hall|].
    apply in_or_app. now right.
  - now apply IH.
Qed.

Section Samples.
Variable Date_parse : string -> option Z.

(** The time of a post or of a sample; [0] stands in for a date that
    does not parse. *)
Definition millisOf (iso : string) : Z := JS.nullish (Date_parse iso) 0.

Lemma byCreatedAtDesc_parsed (posts : list Bsky.SimplePost) :
  (forall p, In p posts -> Date_parse (Bsky.post_createdAt p) <> None) ->
  JS.sort (byCreatedAtDesc Date_parse) posts
  = JS.sort (fun a b => millisOf (Bsky.post_createdAt b) - millisOf (Bsky.post_createdAt a))
            posts.
Proof.
  intros Hall. apply sort_ext. intros x y Hx Hy.
  unfold byCreatedAtDesc, millisOf.
  destruct (Date_parse (Bsky.post_createdAt y)) eqn:Ey; [|now apply Hall in Hy].
  destruct (Date_parse (Bsky.post_createdAt x)) eqn:Ex; [|now apply Hall in Hx].
  reflexivity.
Qed.
End Samples.

Section Tick.
Variable cfg : Config.
Variable Date_parse : string -> option Z.
Variable nowSelect : Z.
Variable fetchProfilesByActors : list string -> list Bsky.BskyProfileBasic.
Variable baseProfiles : list Bsky.BskyProfileBasic.
Variable inc exc : list Override.Rule.
Variable DEFAULT_RECENCY_MINUTES : Z.
Variable now1 now2 : Z.
Variable getAuthorFeed1 getAuthorFeed2 : string -> option (list Bsky.Feed.Item).
Variable NODE_ENV_test : bool.
Variable isoSynthetic : string.

Local Abbreviation accounts :=
  (accountsOfTick cfg Date_parse nowSelect fetchProfilesByActors baseProfiles inc exc).
Local Abbreviation posts :=
  (postsOfTick cfg Date_parse nowSelect fetchProfilesByActors baseProfiles inc exc
     DEFAULT_RECENCY_MINUTES now1 now2 getAuthorFeed1 getAuthorFeed2 NODE_ENV_test
     isoSynthetic).

(** Without accounts there is nothing to analyse. *)
Lemma postsOfTick_no_accounts sinceMinutes : accounts = [] -> posts sinceMinutes = [].
Proof.
  intros E. unfold postsOfTick. cbv zeta. rewrite E.
  unfold Bsky.fetchRecentPostsForAccounts. cbn. reflexivity.
Qed.

(** Under test, with an account, there is always a post. *)
Lemma postsOfTick_test sinceMinutes :
  NODE_ENV_test = true -> accounts <> [] -> posts sinceMinutes <> [].
Proof.
  intros Ht Hne. unfold postsOfTick. cbv zeta. rewrite Ht.
  destruct accounts as [|first rest] eqn:E; [congruence|].
  set (p1 := Bsky.fetchRecentPostsForAccounts _ _ now1 _ _ _).
  set (p2 := Bsky.fetchRecentPostsForAccounts _ _ now2 _ _ _).
  destruct p1 as [|x1 l1]; [|cbn; discriminate].
  cbn [length Z.of_nat Z.eqb andb].
  replace (Z.of_nat (length (first :: rest)) >? 0) with true
    by (cbn [length]; symmetry; apply Z.gtb_lt; lia).
  destruct p2 as [|x2 l2]; cbn; discriminate.
Qed.
End Tick.
End TickMore.

(** X20. [sampleQuotes] returns [min(n, number of posts)] samples, each
    the handle, text and date of one of the posts; when every date
    parses they come newest first, and any post strictly newer than a
    returned sample is itself among the samples. *)
Theorem sampleQuotes_newest_first
    (Date_parse : string -> option Z) (posts : list Bsky.SimplePost) (n : Z) :
  0 <= n ->
  let samples := BskyTick.sampleQuotes Date_parse posts n in
  length samples = Nat.min (Z.to_nat n) (length posts)
  /\ (forall q, In q samples -> exists p, In p posts /\ q = BskyTick.sampleOf p)
  /\ ((forall p, In p posts -> Date_parse (Bsky.post_createdAt p) <> None) ->
      StronglySorted
        (fun a b => TickMore.millisOf Date_parse (BskyTick.sample_createdAt a)
                    >= TickMore.millisOf Date_parse (BskyTick.sample_createdAt b))
        samples
      /\ forall p q,
           In p posts -> In q samples ->
           TickMore.millisOf Date_parse (Bsky.post_createdAt p)
           > TickMore.millisOf Date_parse (BskyTick.sample_createdAt q) ->
           In (BskyTick.sampleOf p) samples).
Proof.
  intros Hn. cbv zeta. unfold BskyTick.sampleQuotes, JS.slice0.
  destruct (n <? 0) eqn:E; [apply Z.ltb_lt in E; lia|]. clear E.
  split; [|split].
  - rewrite length_map, length_firstn, sort_length. reflexivity.
  - intros q Hq. apply in_map_iff in Hq. destruct Hq as [p [<- Hp]].
    exists p. split; [|reflexivity].
    apply (sort_In (BskyTick.byCreatedAtDesc Date_parse)).
    rewrite <- (firstn_skipn (Z.to_nat n) (JS.sort _ posts)).
    apply in_or_app. now left.
  - intros Hall. rewrite (TickMore.byCreatedAtDesc_parsed Date_parse posts Hall).
    set (key := fun p => TickMore.millisOf Date_parse (Bsky.post_createdAt p)).
    pose proof (sort_desc key posts) as Hs. fold key.
    set (sorted := JS.sort (fun a b => key b - key a) posts) in *.
    split.
    + apply TickMore.StronglySorted_map. cbn [BskyTick.sampleOf BskyTick.sample_createdAt].
      apply (StronglySorted_firstn key). exact Hs.
    + intros p q Hp Hq Hnewer.
      apply in_map_iff in Hq. destruct Hq as [p' [<- Hp']].
      cbn [BskyTick.sampleOf BskyTick.sample_createdAt] in Hnewer.
      apply in_map.
      assert (Hin : In p sorted) by (apply sort_In; exact Hp).
      rewrite <- (firstn_skipn (Z.to_nat n) sorted) in Hin, Hs.
      apply in_app_or in Hin. destruct Hin as [Hin|Hin]; [exact Hin|].
      pose proof (TickMore.StronglySorted_split _ _ _ p' p Hs Hp' Hin) as Hge.
      cbv beta in Hge. unfold key in Hge. lia.
Qed.

(** The two newest of three posts. *)
Lemma sampleQuotes_newest_first_witness :
  let posts := [Bsky.mkSimplePost None None (Bsky.post_author (BskyTick.syntheticPost FetchSamples.alice "")) "first" "100";
                Bsky.mkSimplePost None None (Bsky.post_author (BskyTick.syntheticPost FetchSamples.bob "")) "third" "300";
                Bsky.mkSimplePost None None (Bsky.post_author (BskyTick.syntheticPost FetchSamples.alice "")) "second" "200"]%string in
  let samples := BskyTick.sampleQuotes FetchSamples.parseMillis posts 2 in
  length samples = Nat.min (Z.to_nat 2) (length posts)
  /\ (forall q, In q samples -> exists p, In p posts /\ q = BskyTick.sampleOf p)
  /\ ((forall p, In p posts -> FetchSamples.parseMillis (Bsky.post_createdAt p) <> None) ->
      StronglySorted
        (fun a b => TickMore.millisOf FetchSamples.parseMillis (BskyTick.sample_createdAt a)
                    >= TickMore.millisOf FetchSamples.parseMillis (BskyTick.sample_createdAt b))
        samples
      /\ forall p q,
           In p posts -> In q samples ->
           TickMore.millisOf FetchSamples.parseMillis (Bsky.post_createdAt p)
           > TickMore.millisOf FetchSamples.parseMillis (BskyTick.sample_createdAt q) ->
           In (BskyTick.sampleOf p) samples).
Proof.
  cbv zeta. apply sampleQuotes_newest_first. lia.
Defined.

(** X21. Every tick is consistent with the posts it analysed: the volume
    is the total of the sentiment counts, the three class counts add up
    to it, there are at most ten topics and at most five samples (and
    never more samples than posts), and a run without selected accounts
    reports volume zero. *)
Theorem buildTick_consistent
    (cfg : Config) (Date_parse : string -> option Z) (nowSelect : Z)
    (fetchProfilesByActors : list string -> list Bsky.BskyProfileBasic)
    (baseProfiles : list Bsky.BskyProfileBasic) (inc exc : list Override.Rule)
    (DEFAULT_RECENCY_MINUTES now1 now2 : Z)
    (getAuthorFeed1 getAuthorFeed2 : string -> option (list Bsky.Feed.Item))
    (winkSentiment : string -> option Z) (BSKY_KEYWORDS : list string)
    (NODE_ENV_test : bool) (isoSynthetic isoGenerated : string)
    (matchId : string) (window : Stream.Phase) (tick : Z) (sinceMinutes : option Z) :
  let t := BskyTick.buildTick cfg Date_parse nowSelect fetchProfilesByActors baseProfiles
             inc exc DEFAULT_RECENCY_MINUTES now1 now2 getAuthorFeed1 getAuthorFeed2
             winkSentiment BSKY_KEYWORDS NODE_ENV_test isoSynthetic isoGenerated
             matchId window tick sinceMinutes in
  let c := Bsky.counts (BskyTick.sentiment t) in
  BskyTick.tick t = tick
  /\ Bsky.count_total c = BskyTick.volume t
  /\ Bsky.count_pos c + Bsky.count_neg c + Bsky.count_neu c = BskyTick.volume t
  /\ (length (BskyTick.topics t) <= 10)%nat
  /\ (length (BskyTick.samples t) <= 5)%nat
  /\ Z.of_nat (length (BskyTick.samples t)) <= BskyTick.volume t
  /\ length (BskyTick.accountsUsed t)
     = length (BskyTick.accountsOfTick cfg Date_parse nowSelect fetchProfilesByActors
                 baseProfiles inc exc)
  /\ (BskyTick.accountsUsed t = [] -> BskyTick.volume t = 0).
Proof.
  cbv zeta. unfold BskyTick.buildTick. cbv zeta.
  cbn [BskyTick.tick BskyTick.sentiment BskyTick.volume BskyTick.topics BskyTick.samples
       BskyTick.accountsUsed].
  set (posts := BskyTick.postsOfTick _ _ _ _ _ _ _ _ _ _ _ _ _ _ _).
  assert (Hc : let c := Bsky.counts (Bsky.summarizeSentiment winkSentiment posts) in
               Bsky.count_total c = Z.of_nat (length posts)
               /\ Bsky.count_pos c + Bsky.count_neg c + Bsky.count_neu c
                  = Z.of_nat (length posts)).
  { cbv zeta. unfold Bsky.summarizeSentiment.
    rewrite SentimentFacts.tally_counts.
    pose proof (SentimentFacts.classes_partition winkSentiment posts) as Hp.
    destruct (Z.of_nat (length posts) =? 0) eqn:E; cbn [Bsky.counts Bsky.count_total
      Bsky.count_pos Bsky.count_neg Bsky.count_neu].
    - apply Z.eqb_eq in E. lia.
    - lia. }
  cbv zeta in Hc. destruct Hc as [Hc1 Hc2].
  assert (Hs : length (BskyTick.sampleQuotes Date_parse posts 5)
               = Nat.min 5 (length posts)).
  { unfold BskyTick.sampleQuotes, JS.slice0. cbn [Z.ltb Z.compare Z.to_nat].
    rewrite length_map, length_firstn, sort_length. reflexivity. }
  repeat split; try assumption.
  - rewrite TopicMore.extractTopics_unfold, length_firstn. lia.
  - rewrite Hs. lia.
  - rewrite Hs. lia.
  - apply length_map.
  - intros He. apply map_eq_nil in He.
    unfold posts. rewrite TickMore.postsOfTick_no_accounts; [reflexivity|exact He].
Qed.

(** X22. Under [NODE_ENV=test] a tick over at least one selected
    account never has volume zero: when both fetches come back empty the
    synthetic post is analysed, so the tick has a sample and a counted
    post. *)
Theorem buildTick_test_env_never_empty
    (cfg : Config) (Date_parse : string -> option Z) (nowSelect : Z)
    (fetchProfilesByActors : list string -> list Bsky.BskyProfileBasic)
    (baseProfiles : list Bsky.BskyProfileBasic) (inc exc : list Override.Rule)
    (DEFAULT_RECENCY_MINUTES now1 now2 : Z)
    (getAuthorFeed1 getAuthorFeed2 : string -> option (list Bsky.Feed.Item))
    (winkSentiment : string -> option Z) (BSKY_KEYWORDS : list string)
    (isoSynthetic isoGenerated : string)
    (matchId : string) (window : Stream.Phase) (tick : Z) (sinceMinutes : option Z) :
  0 < Z.of_nat (length (BskyTick.accountsOfTick cfg Date_parse nowSelect
                          fetchProfilesByActors baseProfiles inc exc)) ->
  let t := BskyTick.buildTick cfg Date_parse nowSelect fetchProfilesByActors baseProfiles
             inc exc DEFAULT_RECENCY_MINUTES now1 now2 getAuthorFeed1 getAuthorFeed2
             winkSentiment BSKY_KEYWORDS true isoSynthetic isoGenerated
             matchId window tick sinceMinutes in
  1 <= BskyTick.volume t
  /\ 1 <= Bsky.count_total (Bsky.counts (BskyTick.sentiment t))
  /\ BskyTick.samples t <> [].
Proof.
  intros Hacc. cbv zeta. unfold BskyTick.buildTick. cbv zeta.
  cbn [BskyTick.sentiment BskyTick.volume BskyTick.samples].
  set (posts := BskyTick.postsOfTick _ _ _ _ _ _ _ _ _ _ _ _ _ _ _).
  assert (Hne : posts <> []).
  { unfold posts. apply TickMore.postsOfTick_test; [reflexivity|].
    intros E. rewrite E in Hacc. cbn in Hacc. lia. }
  assert (Hlen : 1 <= Z.of_nat (length posts)).
  { destruct posts; [congruence|]. cbn [length]. lia. }
  split; [exact Hlen|]. split.
  - unfold Bsky.summarizeSentiment. rewrite SentimentFacts.tally_counts.
    destruct (Z.of_nat (length posts) =? 0) eqn:E.
    + apply Z.eqb_eq in E. lia.
    + exact Hlen.
  - intros E. apply (f_equal (@length _)) in E.
    unfold BskyTick.sampleQuotes, JS.slice0 in E. cbn [Z.ltb Z.compare Z.to_nat] in E.
    rewrite length_map, length_firstn, sort_length in E. cbn [length] in E. lia.
Qed.

(** One included account whose feed is down, under test. *)
Lemma buildTick_test_env_never_empty_witness :
  let t := BskyTick.buildTick SelectorFacts.capOne SelectorFacts.neverParses 0
             SelectorFacts.lookupFails [] [SelectorFacts.includeAlice] []
             15 1000 2000 (fun _ => None) (fun _ => None)
             (fun _ => None) ["arsenal"; "coyg"]%string true
             "2025-10-19T12:00:00.000Z" "2025-10-19T12:00:01.000Z"
             "match-1" Stream.live 1 (Some 15) in
  1 <= BskyTick.volume t
  /\ 1 <= Bsky.count_total (Bsky.counts (BskyTick.sentiment t))
  /\ BskyTick.samples t <> [].
Proof.
  apply (buildTick_test_env_never_empty SelectorFacts.capOne SelectorFacts.neverParses 0
           SelectorFacts.lookupFails [] [SelectorFacts.includeAlice] []).
  vm_compute. reflexivity.
Defined.

(** ** The summaries route: prompt text, rate limiter and window *)

Module SummariesMore.
Import Summaries SummariesRoute.

Lemma substring_all (n : nat) (s : string) :
  (String.length s <= n)%nat -> String.substring 0 n s = s.
Proof.
  revert s. induction n as [|n IH]; intros [|c s] H; simpl in *; try reflexivity; try lia.
  f_equal. apply IH. lia.
Qed.

Lemma substring_prefix (n : nat) (s : string) :
  String.prefix (String.substring 0 n s) s = true.
Proof.
  revert s. induction n as [|n IH]; intros [|c s]; simpl; try reflexivity.
  destruct (ascii_dec c c) as [_|E]; [apply IH|now elim E].
Qed.

Lemma prefix_refl (s : string) : String.prefix s s = true.
Proof.
  induction s as [|c s IH]; simpl; [reflexivity|].
  destruct (ascii_dec c c) as [_|E]; [exact IH|now elim E].
Qed.

Lemma substring_min (n : nat) (s : string) :
  String.substring 0 (Nat.min n (String.length s)) s = String.substring 0 n s.
Proof.
  revert s. induction n as [|n IH]; intros [|c s]; simpl; try reflexivity.
  f_equal. apply IH.
Qed.

Lemma firstn_min {A : Type} (n : nat) (l : list A) :
  firstn (Nat.min n (length l)) l = firstn n l.
Proof.
  revert l. induction n as [|n IH]; intros [|x l]; simpl; try reflexivity.
  f_equal. apply IH.
Qed.

(** [Math.max(1, Math.min(c, x))] is between [1] and [c]. *)
Lemma clamp_bounds (c : Z) (x : option Z) (v : Z) :
  1 <= c -> Math_max (Some 1) (Math_min (Some c) x) = Some v -> 1 <= v <= c.
Proof.
  intros Hc. destruct x as [y|]; cbn; [|discriminate].
  intros [= <-]. lia.
Qed.

(** *** Truncation and comparison of quotients *)

Lemma Qltb_false (a b : Q) : JS.Qltb a b = false -> (b <= a)%Q.
Proof.
  unfold JS.Qltb. intros H. apply negb_false_iff in H. now apply Qle_bool_iff.
Qed.

Lemma Qltb_true (a b : Q) : JS.Qltb a b = true -> (a < b)%Q.
Proof.
  unfold JS.Qltb. intros H. apply negb_true_iff in H.
  apply Qnot_le_lt. intros Hle. apply Qle_bool_iff in Hle. congruence.
Qed.

(** Below a non-negative quotient, its truncation is the largest
    integer. *)
Lemma trunc_nonneg (q : Q) :
  (0 <= q)%Q -> 0 <= JSNum.trunc q /\ (inject_Z (JSNum.trunc q) <= q)%Q.
Proof.
  destruct q as [a b]. unfold Qle, JSNum.trunc. cbn [Qnum Qden inject_Z].
  intros H. assert (Ha : 0 <= a) by lia.
  rewrite Z.quot_div_nonneg by lia.
  split; [apply Z.div_pos; lia|].
  pose proof (Z.mul_div_le a (Z.pos b)). lia.
Qed.

Lemma trunc_ge (q : Q) (n : Z) :
  0 <= n -> (inject_Z n <= q)%Q -> n <= JSNum.trunc q.
Proof.
  destruct q as [a b]. unfold Qle, JSNum.trunc. cbn [Qnum Qden inject_Z].
  intros Hn H. assert (Ha : 0 <= a) by nia.
  rewrite Z.quot_div_nonneg by lia.
  apply Z.div_le_lower_bound; lia.
Qed.

Lemma trunc_of_Z (z : Z) : JSNum.trunc (inject_Z z) = z.
Proof. unfold JSNum.trunc. cbn [Qnum Qden inject_Z]. apply Z.quot_1_r. Qed.

(** What a cut at a non-negative limit keeps is within the limit. *)
Lemma sliceEnd_le (len : nat) (q : Q) :
  (0 <= q)%Q -> (inject_Z (Z.of_nat (JSNum.sliceEnd len (JSNum.Fin q))) <= q)%Q.
Proof.
  intros Hq. destruct (trunc_nonneg q Hq) as [H0 Hle].
  unfold JSNum.sliceEnd. cbv zeta.
  destruct (JSNum.trunc q <? 0) eqn:E; [apply Z.ltb_lt in E; lia|].
  eapply Qle_trans; [|exact Hle].
  rewrite <- Zle_Qle. lia.
Qed.

(** A text that is not longer than the limit is kept whole by the cut. *)
Lemma sliceEnd_all (len : nat) (x : JSNum.t) :
  x <> JSNum.NaN -> JSNum.gt (Z.of_nat len) x = false -> JSNum.sliceEnd len x = len.
Proof.
  destruct x as [|q| |]; cbn [JSNum.gt JSNum.sliceEnd]; intros Hx H;
    try congruence; try discriminate.
  apply Qltb_false in H.
  pose proof (trunc_ge q (Z.of_nat len) (Nat2Z.is_nonneg len) H) as Hge.
  destruct (JSNum.trunc q <? 0) eqn:E; [apply Z.ltb_lt in E; lia|]. lia.
Qed.

(** *** On integers the general definitions are the ones of the
    environment-reading model *)

Lemma slice0_of_Z {A : Type} (xs : list A) (k : Z) :
  JSNum.slice0 xs (JSNum.of_Z k) = JS.slice0 xs k.
Proof.
  unfold JSNum.slice0, JS.slice0, JSNum.of_Z, JSNum.sliceEnd. rewrite trunc_of_Z.
  destruct (k <? 0); [f_equal; lia|apply firstn_min].
Qed.

Lemma str_slice0_of_Z (s : string) (k : Z) :
  JSNum.str_slice0 s (JSNum.of_Z k) = JS.str_slice0 s k.
Proof.
  unfold JSNum.str_slice0, JS.str_slice0, JSNum.of_Z, JSNum.sliceEnd. rewrite trunc_of_Z.
  destruct (k <? 0); [f_equal; lia|apply substring_min].
Qed.

Lemma Qle_bool_inject (a b : Z) : Qle_bool (inject_Z a) (inject_Z b) = (a <=? b).
Proof. unfold Qle_bool. cbn [Qnum Qden inject_Z]. now rewrite !Z.mul_1_r. Qed.

Lemma gt_of_Z (n m : Z) : JSNum.gt n (JSNum.of_Z m) = (n >? m).
Proof.
  unfold JSNum.gt, JSNum.of_Z, JS.Qltb. rewrite Qle_bool_inject.
  rewrite Z.gtb_ltb. symmetry. apply Z.ltb_antisym.
Qed.

Lemma lt_of_Z (n w : Z) : JSNum.lt n (JSNum.of_Z w) = (n <? w).
Proof.
  unfold JSNum.lt, JSNum.of_Z, JS.Qltb. rewrite Qle_bool_inject.
  symmetry. apply Z.ltb_antisym.
Qed.

Lemma ge_of_Z (n m : Z) : JSNum.ge n (JSNum.of_Z m) = (n >=? m).
Proof.
  unfold JSNum.ge, JSNum.of_Z. rewrite Qle_bool_inject. symmetry. apply Z.geb_leb.
Qed.

Section Env.
Variable env : gmap string string.

(** With integral limits and the platform [bsky] or [combined], the
    prompt text and the audited count are the ones of [Summaries]. *)
Lemma joinedFor_env k m platform lines :
  MAX_POSTS_ENV env = Some k -> MAX_CHARS_ENV env = Some m ->
  platform = bsky \/ platform = combined ->
  joinedFor (JSNum.of_Z k) (JSNum.of_Z m) platform lines = joinedOf env lines
  /\ chars_countFor (JSNum.of_Z k) (JSNum.of_Z m) platform lines = chars_count env lines.
Proof.
  intros Hk Hm Hp.
  assert (Ht : textsFor (JSNum.of_Z k) platform lines = textsOf env lines).
  { unfold textsFor, textsOf. rewrite Hk.
    destruct Hp as [-> | ->]; apply slice0_of_Z. }
  unfold joinedFor, chars_countFor, joinedOf, chars_count.
  rewrite Ht, Hm. cbv zeta. rewrite gt_of_Z, str_slice0_of_Z. split; reflexivity.
Qed.

Lemma recentRequests_In timestamps now t :
  In t (recentRequests env timestamps now) ->
  In t timestamps
  /\ exists w, RATE_WINDOW_MS env = Some w /\ now - t < w.
Proof.
  unfold recentRequests. intros H. apply filter_In in H. destruct H as [Hin Hw].
  split; [exact Hin|]. destruct (RATE_WINDOW_MS env) as [w|]; [|discriminate].
  exists w. split; [reflexivity|]. now apply Z.ltb_lt.
Qed.

(** With integral limits the step of the limiter is the one of the
    environment-reading model. *)
Lemma limiterStep_env w m timestamps now :
  RATE_WINDOW_MS env = Some w -> RATE_MAX env = Some m ->
  limiterStep env timestamps now
  = limiterStepOf (JSNum.of_Z w) (JSNum.of_Z m) timestamps now.
Proof.
  intros Hw Hm.
  assert (Hr : recentRequests env timestamps now
               = recentOf (JSNum.of_Z w) timestamps now).
  { unfold recentRequests, recentOf. rewrite Hw.
    apply filter_ext. intros ts. symmetry. apply lt_of_Z. }
  unfold limiterStep, limiterStepOf, rateLimited, limitedOf.
  rewrite Hm, Hr, ge_of_Z. reflexivity.
Qed.
End Env.

Section Limiter.
Variable RATE_WINDOW_MS RATE_MAX : JSNum.t.

Lemma recentOf_length timestamps now :
  (length (recentOf RATE_WINDOW_MS timestamps now) <= length timestamps)%nat.
Proof. unfold recentOf. apply List.filter_length_le. Qed.

Lemma recentOf_In timestamps now t :
  In t (recentOf RATE_WINDOW_MS timestamps now) ->
  In t timestamps /\ JSNum.lt (now - t) RATE_WINDOW_MS = true.
Proof. unfold recentOf. intros H. now apply filter_In in H. Qed.

Lemma limiterStepOf_In timestamps now t :
  In t (fst (limiterStepOf RATE_WINDOW_MS RATE_MAX timestamps now)) ->
  t = now \/ (In t timestamps /\ JSNum.lt (now - t) RATE_WINDOW_MS = true).
Proof.
  unfold limiterStepOf. destruct (limitedOf _ _ _ _); cbn [fst]; intros H.
  - right. now apply recentOf_In in H.
  - apply in_app_or in H. destruct H as [H|[H|[]]]; [|now left].
    right. now apply recentOf_In in H.
Qed.

Lemma servedOf_snoc requests now :
  servedOf RATE_WINDOW_MS RATE_MAX (requests ++ [now])
  = fst (limiterStepOf RATE_WINDOW_MS RATE_MAX
           (servedOf RATE_WINDOW_MS RATE_MAX requests) now).
Proof. unfold servedOf. now rewrite fold_left_app. Qed.

(** A bound on the store that one step keeps. *)
Lemma limiterStepOf_bounded (bound : Z) timestamps now :
  0 <= bound ->
  (forall n, JSNum.ge (Z.of_nat n) RATE_MAX = false -> Z.of_nat n + 1 <= bound) ->
  Z.of_nat (length timestamps) <= bound ->
  Z.of_nat (length (fst (limiterStepOf RATE_WINDOW_MS RATE_MAX timestamps now))) <= bound.
Proof.
  intros H0 Hfree Hlen. unfold limiterStepOf, limitedOf.
  pose proof (recentOf_length timestamps now) as Hk.
  destruct (JSNum.ge _ RATE_MAX) eqn:E; cbn [fst].
  - lia.
  - apply Hfree in E. rewrite length_app. cbn [length]. lia.
Qed.

Lemma servedOf_bounded (bound : Z) requests :
  0 <= bound ->
  (forall n, JSNum.ge (Z.of_nat n) RATE_MAX = false -> Z.of_nat n + 1 <= bound) ->
  Z.of_nat (length (servedOf RATE_WINDOW_MS RATE_MAX requests)) <= bound.
Proof.
  intros H0 Hfree.
  induction requests as [|now requests IH] using rev_ind; [cbn; lia|].
  rewrite servedOf_snoc. now apply limiterStepOf_bounded.
Qed.
End Limiter.

(** A request is let through only while fewer than [RATE_MAX] are
    stored. *)
Lemma ge_false_ceiling (q : Q) (n : nat) :
  JSNum.ge (Z.of_nat n) (JSNum.Fin q) = false -> Z.of_nat n + 1 <= Z.max (Qceiling q) 0.
Proof.
  cbn [JSNum.ge]. intros H.
  assert (Hlt : (inject_Z (Z.of_nat n) < q)%Q).
  { apply Qnot_le_lt. intros Hle. apply Qle_bool_iff in Hle. congruence. }
  assert (Hc : (inject_Z (Z.of_nat n) < inject_Z (Qceiling q))%Q).
  { eapply Qlt_le_trans; [exact Hlt|apply Qle_ceiling]. }
  rewrite <- Zlt_Qlt in Hc. lia.
Qed.
End SummariesMore.

(** X23. Whenever [MAX_CHARS_ENV] is a number, integral or not, finite
    or not, the audited [chars_count] is the length of the text put into
    the prompt; for [NaN] the whole text is sent and the audit reports
    0. The prompt text is always a prefix of the joined lines, and it is
    no longer than [MAX_CHARS_ENV] when that is a non-negative finite
    number. For the platforms [bsky] and [combined] at most
    [MAX_POSTS_ENV] lines are joined when that limit is a non-negative
    finite number; for [twitter] and [threads] the one placeholder line
    is joined whatever the limits. *)
Theorem prompt_text_matches_audit
    (MAX_POSTS_ENV MAX_CHARS_ENV : JSNum.t) (platform : SummariesRoute.Platform)
    (lines : list string) :
  let texts := SummariesRoute.textsFor MAX_POSTS_ENV platform lines in
  let prompt := SummariesRoute.joinedFor MAX_POSTS_ENV MAX_CHARS_ENV platform lines in
  let audited := SummariesRoute.chars_countFor MAX_POSTS_ENV MAX_CHARS_ENV platform lines in
  (MAX_CHARS_ENV <> JSNum.NaN -> audited = Z.of_nat (String.length prompt))
  /\ (MAX_CHARS_ENV = JSNum.NaN ->
      prompt = JS.join Summaries.newline texts /\ audited = 0)
  /\ String.prefix prompt (JS.join Summaries.newline texts) = true
  /\ (forall m, MAX_CHARS_ENV = JSNum.Fin m -> (0 <= m)%Q ->
                (inject_Z (Z.of_nat (String.length prompt)) <= m)%Q)
  /\ (forall k, platform = SummariesRoute.bsky \/ platform = SummariesRoute.combined ->
                MAX_POSTS_ENV = JSNum.Fin k -> (0 <= k)%Q ->
                (inject_Z (Z.of_nat (length texts)) <= k)%Q)
  /\ (platform = SummariesRoute.twitter \/ platform = SummariesRoute.threads ->
      texts = [SummariesRoute.placeholder]).
Proof.
  cbv zeta. unfold SummariesRoute.chars_countFor, SummariesRoute.joinedFor. cbv zeta.
  set (texts := SummariesRoute.textsFor MAX_POSTS_ENV platform lines).
  set (joined := JS.join Summaries.newline texts).
  split; [|split; [|split; [|split; [|split]]]].
  - intros Hx.
    destruct (JSNum.gt (Z.of_nat (String.length joined)) MAX_CHARS_ENV) eqn:E;
      [reflexivity|].
    unfold JSNum.str_slice0. rewrite (SummariesMore.sliceEnd_all _ _ Hx E).
    rewrite SummariesMore.substring_all by lia. reflexivity.
  - intros ->. cbn [JSNum.gt]. split; [reflexivity|].
    unfold JSNum.str_slice0. cbn [JSNum.sliceEnd].
    rewrite SummariesFacts.substring_length. reflexivity.
  - destruct (JSNum.gt _ _);
      [apply SummariesMore.substring_prefix|apply SummariesMore.prefix_refl].
  - intros m -> Hm.
    destruct (JSNum.gt (Z.of_nat (String.length joined)) (JSNum.Fin m)) eqn:E.
    + unfold JSNum.str_slice0. rewrite SummariesFacts.substring_length.
      eapply Qle_trans; [|apply (SummariesMore.sliceEnd_le (String.length joined) m Hm)].
      rewrite <- Zle_Qle. lia.
    + cbn [JSNum.gt] in E. now apply SummariesMore.Qltb_false in E.
  - intros k Hp -> Hk. unfold texts, SummariesRoute.textsFor.
    destruct Hp as [-> | ->]; unfold JSNum.slice0; rewrite length_firstn;
      (eapply Qle_trans; [|apply (SummariesMore.sliceEnd_le (length lines) k Hk)]);
      rewrite <- Zle_Qle; lia.
  - intros [-> | ->]; reflexivity.
Qed.

(** [SUMMARIES_MAX_CHARS=2.5]: two characters are sent, two are
    audited. *)
Lemma prompt_text_matches_audit_witness :
  SummariesRoute.chars_countFor (JSNum.of_Z 150) (JSNum.Fin (5 # 2))
    SummariesRoute.bsky ["abc"; "de"]%string
  = Z.of_nat (String.length
                (SummariesRoute.joinedFor (JSNum.of_Z 150) (JSNum.Fin (5 # 2))
                   SummariesRoute.bsky ["abc"; "de"]%string)).
Proof.
  apply (prompt_text_matches_audit (JSNum.of_Z 150) (JSNum.Fin (5 # 2))
           SummariesRoute.bsky ["abc"; "de"]%string).
  discriminate.
Defined.

(** X24. From an empty store and for any sequence of requests, the rate
    limiter stores at most [max(ceil(RATE_MAX), 0)] timestamps when
    [RATE_MAX] is a finite number, integral or not (three for 2.5), and
    none when it is minus infinity; when it is [NaN] or plus infinity no
    request is ever refused. Every stored timestamp is the time of one
    of the requests, and after a request at [now] each of them is [now]
    itself or passes the test [now - ts < RATE_WINDOW_MS]. *)
Theorem rate_limiter_store_bounded
    (RATE_WINDOW_MS RATE_MAX : JSNum.t) (requests : list Z) :
  let store := SummariesRoute.servedOf RATE_WINDOW_MS RATE_MAX requests in
  (forall q, RATE_MAX = JSNum.Fin q ->
             Z.of_nat (length store) <= Z.max (Qceiling q) 0)
  /\ (RATE_MAX = JSNum.NegInf -> store = [])
  /\ (RATE_MAX = JSNum.NaN \/ RATE_MAX = JSNum.PosInf ->
      forall timestamps now,
        snd (SummariesRoute.limiterStepOf RATE_WINDOW_MS RATE_MAX timestamps now) = true)
  /\ (forall t, In t store -> In t requests)
  /\ (forall now t,
        In t (SummariesRoute.servedOf RATE_WINDOW_MS RATE_MAX (requests ++ [now])) ->
        t = now \/ JSNum.lt (now - t) RATE_WINDOW_MS = true).
Proof.
  cbv zeta. split; [|split; [|split; [|split]]].
  - intros q ->. apply SummariesMore.servedOf_bounded; [lia|].
    intros n. apply SummariesMore.ge_false_ceiling.
  - intros ->.
    assert (H : Z.of_nat (length (SummariesRoute.servedOf RATE_WINDOW_MS JSNum.NegInf
                                    requests)) <= 0).
    { apply SummariesMore.servedOf_bounded; [lia|]. intros n. discriminate. }
    destruct (SummariesRoute.servedOf _ _ _); [reflexivity|cbn [length] in H; lia].
  - intros [-> | ->] timestamps now; reflexivity.
  - induction requests as [|now requests IH] using rev_ind; [intros t []|].
    intros t Ht. rewrite SummariesMore.servedOf_snoc in Ht.
    apply SummariesMore.limiterStepOf_In in Ht. apply in_or_app.
    destruct Ht as [->|[Ht _]]; [right; now left|left; now apply IH].
  - intros now t Ht. rewrite SummariesMore.servedOf_snoc in Ht.
    apply SummariesMore.limiterStepOf_In in Ht.
    destruct Ht as [->|[_ Ht]]; [now left|now right].
Qed.

(** [SUMMARIES_RATE_MAX=2.5]: of five requests within a second three are
    stored. *)
Lemma rate_limiter_store_bounded_witness :
  Z.of_nat (length (SummariesRoute.servedOf (JSNum.of_Z 60000) (JSNum.Fin (5 # 2))
                      [0; 100; 200; 300; 400]))
  <= Z.max (Qceiling (5 # 2)) 0.
Proof.
  destruct (rate_limiter_store_bounded (JSNum.of_Z 60000) (JSNum.Fin (5 # 2))
              [0; 100; 200; 300; 400]) as [H _].
  apply (H (5 # 2)). reflexivity.
Defined.

(** X25. A refused request is never recorded, and with a limit of at
    least one its [retryAfterMs] is a positive number: the time until
    the oldest stored request leaves the window. It is at most the
    window when no stored timestamp lies in the future. *)
Theorem rate_limited_retry_positive
    (process_env : gmap string string) (timestamps : list Z) (now m w : Z) :
  Summaries.rateLimited process_env timestamps now = true ->
  Summaries.RATE_MAX process_env = Some m ->
  1 <= m ->
  Summaries.RATE_WINDOW_MS process_env = Some w ->
  SummariesRoute.limiterStep process_env timestamps now
  = (Summaries.recentRequests process_env timestamps now, false)
  /\ Summaries.forwarded process_env timestamps now [] = None
  /\ exists r,
       SummariesRoute.retryAfterMs process_env timestamps now = Some r
       /\ 0 < r
       /\ (Forall (fun t => t <= now) timestamps -> r <= w).
Proof.
  intros Hlim Hm Hpos Hw.
  split; [unfold SummariesRoute.limiterStep; now rewrite Hlim|].
  split; [unfold Summaries.forwarded; now rewrite Hlim|].
  unfold SummariesRoute.retryAfterMs. rewrite Hw.
  unfold Summaries.rateLimited in Hlim. rewrite Hm in Hlim.
  destruct (Summaries.recentRequests process_env timestamps now) as [|t0 rest] eqn:E.
  - cbn in Hlim. rewrite Z.geb_leb in Hlim. apply Z.leb_le in Hlim. lia.
  - assert (Hin : In t0 (Summaries.recentRequests process_env timestamps now))
      by (rewrite E; now left).
    apply SummariesMore.recentRequests_In in Hin.
    destruct Hin as [Hin [w' [Hw' Hlt]]].
    rewrite Hw in Hw'. injection Hw' as <-.
    eexists. split; [reflexivity|]. split; [lia|].
    intros Hall. eapply Stdlib.Lists.List.Forall_forall in Hall; [|exact Hin].
    cbv beta in Hall. lia.
Qed.

(** The fifth request within a minute is told to come back in 59.6
    seconds. *)
Lemma rate_limited_retry_positive_witness :
  SummariesRoute.limiterStep ∅ [0; 100; 200; 300] 400
  = (Summaries.recentRequests ∅ [0; 100; 200; 300] 400, false)
  /\ Summaries.forwarded ∅ [0; 100; 200; 300] 400 [] = None
  /\ exists r,
       SummariesRoute.retryAfterMs ∅ [0; 100; 200; 300] 400 = Some r
       /\ 0 < r
       /\ (Forall (fun t => t <= 400) [0; 100; 200; 300] -> r <= 60000).
Proof.
  apply (rate_limited_retry_positive ∅ [0; 100; 200; 300] 400 4 60000).
  - reflexivity.
  - reflexivity.
  - lia.
  - reflexivity.
Defined.

(** X26. The window handed to the fetch, when it is a number, is
    between 1 and 120 minutes, at most 15 minutes in the live phase, and
    exactly 15 minutes without a kickoff. *)
Theorem window_minutes_bounded
    (Date_parse : string -> option Z)
    (liveBinStartMs : string -> Z -> option Z)
    (preWindowStartMs : string -> option Z)
    (postWindowStartMs : string -> option string -> option Z)
    (phase : Stream.Phase) (kickoffISO finalWhistleISO : string) (nowMs v : Z) :
  SummariesRoute.sinceMinOf Date_parse liveBinStartMs preWindowStartMs postWindowStartMs
    phase kickoffISO finalWhistleISO nowMs = Some v ->
  1 <= v <= 120
  /\ (phase = Stream.live -> v <= 15)
  /\ (kickoffISO = ""%string -> v = 15).
Proof.
  unfold SummariesRoute.sinceMinOf.
  destruct kickoffISO as [|c k]; cbn [JS.truthy].
  - intros [= <-]. repeat split; try lia.
  - destruct phase; intros H; apply SummariesMore.clamp_bounds in H; try lia;
      repeat split; try lia; try discriminate.
Qed.

(** Four hundred seconds into a live bin: seven minutes. *)
Lemma window_minutes_bounded_witness :
  1 <= 7 <= 120
  /\ (Stream.live = Stream.live -> 7 <= 15)
  /\ ("1000"%string = ""%string -> 7 = 15).
Proof.
  apply (window_minutes_bounded JS.Number (fun _ nowMs => Some (nowMs - 400000))
           (fun _ => None) (fun _ _ => None) Stream.live "1000" "" 5000000 7).
  reflexivity.
Defined.

(** ** The accounts plan *)

(** X27. The plan route lists at most [max(0, BSKY_MAX_ACCOUNTS)]
    Bluesky accounts, whatever the selector returned: its list is the
    front of the selector's, every listed account is eligible, and a
    failing selector gives an empty list. *)
Theorem plan_selection_capped
    (cfg : Config) (Date_parse : string -> option Z) (now : Z)
    (fetchProfilesByActors : list string -> list Bsky.BskyProfileBasic)
    (base : list Bsky.BskyProfileBasic) (inc exc : list Override.Rule) :
  let accounts := Bsky.selectEligibleAccounts cfg Date_parse now fetchProfilesByActors
                    base inc exc in
  let selected := Plan.bskySelected (MAX_ACCOUNTS cfg) (Some accounts) in
  Z.of_nat (length selected) <= Z.max 0 (MAX_ACCOUNTS cfg)
  /\ (exists rest, Plan.getAccountsSnapshot accounts = selected ++ rest)
  /\ Forall (fun e => eligible (Plan.eligibility e) = true) selected
  /\ Plan.bskySelected (MAX_ACCOUNTS cfg) None = [].
Proof.
  cbv zeta. unfold Plan.bskySelected. cbv zeta.
  set (accounts := Bsky.selectEligibleAccounts _ _ _ _ _ _ _).
  unfold JS.slice0.
  destruct (Z.max 0 (MAX_ACCOUNTS cfg) <? 0) eqn:E; [apply Z.ltb_lt in E; lia|].
  split; [|split; [|split]].
  - rewrite length_firstn. lia.
  - exists (skipn (Z.to_nat (Z.max 0 (MAX_ACCOUNTS cfg))) (Plan.getAccountsSnapshot accounts)).
    symmetry. apply firstn_skipn.
  - apply Stdlib.Lists.List.Forall_forall. intros e He.
    assert (Hin : In e (Plan.getAccountsSnapshot accounts)).
    { rewrite <- (firstn_skipn (Z.to_nat (Z.max 0 (MAX_ACCOUNTS cfg)))
                    (Plan.getAccountsSnapshot accounts)).
      apply in_or_app. now left. }
    unfold Plan.getAccountsSnapshot in Hin. apply in_map_iff in Hin.
    destruct Hin as [a [<- Ha]]. cbn [Plan.eligibility].
    assert (Hall : Forall (fun a => eligible (Bsky.eligibility a) = true
                                    /\ SelectorOrigin.bskyOrigin cfg Date_parse now
                                         fetchProfilesByActors base inc a) accounts).
    { apply SelectorOrigin.mergeAndCap_Forall.
      - apply SelectorOrigin.bsky_include_origin.
      - apply SelectorOrigin.bsky_base_origin. }
    eapply Stdlib.Lists.List.Forall_forall in Hall; [|exact Ha]. apply Hall.
  - destruct (Z.to_nat _); reflexivity.
Qed.

(** ** The in-memory comment store *)

Module CommentsMore.
Import Comments.

(** The cut made on a full list: all but the first [length - 999]
    comments. *)
Lemma slice_from_overflow {A : Type} (l : list A) :
  slice_from l (- MAX_COMMENTS_PER_MATCH + 1)
  = skipn (Z.to_nat (Z.max (Z.of_nat (length l) - 999) 0)) l.
Proof. reflexivity. Qed.

Section Store.
Variable Comment : Type.

Lemma mem_cleanup now (st : Store Comment) m :
  COMMENTS_MEM _ (cleanupExpiredComments _ now st) !! m
  = if expired now (COMMENTS_TTL _ st) m then None else COMMENTS_MEM _ st !! m.
Proof.
  cbn [cleanupExpiredComments COMMENTS_MEM].
  destruct (expired now (COMMENTS_TTL _ st) m) eqn:E.
  - apply map_lookup_filter_None. right. intros x _. cbn. rewrite E. discriminate.
  - destruct (COMMENTS_MEM _ st !! m) as [l|] eqn:L.
    + apply map_lookup_filter_Some. split; [exact L|exact E].
    + apply map_lookup_filter_None. now left.
Qed.

(** What is left of a match's comments after the cleanup at [now]. *)
Definition surviving now (st : Store Comment) m : list Comment :=
  if expired now (COMMENTS_TTL _ st) m then [] else listComments _ m st.

Lemma listComments_cleanup now st m :
  listComments _ m (cleanupExpiredComments _ now st) = surviving now st m.
Proof.
  unfold listComments, surviving. rewrite mem_cleanup.
  now destruct (expired now (COMMENTS_TTL _ st) m).
Qed.

Lemma listComments_add now1 now2 m c st :
  listComments _ m (addCommentToMemory _ now1 now2 m c st)
  = c :: (if Z.of_nat (length (surviving now1 st m)) >=? MAX_COMMENTS_PER_MATCH
          then slice_from (surviving now1 st m) (- MAX_COMMENTS_PER_MATCH + 1)
          else surviving now1 st m).
Proof.
  unfold addCommentToMemory. cbv zeta.
  unfold listComments at 1. cbn [COMMENTS_MEM]. rewrite lookup_insert_eq.
  cbn [JS.nullish].
  change (JS.nullish (COMMENTS_MEM _ (cleanupExpiredComments _ now1 st) !! m) [])
    with (listComments _ m (cleanupExpiredComments _ now1 st)).
  now rewrite listComments_cleanup.
Qed.
End Store.
End CommentsMore.

(** X28. Adding a comment to the in-memory store puts it first in its
    match's list and never lets that list exceed 1000 comments: what
    follows the new comment is a tail of what the match had (all of it
    while it had fewer than 1000), the match's expiry is renewed to
    seven days after the second clock reading, and every other match
    keeps its comments unless its expiry has passed, in which case it
    loses them. *)
Theorem comment_store_bounded
    (Comment : Type) (now1 now2 : Z) (matchId : string) (comment : Comment)
    (st : Comments.Store Comment) :
  let st' := Comments.addCommentToMemory Comment now1 now2 matchId comment st in
  let before := CommentsMore.surviving Comment now1 st matchId in
  (exists dropped rest,
      Comments.listComments Comment matchId st' = comment :: rest
      /\ before = dropped ++ rest
      /\ (Z.of_nat (length before) < 1000 -> dropped = []))
  /\ Z.of_nat (length (Comments.listComments Comment matchId st')) <= 1000
  /\ Comments.COMMENTS_TTL Comment st' !! matchId = Some (now2 + 604800000)
  /\ (forall other, other <> matchId ->
        Comments.listComments Comment other st'
        = CommentsMore.surviving Comment now1 st other).
Proof.
  cbv zeta. rewrite CommentsMore.listComments_add.
  set (before := CommentsMore.surviving Comment now1 st matchId).
  rewrite CommentsMore.slice_from_overflow.
  unfold Comments.MAX_COMMENTS_PER_MATCH.
  split; [|split; [|split]].
  - destruct (Z.of_nat (length before) >=? 1000) eqn:E.
    + exists (firstn (Z.to_nat (Z.max (Z.of_nat (length before) - 999) 0)) before).
      eexists. split; [reflexivity|]. split; [symmetry; apply firstn_skipn|].
      rewrite Z.geb_leb in E. apply Z.leb_le in E. lia.
    + exists [], before. auto.
  - destruct (Z.of_nat (length before) >=? 1000) eqn:E; cbn [length].
    + rewrite length_skipn. rewrite Z.geb_leb in E. apply Z.leb_le in E. lia.
    + rewrite Z.geb_leb in E. apply Z.leb_gt in E. lia.
  - unfold Comments.addCommentToMemory. cbv zeta. cbn [Comments.COMMENTS_TTL].
    rewrite lookup_insert_eq. reflexivity.
  - intros other Hne. unfold Comments.addCommentToMemory. cbv zeta.
    unfold Comments.listComments at 1. cbn [Comments.COMMENTS_MEM].
    rewrite lookup_insert_ne by congruence.
    apply CommentsMore.listComments_cleanup.
Qed.

(** X29. When a match already holds 1000 comments, the one that makes
    room for a new comment is the one at the head of the list, that is
    the comment added last, while the oldest comments stay. *)
Theorem full_store_evicts_newest
    (Comment : Type) (now1 now2 : Z) (matchId : string) (comment newest : Comment)
    (older : list Comment) (st : Comments.Store Comment) :
  Comments.expired now1 (Comments.COMMENTS_TTL Comment st) matchId = false ->
  Comments.listComments Comment matchId st = newest :: older ->
  length older = 999%nat ->
  Comments.listComments Comment matchId
    (Comments.addCommentToMemory Comment now1 now2 matchId comment st)
  = comment :: older.
Proof.
  intros Hexp Hlist Hlen. rewrite CommentsMore.listComments_add.
  unfold CommentsMore.surviving. rewrite Hexp, Hlist.
  rewrite CommentsMore.slice_from_overflow.
  cbn [length]. rewrite Hlen.
  reflexivity.
Qed.

Module CommentSamples.
(** A match holding comments 1000 (newest) down to 1 (oldest). *)
Definition fullList : list nat := rev (List.seq 1 1000).
Definition fullStore : Comments.Store nat :=
  Comments.mkStore nat {[ "match-1"%string := fullList ]} ∅.
End CommentSamples.

(** Comment 1001 pushes out comment 1000, not comment 1. *)
Lemma full_store_evicts_newest_witness :
  Comments.listComments nat "match-1"
    (Comments.addCommentToMemory nat 0 0 "match-1" 1001%nat CommentSamples.fullStore)
  = 1001%nat :: rev (List.seq 1 999).
Proof.
  apply (full_store_evicts_newest nat 0 0 "match-1" 1001%nat 1000%nat
           (rev (List.seq 1 999)) CommentSamples.fullStore).
  - reflexivity.
  - vm_compute. reflexivity.
  - vm_compute. reflexivity.
Defined.
